(** * n8n workflow scraper: a shallow embedding of its traversal and
      download pipeline

    The development follows [src/n8n_workflow_scraper_expanded.py]
    ([N8NComprehensiveWorkflowScraper]).  The browser is an external
    collaborator: every Playwright object the code touches is modelled
    by the answers its methods give, and every method call either
    returns or raises.  The exceptions the code catches are modelled
    where it catches them.

    Conventions of the model:
    - text is a [string] of 8-bit characters (UTF-8 bytes); the regex
      classes [\d] and [\s] and [str.strip]/[str.lower] are modelled on
      their ASCII members;
    - [int] of a digit string is its decimal value in [N];
    - logging ([log], [log_category]) and fixed delays ([time.sleep])
      have no effect on the data flow and are left out;
    - opening and closing a tab ([context.new_page], [tab.close]) are
      taken to return; indexing the list of tabs raises when out of
      range; [mkdir] on a category directory and [exists] on a target
      file, which stand in front of the [try] of the download, may
      raise;
    - [urllib.parse.urljoin], [json.loads] and [json.dump] are library
      functions outside the repository: they are parameters. *)

From Stdlib Require Import Ascii String NArith.
From stdpp Require Import gmap strings list pretty.

Open Scope string_scope.
Open Scope list_scope.
Open Scope nat_scope.

(** ** Outcome of a call that may raise *)

Inductive Raises (A : Type) : Type :=
| Ret (a : A)
| Raise.
Arguments Ret {A} a.
Arguments Raise {A}.

Global Instance Raises_ret : MRet Raises := λ A a, Ret a.
Global Instance Raises_bind : MBind Raises := λ A B f m,
  match m with
  | Ret a => f a
  | Raise => Raise
  end.

Global Instance Raises_eq_dec {A} `{EqDecision A} : EqDecision (Raises A).
Proof. solve_decision. Defined.

(** ** Text: the [str] methods and the regular expressions used *)

Module Text.

Definition is_digit (c : ascii) : bool :=
  let n := N_of_ascii c in (48 <=? n)%N && (n <=? 57)%N.

(** ASCII members of [str.isspace] (and of the regex class [\s]). *)
Definition is_space (c : ascii) : bool :=
  let n := N_of_ascii c in
  ((9 <=? n)%N && (n <=? 13)%N) || ((28 <=? n)%N && (n <=? 32)%N).

Definition not_slash (c : ascii) : bool := negb (Ascii.eqb c "/").

(** Longest prefix whose characters satisfy [p], and what follows:
    a greedy [p+] or [p*]. *)
Fixpoint span (p : ascii → bool) (s : string) : string * string :=
  match s with
  | String c s' =>
      if p c then let '(a, b) := span p s' in (String c a, b)
      else (EmptyString, s)
  | EmptyString => (EmptyString, EmptyString)
  end.

Definition digit_value (c : ascii) : N := (N_of_ascii c - 48)%N.

Fixpoint int_go (acc : N) (s : string) : N :=
  match s with
  | String c s' => int_go (10 * acc + digit_value c)%N s'
  | EmptyString => acc
  end.

(** [int(s)] for a string of decimal digits. *)
Definition int (s : string) : N := int_go 0 s.

(** [s.startswith(p)], returning the rest. *)
Fixpoint strip_prefix (p s : string) : option string :=
  match p, s with
  | EmptyString, _ => Some s
  | String a p', String b s' =>
      if Ascii.eqb a b then strip_prefix p' s' else None
  | String _ _, EmptyString => None
  end.

(** [needle in s]. *)
Fixpoint str_in (needle s : string) : bool :=
  match strip_prefix needle s with
  | Some _ => true
  | None =>
      match s with
      | String _ s' => str_in needle s'
      | EmptyString => false
      end
  end.

Fixpoint lstrip (s : string) : string :=
  match s with
  | String c s' => if is_space c then lstrip s' else s
  | EmptyString => EmptyString
  end.

(** [s.strip()]. *)
Definition strip (s : string) : string :=
  String.rev (lstrip (String.rev (lstrip s))).

Definition lower_char (c : ascii) : ascii :=
  let n := N_of_ascii c in
  if (65 <=? n)%N && (n <=? 90)%N then ascii_of_N (n + 32) else c.

(** [s.lower()]. *)
Fixpoint lower (s : string) : string :=
  match s with
  | String c s' => String (lower_char c) (lower s')
  | EmptyString => EmptyString
  end.

(** [re.search]: the leftmost position at which the pattern matches.
    A pattern is given by its matcher at a position. *)
Fixpoint re_search {A} (m : string → option A) (s : string) : option A :=
  match m s with
  | Some r => Some r
  | None =>
      match s with
      | String _ s' => re_search m s'
      | EmptyString => None
      end
  end.

Definition nonempty (s : string) : option string :=
  match s with
  | EmptyString => None
  | _ => Some s
  end.

(** [\+(\d+)] at a position: group 1.  The class [\d] excludes what
    follows the run, so the greedy run is the only match. *)
Definition plus_number_at (s : string) : option string :=
  rest ← strip_prefix "+" s;
  nonempty (span is_digit rest).1.

(** [/workflows/\d+] at a position. *)
Definition workflow_id_at (s : string) : option unit :=
  rest ← strip_prefix "/workflows/" s;
  _ ← nonempty (span is_digit rest).1;
  Some ().

(** [/workflows/(\d+-[^/]+)] at a position: group 1.  After fewer
    digits than the whole run comes a digit, never the hyphen, so
    backtracking into [\d+] cannot succeed. *)
Definition slug_at (s : string) : option string :=
  rest ← strip_prefix "/workflows/" s;
  let '(digits, rest1) := span is_digit rest in
  _ ← nonempty digits;
  rest2 ← strip_prefix "-" rest1;
  tail ← nonempty (span not_slash rest2).1;
  Some (digits +:+ "-" +:+ tail).

(** [(\d+)\s*<word>s?] at a position: group 1 (the optional [s]
    changes neither the match nor the group). *)
Definition count_word_at (word : string) (s : string) : option string :=
  let '(digits, rest1) := span is_digit s in
  _ ← nonempty digits;
  _ ← strip_prefix word (span is_space rest1).2;
  Some digits.

End Text.

(** ** The browser interface *)

(** An element handle, by the answers of the methods the code calls. *)
#[warnings="-register-all"]
Inductive Element : Type := mkElement {
  get_attribute : string → Raises (option string);
  inner_text : Raises string;
  query_selector : string → Raises (option Element);
  query_selector_all : string → Raises (list Element);
  is_visible : Raises bool;
  click : Raises unit
}.

(** A listing page as rendered at one moment. *)
Record Page : Type := mkPage {
  wait_for_timeout : Raises unit;
  page_query_selector : string → Raises (option Element);
  page_query_selector_all : string → Raises (list Element)
}.

(** [button and button.is_visible()]. *)
Definition found_and_visible (button : option Element) : Raises bool :=
  match button with
  | Some b => is_visible b
  | None => Ret false
  end.

(** [button.click()] on the handle just tested. *)
Definition click_found (button : option Element) : Raises unit :=
  match button with
  | Some b => click b
  | None => Ret ()
  end.

(** ** Configuration constants *)

Definition BASE_URL : string := "https://n8n.io/workflows/".
Definition MIN_NODES : N := 6.
Definition DOWNLOAD_BATCH_SIZE : nat := 15.
Definition MAX_WORKFLOWS_PER_SUBCATEGORY : nat := 150.

(** The double quote, for selectors that contain one. *)
Definition dq : string := String (ascii_of_nat 34) EmptyString.
Definition quoted (s : string) : string := dq +:+ s +:+ dq.

(** ** Candidate items *)

Record Workflow : Type := mkWorkflow {
  title : string;
  slug : string;
  url : string;
  nodes : N;
  category : string;
  has_price : bool;
  is_free : bool
}.

Global Instance Workflow_eq_dec : EqDecision Workflow.
Proof. solve_decision. Defined.

(** ** The Page Extractor: [extract_workflow_links] *)

Section Extractor.

(** [urllib.parse.urljoin]. *)
Variable urljoin : string → string → string.

Definition workflow_selectors : list string :=
  [ "a[href*='/workflows/']";
    "link[href*='/workflows/']";
    "[data-workflow-id]" ].

Definition title_selector : string :=
  "h3, .workflow-title, [class*=" +:+ quoted "title" +:+ "]".

Definition visible_node_selector : string :=
  "li:has([role=" +:+ quoted "tooltip" +:+ "])".

Definition plus_selector : string := "li span:not([role])".

Definition price_selectors : list string :=
  [ "font[dir=" +:+ quoted "auto" +:+ "][style*="
      +:+ quoted "vertical-align: inherit;" +:+ "]";
    "font:has-text(" +:+ quoted "$" +:+ ")";
    "span:has-text(" +:+ quoted "$" +:+ ")";
    "div:has-text(" +:+ quoted "$" +:+ ")" ].

Definition free_selectors : list string :=
  [ "span:has-text(" +:+ quoted "Free" +:+ ")";
    "div:has-text(" +:+ quoted "Free" +:+ ")";
    "span:has-text(" +:+ quoted "free" +:+ ")";
    "div:has-text(" +:+ quoted "free" +:+ ")" ].

(** The href test of an individual workflow link (not a category). *)
Definition is_workflow_href (href : option string) : bool :=
  match href with
  | Some h =>
      negb (String.eqb h EmptyString)
      && Text.str_in "/workflows/" h
      && negb (Text.str_in "/workflows/categories/" h)
      && bool_decide (is_Some (Text.re_search Text.workflow_id_at h))
  | None => false
  end.

(** The [for plus_element in plus_elements] loop: the first element
    whose stripped text holds [+N] sets the indicator and breaks. *)
Fixpoint find_plus_indicator (plus_elements : list Element) : Raises N :=
  match plus_elements with
  | [] => Ret 0%N
  | plus_element :: rest =>
      plus_text ← inner_text plus_element;
      match Text.re_search Text.plus_number_at (Text.strip plus_text) with
      | Some g => Ret (Text.int g)
      | None => find_plus_indicator rest
      end
  end.

(** Method 1: visible nodes plus the [+X] indicator of the node list. *)
Definition structural_count (node_list : Element) : Raises N :=
  visible_node_elements ← query_selector_all node_list visible_node_selector;
  let visible_nodes := N.of_nat (length visible_node_elements) in
  plus_elements ← query_selector_all node_list plus_selector;
  plus_indicator ← find_plus_indicator plus_elements;
  Ret (visible_nodes + plus_indicator)%N.

(** Method 2: the first [+N] of the entry's whole text
    ([re.findall(...)[0]] is the group of the leftmost match). *)
Definition overflow_only_count (element_text : string) : N :=
  match Text.re_search Text.plus_number_at element_text with
  | Some g => Text.int g
  | None => 0%N
  end.

Definition node_text_patterns : list string := [ "node"; "nodo" ].

(** Method 3: the first of the patterns [(\d+)\s*nodes?] and
    [(\d+)\s*nodos?] that matches the lowercase text. *)
Fixpoint text_pattern_count (patterns : list string) (element_text : string)
    : N :=
  match patterns with
  | [] => 0%N
  | pattern :: rest =>
      match Text.re_search (Text.count_word_at pattern) element_text with
      | Some g => Text.int g
      | None => text_pattern_count rest element_text
      end
  end.

(** The tiered node count of one entry. *)
Definition count_nodes (element : Element) : Raises N :=
  node_list ← query_selector element "ul";
  nodes_count ← match node_list with
                 | Some nl => structural_count nl
                 | None => Ret 0%N
                 end;
  nodes_count ← (if (nodes_count =? 0)%N
                  then element_text ← inner_text element;
                       Ret (overflow_only_count element_text)
                  else Ret nodes_count);
  if (nodes_count =? 0)%N
  then element_text ← inner_text element;
       Ret (text_pattern_count node_text_patterns (Text.lower element_text))
  else Ret nodes_count.

Definition has_currency (price_text : string) : bool :=
  Text.str_in "$" price_text || Text.str_in "€" price_text
  || Text.str_in "£" price_text.

Fixpoint detect_price (element : Element) (selectors : list string)
    : Raises bool :=
  match selectors with
  | [] => Ret false
  | price_selector :: rest =>
      price_element ← query_selector element price_selector;
      match price_element with
      | Some pe =>
          price_text ← inner_text pe;
          if has_currency (Text.strip price_text) then Ret true
          else detect_price element rest
      | None => detect_price element rest
      end
  end.

Fixpoint detect_free (element : Element) (selectors : list string)
    : Raises bool :=
  match selectors with
  | [] => Ret false
  | free_selector :: rest =>
      free_element ← query_selector element free_selector;
      match free_element with
      | Some fe =>
          free_text ← inner_text fe;
          if Text.str_in "free" (Text.lower (Text.strip free_text))
          then Ret true
          else detect_free element rest
      | None => detect_free element rest
      end
  end.

(** The record [workflow_data] built for one element, [None] when
    the href is not an individual workflow link.  [workflows] is the
    list accepted so far (its length names a slug-less entry). *)
Definition workflow_record (category_name : string)
    (workflows : list Workflow) (element : Element)
    : Raises (option Workflow) :=
  href ← get_attribute element "href";
  if is_workflow_href href then
    let href := default EmptyString href in
    title_element ← query_selector element title_selector;
    title ← match title_element with
             | Some te => t ← inner_text te; Ret (Text.strip t)
             | None => Ret "Unknown Title"
             end;
    let slug := match Text.re_search Text.slug_at href with
                | Some g => g
                | None => "workflow-" +:+ pretty (length workflows)
                end in
    let full_url := urljoin BASE_URL href in
    nodes_count ← count_nodes element;
    has_price ← detect_price element price_selectors;
    is_free ← detect_free element free_selectors;
    Ret (Some {| title := title; slug := slug; url := full_url;
                 nodes := nodes_count; category := category_name;
                 has_price := has_price; is_free := is_free |})
  else Ret None.

(** The combined filter in front of [workflows.append]. *)
Definition accepts (workflows : list Workflow) (workflow_data : Workflow)
    : bool :=
  (0 <? nodes workflow_data)%N
  && (MIN_NODES <=? nodes workflow_data)%N
  && negb (has_price workflow_data)
  && is_free workflow_data
  && bool_decide (workflow_data ∉ workflows).

(** One turn of the [for element in elements] loop, with its
    [try ... except Exception]: a raising entry is skipped. *)
Definition process_element (category_name : string)
    (workflows : list Workflow) (element : Element) : list Workflow :=
  match workflow_record category_name workflows element with
  | Ret (Some workflow_data) =>
      if accepts workflows workflow_data
      then workflows ++ [workflow_data]
      else workflows
  | Ret None => workflows
  | Raise => workflows
  end.

(** The [for selector in workflow_selectors] loop; a raising
    [query_selector_all] leaves through the outer [except] with what
    has been collected. *)
Fixpoint extract_selectors (page : Page) (category_name : string)
    (selectors : list string) (workflows : list Workflow) : list Workflow :=
  match selectors with
  | [] => workflows
  | selector :: rest =>
      match page_query_selector_all page selector with
      | Ret elements =>
          extract_selectors page category_name rest
            (foldl (process_element category_name) workflows elements)
      | Raise => workflows
      end
  end.

Definition extract_workflow_links (page : Page) (category_name : string)
    : list Workflow :=
  match wait_for_timeout page with
  | Ret _ => extract_selectors page category_name workflow_selectors []
  | Raise => []
  end.

(** The elements the two loops go through, in encounter order. *)
Fixpoint encountered (page : Page) (selectors : list string)
    : list Element :=
  match selectors with
  | [] => []
  | selector :: rest =>
      match page_query_selector_all page selector with
      | Ret elements => elements ++ encountered page rest
      | Raise => []
      end
  end.

Definition entries (page : Page) : list Element :=
  match wait_for_timeout page with
  | Ret _ => encountered page workflow_selectors
  | Raise => []
  end.

End Extractor.

(** ** The scraper object and the disk *)

Record GlobalStats : Type := mkGlobalStats {
  categories_explored : nat;
  subcategories_explored : nat;
  total_workflows_found : nat;
  total_workflows_downloaded : nat;
  total_errors : nat
}.

Record CategoryStats : Type := mkCategoryStats {
  downloaded : nat;
  errors : nat;
  found : nat
}.

(** [self].  [download_dir] is the directory tree below the download
    directory: a category directory maps to its files, a file name to
    its text.  The tree is keyed by the category name as it is; a
    name for which no directory can be made (one that holds a [/],
    say) never gets a key, [mkdir] raising for it.  [goto_log] is a ghost field: the URLs the download protocol passed
    to [page.goto], oldest first. *)
Record Scraper : Type := mkScraper {
  download_dir : gmap string (gmap string string);
  global_stats : GlobalStats;
  category_stats : gmap string CategoryStats;
  goto_log : list string
}.

Definition set_download_dir (d : gmap string (gmap string string))
    (self : Scraper) : Scraper :=
  mkScraper d (global_stats self) (category_stats self) (goto_log self).

Definition set_global_stats (g : GlobalStats) (self : Scraper) : Scraper :=
  mkScraper (download_dir self) g (category_stats self) (goto_log self).

Definition set_category_stats (c : gmap string CategoryStats)
    (self : Scraper) : Scraper :=
  mkScraper (download_dir self) (global_stats self) c (goto_log self).

Definition log_goto (u : string) (self : Scraper) : Scraper :=
  mkScraper (download_dir self) (global_stats self) (category_stats self)
            (goto_log self ++ [u]).

(** [category_dir.mkdir(exist_ok=True)]. *)
Definition mkdir_exist_ok (dir : string)
    (d : gmap string (gmap string string)) : gmap string (gmap string string) :=
  match d !! dir with
  | Some _ => d
  | None => <[dir := ∅]> d
  end.

(** [file_path.exists()]. *)
Definition file_exists (dir name : string)
    (d : gmap string (gmap string string)) : bool :=
  bool_decide (is_Some (d !! dir ≫= (.!! name))).

(** The file [dir/name] holds [text] afterwards. *)
Definition write_file (dir name text : string)
    (d : gmap string (gmap string string)) : gmap string (gmap string string) :=
  <[dir := <[name := text]> (default ∅ (d !! dir))]> d.

Definition zero_category_stats : CategoryStats := mkCategoryStats 0 0 0.

(** [if category_name not in self.category_stats: ... = {zeros}]. *)
Definition init_category_stats (category_name : string)
    (c : gmap string CategoryStats) : gmap string CategoryStats :=
  match c !! category_name with
  | Some _ => c
  | None => <[category_name := zero_category_stats]> c
  end.

(** ** The Download Orchestrator *)

(** How [open(file_path, 'w')] followed by [json.dump] ends. *)
Inductive WriteOutcome : Type :=
| Written
| OpenRaises
| DumpRaises (n : nat).

(** What the tab and the file system answer while one item is
    downloaded.  [path_mkdir] is how [category_dir.mkdir(exist_ok=True)]
    ends when the directory is not there yet (a category name with a
    [/] in it, say, makes it raise), and [path_exists] how
    [file_path.exists()] ends when the file is not there, [Ret ()]
    standing for the answer [False] (an over-long name makes it
    raise); with the directory or the file in place the two calls
    return.  [goto] is [page.goto(url, ...)] followed by reading
    [page.url]; [clipboard] is the value of the
    [navigator.clipboard.readText] evaluation ([None] for [null]);
    [disk] is how the final write ends. *)
Record ItemPage : Type := mkItemPage {
  path_mkdir : Raises unit;
  path_exists : Raises unit;
  goto : Raises string;
  use_button : Raises (option Element);
  copy_button : string → Raises (option Element);
  clipboard : Raises (option string);
  disk : WriteOutcome
}.

(** A call of [download_workflow_via_clipboard] in a batch: the tab
    it was made on, its item, and what it returned, if it did. *)
Record Attempt : Type := mkAttempt {
  tab_index : nat;
  item : Workflow;
  outcome : Raises bool
}.

(** A tab of a batch, by what it answers while the item with index
    [i] of the batch is downloaded on it. *)
Definition Tab : Type := nat → ItemPage.

(** What a call of [download_batch_immediately] did: the calls of
    [context.new_page] and of [tab.close], the calls of
    [download_workflow_via_clipboard], and whether the call returned or
    let an exception escape. *)
Record BatchReport : Type := mkBatchReport {
  tabs_opened : nat;
  attempts : list Attempt;
  tabs_closed : nat;
  returned : Raises unit
}.

Section Downloader.

(** [json.loads] ([Raise] for [JSONDecodeError] or any other
    exception) and the text [json.dump(..., indent=2,
    ensure_ascii=False)] produces. *)
Variable JSON : Type.
Variable json_loads : string → Raises JSON.
Variable json_dump : JSON → string.

Definition copy_selectors : list string :=
  [ "div.cursor-pointer:has-text("
      +:+ quoted "Copy template to clipboard (JSON)" +:+ ")";
    "div:has-text(" +:+ quoted "Copy template to clipboard (JSON)" +:+ ")";
    "button:has-text(" +:+ quoted "Copy template to clipboard" +:+ ")";
    "[data-testid=" +:+ quoted "copy-template" +:+ "]" ].

(** The [for selector in copy_selectors] loop: [copy_clicked]. *)
Fixpoint click_copy (page : ItemPage) (selectors : list string)
    : Raises bool :=
  match selectors with
  | [] => Ret false
  | selector :: rest =>
      copy ← copy_button page selector;
      visible ← found_and_visible copy;
      if (visible : bool) then (_ ← click_found copy; Ret true)
      else click_copy page rest
  end.

(** The body of the [try] up to the parsed payload: [Ret None] on
    the branches that return [False], [Raise] when a call raised. *)
Definition fetch_workflow_data (page : ItemPage) : Raises (option JSON) :=
  location ← goto page;
  if negb (Text.str_in "n8n.io" location) then Ret None
  else
    use ← use_button page;
    visible ← found_and_visible use;
    if (visible : bool) then
      _ ← click_found use;
      copy_clicked ← click_copy page copy_selectors;
      if (copy_clicked : bool) then
        clipboard_content ← clipboard page;
        match clipboard_content with
        | Some text =>
            if String.eqb text EmptyString then Ret None
            else workflow_data ← json_loads text; Ret (Some workflow_data)
        | None => Ret None
        end
      else Ret None
    else Ret None.

Definition file_name (workflow : Workflow) : string :=
  slug workflow +:+ ".json".

(** [category_dir.mkdir(exist_ok=True)], which stands in front of
    the [try]: it returns when the directory is there. *)
Definition mkdir_call (page : ItemPage) (dir : string)
    (d : gmap string (gmap string string)) : Raises unit :=
  match d !! dir with
  | Some _ => Ret ()
  | None => path_mkdir page
  end.

(** [file_path.exists()], in front of the [try] as well. *)
Definition exists_call (page : ItemPage) (dir name : string)
    (d : gmap string (gmap string string)) : Raises bool :=
  if file_exists dir name d then Ret true
  else (_ ← path_exists page; Ret false).

(** [download_workflow_via_clipboard]: what the call returns, [Raise]
    when [mkdir] or [exists] raised, and the scraper after it. *)
Definition download_workflow_via_clipboard (self : Scraper)
    (page : ItemPage) (workflow : Workflow) : Raises bool * Scraper :=
  match mkdir_call page (category workflow) (download_dir self) with
  | Raise => (Raise, self)
  | Ret _ =>
      let self :=
        set_download_dir
          (mkdir_exist_ok (category workflow) (download_dir self)) self in
      match exists_call page (category workflow) (file_name workflow)
              (download_dir self) with
      | Raise => (Raise, self)
      | Ret true => (Ret true, self)
      | Ret false =>
          let self := log_goto (url workflow) self in
          match fetch_workflow_data page with
          | Ret (Some workflow_data) =>
              match disk page with
              | Written =>
                  (Ret true,
                   set_download_dir
                     (write_file (category workflow) (file_name workflow)
                        (json_dump workflow_data) (download_dir self)) self)
              | OpenRaises => (Ret false, self)
              | DumpRaises n =>
                  (Ret false,
                   set_download_dir
                     (write_file (category workflow) (file_name workflow)
                        (String.substring 0 n (json_dump workflow_data))
                        (download_dir self)) self)
              end
          | Ret None => (Ret false, self)
          | Raise => (Ret false, self)
          end
      end
  end.

Definition count_success (category_name : string) (self : Scraper)
    : Scraper :=
  let g := global_stats self in
  let self :=
    set_global_stats
      (mkGlobalStats (categories_explored g) (subcategories_explored g)
         (total_workflows_found g) (S (total_workflows_downloaded g))
         (total_errors g)) self in
  let c := init_category_stats category_name (category_stats self) in
  set_category_stats
    (alter (λ s, mkCategoryStats (S (downloaded s)) (errors s) (found s))
           category_name c) self.

Definition count_error (category_name : string) (self : Scraper)
    : Scraper :=
  let g := global_stats self in
  let self :=
    set_global_stats
      (mkGlobalStats (categories_explored g) (subcategories_explored g)
         (total_workflows_found g) (total_workflows_downloaded g)
         (S (total_errors g))) self in
  let c := init_category_stats category_name (category_stats self) in
  set_category_stats
    (alter (λ s, mkCategoryStats (downloaded s) (S (errors s)) (found s))
           category_name c) self.

(** The [for i, workflow in enumerate(workflows)] loop, from index
    [i] on; [tabs[tab_index]] raises when the index is out of range.
    There is no [except] around the loop: a call that raises ends it,
    and the items after it are not attempted. *)
Fixpoint download_items (self : Scraper) (tabs : list Tab)
    (batch_size : nat) (category_name : string) (i : nat)
    (workflows : list Workflow) : Scraper * list Attempt * Raises unit :=
  match workflows with
  | [] => (self, [], Ret ())
  | workflow :: rest =>
      let tab_index := i mod batch_size in
      match tabs !! tab_index with
      | Some tab =>
          match download_workflow_via_clipboard self (tab i) workflow with
          | (Ret ok, self) =>
              let self := if (ok : bool)
                          then count_success category_name self
                          else count_error category_name self in
              let '(self, more, r) :=
                download_items self tabs batch_size category_name (S i)
                  rest in
              (self, mkAttempt tab_index workflow (Ret ok) :: more, r)
          | (Raise, self) =>
              (self, [mkAttempt tab_index workflow Raise], Raise)
          end
      | None => (self, [], Raise)
      end
  end.

(** [context k] is the tab the [k]-th [context.new_page()] of the
    batch returns.  The [finally] block closes every tab, also when
    an exception is on its way out. *)
Definition download_batch_immediately (self : Scraper)
    (context : nat → Tab) (workflows : list Workflow)
    (category_name : string) : Scraper * BatchReport :=
  match workflows with
  | [] => (self, mkBatchReport 0 [] 0 (Ret ()))
  | _ =>
      let batch_size := min 3 (length workflows) in
      let tabs := context <$> seq 0 batch_size in
      let '(self, done, r) :=
        download_items self tabs batch_size category_name 0 workflows in
      (self, mkBatchReport (length tabs) done (length tabs) r)
  end.

(** The scraper after one turn of the item loop; a call that raises
    leaves the counters alone. *)
Definition download_one (self : Scraper) (page : ItemPage) (c : string)
    (w : Workflow) : Scraper :=
  match (download_workflow_via_clipboard self page w).1 with
  | Ret true => count_success c (download_workflow_via_clipboard self page w).2
  | Ret false => count_error c (download_workflow_via_clipboard self page w).2
  | Raise => (download_workflow_via_clipboard self page w).2
  end.

End Downloader.

(** ** The Pagination Driver: [load_more_pages] and
       [scrape_category_workflows] *)

Record Category : Type := mkCategory {
  cat_name : string;
  cat_slug : string;
  cat_url : string;
  cat_parent : option string
}.

(** [load_more_pages]: any exception is answered by [False]. *)
Definition load_more_pages (page : Page) : bool :=
  match
    (load_more_button ← page_query_selector page "text=Load more templates";
     visible ← found_and_visible load_more_button;
     if (visible : bool)
     then (_ ← click_found load_more_button;
           _ ← wait_for_timeout page;
           Ret true)
     else Ret false)
  with
  | Ret b => b
  | Raise => false
  end.

(** The locals of [scrape_category_workflows], with [self].
    [batches] is a ghost field: the lists handed to
    [download_batch_immediately], oldest first. *)
Record Traversal : Type := mkTraversal {
  self : Scraper;
  all_workflows : list Workflow;
  processed_slugs : gset string;
  pages_loaded : nat;
  pending_downloads : list Workflow;
  batches : list (list Workflow)
}.

(** What the site shows during one traversal: whether the first
    [page.goto(category_url)] returns, the listing after [k] clicks on
    the load-more control, and the tabs the browser context opens for
    the [b]-th batch. *)
Record Listing : Type := mkListing {
  goto_category : Raises unit;
  view : nat → Page;
  batch_tabs : nat → nat → Tab
}.

Definition count_found (category_name : string) (s : Scraper) : Scraper :=
  let g := global_stats s in
  let s :=
    set_global_stats
      (mkGlobalStats (categories_explored g) (subcategories_explored g)
         (S (total_workflows_found g)) (total_workflows_downloaded g)
         (total_errors g)) s in
  set_category_stats
    (alter (λ c, mkCategoryStats (downloaded c) (errors c) (S (found c)))
           category_name (category_stats s)) s.

(** How a turn of the loop ends: on to the next turn, through a
    [break], or through an exception on its way to the [except]
    clause of the function. *)
Inductive LoopExit : Type := Continue | Break | Abort.

Section Driver.

Variable urljoin : string → string → string.
Variable JSON : Type.
Variable json_loads : string → Raises JSON.
Variable json_dump : JSON → string.

Variable site : Listing.
Variable category_name : string.

(** The body of [if slug not in processed_slugs and len < MAX]. *)
Definition accept_new (workflow : Workflow) (t : Traversal) : Traversal :=
  mkTraversal (count_found category_name (self t))
    (all_workflows t ++ [workflow])
    ({[ slug workflow ]} ∪ processed_slugs t)
    (pages_loaded t)
    (pending_downloads t ++ [workflow])
    (batches t).

(** The [for workflow in page_workflows] loop with its [break]. *)
Fixpoint collect_new (page_workflows : list Workflow) (t : Traversal)
    : Traversal :=
  match page_workflows with
  | [] => t
  | workflow :: rest =>
      if bool_decide (slug workflow ∉ processed_slugs t)
         && (length (all_workflows t) <? MAX_WORKFLOWS_PER_SUBCATEGORY)%nat
      then
        let t := accept_new workflow t in
        if (MAX_WORKFLOWS_PER_SUBCATEGORY <=? length (all_workflows t))%nat
        then t
        else collect_new rest t
      else collect_new rest t
  end.

(** [download_batch_immediately(context, pending_downloads, ...)]
    followed, inside the loop, by [pending_downloads = []], which is
    skipped when the call raises. *)
Definition flush (t : Traversal) : Traversal * Raises unit :=
  let '(s, report) :=
    download_batch_immediately JSON json_loads json_dump (self t)
      (batch_tabs site (length (batches t))) (pending_downloads t)
      category_name in
  match returned report with
  | Ret _ =>
      (mkTraversal s (all_workflows t) (processed_slugs t) (pages_loaded t)
         [] (batches t ++ [pending_downloads t]), Ret ())
  | Raise =>
      (mkTraversal s (all_workflows t) (processed_slugs t) (pages_loaded t)
         (pending_downloads t) (batches t ++ [pending_downloads t]), Raise)
  end.

(** One turn of [while True]. *)
Definition loop_iteration (t : Traversal) : Traversal * LoopExit :=
  let t :=
    mkTraversal (self t) (all_workflows t) (processed_slugs t)
      (S (pages_loaded t)) (pending_downloads t) (batches t) in
  let page := view site (pages_loaded t - 1) in
  let page_workflows := extract_workflow_links urljoin page category_name in
  let t := collect_new page_workflows t in
  if (MAX_WORKFLOWS_PER_SUBCATEGORY <=? length (all_workflows t))%nat
  then (t, Break)
  else
    let '(t, flushed) :=
      if (DOWNLOAD_BATCH_SIZE <=? length (pending_downloads t))%nat
      then flush t else (t, Ret ()) in
    match flushed with
    | Raise => (t, Abort)
    | Ret _ =>
        if negb (load_more_pages page) then (t, Break)
        else if (30 <? pages_loaded t)%nat then (t, Break)
        else (t, Continue)
    end.

(** [while True] with a bound on the number of turns: [None] when
    the bound is reached before the loop is left. *)
Fixpoint run_loop (fuel : nat) (t : Traversal)
    : option (Traversal * LoopExit) :=
  match fuel with
  | O => None
  | S fuel =>
      match loop_iteration t with
      | (t, Continue) => run_loop fuel t
      | (t, exit) => Some (t, exit)
      end
  end.

(** [if pending_downloads: download_batch_immediately(...)]; an
    exception of the call ends in the [except] clause, after which the
    function returns as well. *)
Definition flush_rest (t : Traversal) : Traversal :=
  match pending_downloads t with
  | [] => t
  | _ =>
      let '(s, _) :=
        download_batch_immediately JSON json_loads json_dump (self t)
          (batch_tabs site (length (batches t))) (pending_downloads t)
          category_name in
      mkTraversal s (all_workflows t) (processed_slugs t) (pages_loaded t)
        (pending_downloads t) (batches t ++ [pending_downloads t])
  end.

Definition start (s : Scraper) : Traversal :=
  mkTraversal
    (set_category_stats
       (init_category_stats category_name (category_stats s)) s)
    [] ∅ 0 [] [].

(** [scrape_category_workflows]: the locals when the function
    returns.  A raising first navigation, like an exception that
    leaves the loop, ends in the [except] clause. *)
Definition scrape_category_workflows (fuel : nat) (s : Scraper)
    : option Traversal :=
  match goto_category site with
  | Raise => Some (start s)
  | Ret _ =>
      match run_loop fuel (start s) with
      | Some (t, Abort) => Some t
      | Some (t, _) => Some (flush_rest t)
      | None => None
      end
  end.

(** The places where the locals change, one at a time: the page
    counter goes up, a new item passes the guard of the inner loop, or
    a full buffer is handed over. *)
Inductive traversal_step : Traversal → Traversal → Prop :=
| step_next_page t :
    traversal_step t
      (mkTraversal (self t) (all_workflows t) (processed_slugs t)
         (S (pages_loaded t)) (pending_downloads t) (batches t))
| step_accept t workflow :
    slug workflow ∉ processed_slugs t →
    length (all_workflows t) < MAX_WORKFLOWS_PER_SUBCATEGORY →
    traversal_step t (accept_new workflow t)
| step_flush t :
    DOWNLOAD_BATCH_SIZE ≤ length (pending_downloads t) →
    traversal_step t (flush t).1.

(** What holds of the locals in every state the steps reach. *)
Definition traversal_inv (t : Traversal) : Prop :=
  (∀ w, w ∈ pending_downloads t → w ∈ all_workflows t)
  ∧ NoDup (slug <$> all_workflows t)
  ∧ (∀ w, w ∈ all_workflows t → slug w ∈ processed_slugs t)
  ∧ length (all_workflows t) ≤ MAX_WORKFLOWS_PER_SUBCATEGORY.

(** What holds of the buffer and the batches as long as no flush has
    raised: together they are the accepted items, and every batch
    flushed in the loop is a full one. *)
Definition handed_over (t : Traversal) : Prop :=
  concat (batches t) ++ pending_downloads t = all_workflows t
  ∧ Forall (λ b, DOWNLOAD_BATCH_SIZE ≤ length b) (batches t).

(** What holds of an item a traversal took from a page of the
    listing. *)
Definition extracted (w : Workflow) : Prop :=
  ((MIN_NODES ≤ nodes w)%N ∧ has_price w = false ∧ is_free w = true)
  ∧ category w = category_name
  ∧ ∃ k, w ∈ extract_workflow_links urljoin (view site k) category_name.

End Driver.

(** ** The Traversal Controller: [discover_subcategories] and
       [scrape_all_categories_comprehensively] *)

(** One entry of the hardcoded table (every URL of the table is the
    categories path followed by the slug). *)
Definition known (name slug : string) : Category :=
  mkCategory name slug
    ("https://n8n.io/workflows/categories/" +:+ slug +:+ "/") None.

Definition known_subcategories : list (string * list Category) :=
  [ ("sales",
     [ known "CRM" "crm";
       known "Lead Generation" "lead-generation";
       known "Lead Nurturing" "lead-nurturing" ]);
    ("marketing",
     [ known "Content Creation" "content-creation";
       known "Market Research" "market-research";
       known "Social Media" "social-media" ]);
    ("it-ops",
     [ known "SecOps" "secops";
       known "Engineering" "engineering";
       known "DevOps" "devops" ]);
    ("document-ops",
     [ known "Document Extraction" "document-extraction";
       known "File Management" "file-management";
       known "Invoice Processing" "invoice-processing" ]);
    ("support",
     [ known "Support Chatbot" "support-chatbot";
       known "Ticket Management" "ticket-management";
       known "Internal Wiki" "internal-wiki" ]);
    ("other",
     [ known "Crypto Trading" "crypto-trading";
       known "HR" "hr";
       known "Miscellaneous" "miscellaneous";
       known "Personal Productivity" "personal-productivity";
       known "Project Management" "project-management" ]) ].

Fixpoint lookup_known (key : string) (table : list (string * list Category))
    : option (list Category) :=
  match table with
  | [] => None
  | (k, subs) :: rest =>
      if String.eqb k key then Some subs else lookup_known key rest
  end.

Definition discover_subcategories (category : Category) : list Category :=
  let category_slug := Text.lower (cat_slug category) in
  match lookup_known category_slug known_subcategories with
  | Some subs =>
      map (λ subcat_data,
             mkCategory (cat_name subcat_data) (cat_slug subcat_data)
               (cat_url subcat_data) (Some (cat_slug category)))
          subs
  | None => []
  end.

(** What a run does that can be seen from outside. *)
Inductive Event : Type :=
| EvScrape (c : Category)
| EvNoCategories
| EvFinalStatistics (g : GlobalStats)
| EvCriticalError
| EvBrowserClose.

Section Controller.

(** A call [self.scrape_category_workflows(context, c, page)] as its
    caller sees it: the scraper afterwards, and whether the call
    returned or let an exception escape. *)
Variable scrape : Scraper → Category → Scraper * Raises unit.

(** A [for] loop over (sub)categories, left at the first call that
    raises. *)
Fixpoint scrape_each (s : Scraper) (units : list Category)
    : Scraper * Raises unit * list Event :=
  match units with
  | [] => (s, Ret (), [])
  | c :: rest =>
      match scrape s c with
      | (s, Ret _) =>
          let '(s, r, evs) := scrape_each s rest in
          (s, r, EvScrape c :: evs)
      | (s, Raise) => (s, Raise, [EvScrape c])
      end
  end.

Definition add_subcategories_explored (n : nat) (s : Scraper) : Scraper :=
  let g := global_stats s in
  set_global_stats
    (mkGlobalStats (categories_explored g) (subcategories_explored g + n)
       (total_workflows_found g) (total_workflows_downloaded g)
       (total_errors g)) s.

(** The body of [for i, category in enumerate(main_categories)]. *)
Definition process_category (s : Scraper) (category : Category)
    : Scraper * Raises unit * list Event :=
  match discover_subcategories category with
  | [] => scrape_each s [category]
  | subcategories =>
      scrape_each (add_subcategories_explored (length subcategories) s)
                  subcategories
  end.

Fixpoint process_categories (s : Scraper) (main_categories : list Category)
    : Scraper * Raises unit * list Event :=
  match main_categories with
  | [] => (s, Ret (), [])
  | category :: rest =>
      match process_category s category with
      | (s, Ret _, evs) =>
          let '(s, r, more) := process_categories s rest in
          (s, r, evs ++ more)
      | (s, Raise, evs) => (s, Raise, evs)
      end
  end.

Definition set_categories_explored (n : nat) (s : Scraper) : Scraper :=
  let g := global_stats s in
  set_global_stats
    (mkGlobalStats n (subcategories_explored g)
       (total_workflows_found g) (total_workflows_downloaded g)
       (total_errors g)) s.

(** The [try]/[except]/[finally] of the main process, given what
    [discover_main_categories] returned; [print_final_statistics]
    is taken to return. *)
Definition scrape_all_categories_comprehensively (s : Scraper)
    (main_categories : list Category) : Scraper * list Event :=
  match main_categories with
  | [] => (s, [EvNoCategories; EvBrowserClose])
  | _ =>
      let s := set_categories_explored (length main_categories) s in
      match process_categories s main_categories with
      | (s, Ret _, evs) =>
          (s, evs ++ [EvFinalStatistics (global_stats s); EvBrowserClose])
      | (s, Raise, evs) =>
          (s, evs ++ [EvCriticalError; EvBrowserClose])
      end
  end.

End Controller.

(** ** Category discovery: [accept_all_cookies] and
       [discover_main_categories] *)

Module Str.

(** The last element of [s.split(sep)] for a non-empty [sep]: what
    follows the last of the occurrences of [sep] found from left to
    right without overlap.  [skip] counts the characters of a matched
    separator still to be passed; [piece] is the piece read so far. *)
Fixpoint split_last_go (sep : string) (skip : nat) (piece s : string)
    : string :=
  match s with
  | EmptyString => piece
  | String c s' =>
      match skip with
      | S skip' => split_last_go sep skip' piece s'
      | O =>
          match Text.strip_prefix sep s with
          | Some _ =>
              split_last_go sep (String.length sep - 1) EmptyString s'
          | None =>
              split_last_go sep 0 (piece +:+ String c EmptyString) s'
          end
      end
  end.

Definition split_last (sep s : string) : string :=
  split_last_go sep 0 EmptyString s.

Fixpoint lstrip_char (c : ascii) (s : string) : string :=
  match s with
  | String a s' => if Ascii.eqb a c then lstrip_char c s' else s
  | EmptyString => EmptyString
  end.

(** [s.rstrip(c)] for a single character [c]. *)
Definition rstrip_char (c : ascii) (s : string) : string :=
  String.rev (lstrip_char c (String.rev s)).

End Str.

Global Instance Category_eq_dec : EqDecision Category.
Proof. solve_decision. Defined.

Definition accept_strategies : list string :=
  [ "text=Accept All";
    "text=Accept all cookies";
    "text=Accept All Cookies";
    "text=Accept";
    "text=I Agree";
    "text=Allow All";
    "text=Accept & Close";
    "button:has-text('Accept All')";
    "button:has-text('Accept')";
    "[data-testid='cookie-accept-all']";
    ".cookie-accept-all";
    "#cookie-accept-all";
    "[onclick*='accept']";
    ".cookiescript_accept_all";
    "button[class*='accept']";
    "div[class*='accept'][role='button']" ].

(** The body of the inner [try] for one strategy: [Ret true] when the
    control was found, visible, clicked and the wait returned. *)
Definition try_strategy (page : Page) (selector : string) : Raises bool :=
  element ← page_query_selector page selector;
  visible ← found_and_visible element;
  if (visible : bool)
  then (_ ← click_found element; _ ← wait_for_timeout page; Ret true)
  else Ret false.

(** The [for selector in accept_strategies] loop: a strategy that
    raises is passed over ([continue]), the first that succeeds ends
    the function. *)
Fixpoint accept_with (page : Page) (strategies : list string)
    : option string :=
  match strategies with
  | [] => None
  | selector :: rest =>
      match try_strategy page selector with
      | Ret true => Some selector
      | Ret false => accept_with page rest
      | Raise => accept_with page rest
      end
  end.

(** [accept_all_cookies]: the selector the cookies were accepted
    with, as the function logs it; [None] when it logs that none was
    found or that an error occurred.  The function itself returns
    nothing and never raises. *)
Definition accept_all_cookies (page : Page) : option string :=
  match wait_for_timeout page with
  | Ret _ => accept_with page accept_strategies
  | Raise => None
  end.

(** The hand-written list of main categories, without AI. *)
Definition known_main_categories : list Category :=
  [ known "Sales" "sales";
    known "IT Ops" "it-ops";
    known "Marketing" "marketing";
    known "Document Ops" "document-ops";
    known "Other" "other";
    known "Support" "support" ].

Definition category_selectors : list string :=
  [ "link[href*='/workflows/categories/']";
    "a[href*='/workflows/categories/']";
    ".category-link";
    "[data-category]" ].

Definition max_retries : nat := 3.

(** The start page: whether the [k]-th [page.goto] with its wait
    returns, and the page once it is loaded. *)
Record Home : Type := mkHome {
  home_goto : nat → Raises unit;
  home_page : Page
}.

(** The [for attempt in range(max_retries)] loop from [attempt] on,
    with [left] turns to go: whether the page was reached ([break], or
    the range ran out) or the last attempt failed, and the number of
    navigations issued. *)
Fixpoint navigate (goto_attempt : nat → Raises unit) (attempt left : nat)
    : bool * nat :=
  match left with
  | O => (true, 0)
  | S left' =>
      match goto_attempt attempt with
      | Ret _ => (true, 1)
      | Raise =>
          if attempt =? max_retries - 1 then (false, 1)
          else let '(reached, n) := navigate goto_attempt (S attempt) left' in
               (reached, S n)
      end
  end.

(** Whether a category is the excluded one. *)
Definition is_ai (c : Category) : bool :=
  String.eqb (Text.lower (cat_slug c)) "ai".

Section Discovery.

Variable urljoin : string → string → string.

(** The body of the [try] for one element: its [category_info], or
    [None] when the test on href and text fails. *)
Definition category_info (element : Element) : Raises (option Category) :=
  href ← get_attribute element "href";
  text ← inner_text element;
  let text := Text.strip text in
  match href with
  | Some h =>
      if negb (String.eqb h EmptyString)
         && Text.str_in "/workflows/categories/" h
         && negb (String.eqb text EmptyString)
      then
        let full_url := urljoin BASE_URL h in
        let category_name :=
          Str.rstrip_char "/" (Str.split_last "/workflows/categories/" h) in
        Ret (Some (mkCategory text category_name full_url None))
      else Ret None
  | None => Ret None
  end.

(** One turn of the [for element in elements] loop, with its
    [try ... except Exception]. *)
Definition add_category (categories : list Category) (element : Element)
    : list Category :=
  match category_info element with
  | Ret (Some c) =>
      if bool_decide (c ∈ categories) then categories else categories ++ [c]
  | Ret None => categories
  | Raise => categories
  end.

(** The [for selector in category_selectors] loop; a raising
    [query_selector_all] leaves for the outer [except]. *)
Fixpoint collect_categories (page : Page) (selectors : list string)
    (categories : list Category) : Raises (list Category) :=
  match selectors with
  | [] => Ret categories
  | selector :: rest =>
      elements ← page_query_selector_all page selector;
      collect_categories page rest (foldl add_category categories elements)
  end.

(** [discover_main_categories].  The call of [accept_all_cookies]
    between navigation and collection returns nothing and never
    raises. *)
Definition discover_main_categories (home : Home) : list Category :=
  match navigate (home_goto home) 0 max_retries with
  | (false, _) => known_main_categories
  | (true, _) =>
      match collect_categories (home_page home) category_selectors [] with
      | Ret categories =>
          let categories := filter (λ c, is_ai c = false) categories in
          match categories with
          | [] => known_main_categories
          | _ => categories
          end
      | Raise => []
      end
  end.

(** What holds of a category read from a link of the page. *)
Definition from_link (page : Page) (c : Category) : Prop :=
  ∃ sel element h text,
    sel ∈ category_selectors
    ∧ (∃ elements, page_query_selector_all page sel = Ret elements
                   ∧ element ∈ elements)
    ∧ get_attribute element "href" = Ret (Some h)
    ∧ inner_text element = Ret text
    ∧ Text.str_in "/workflows/categories/" h = true
    ∧ cat_name c = Text.strip text
    ∧ cat_name c ≠ EmptyString
    ∧ cat_url c = urljoin BASE_URL h
    ∧ cat_parent c = None.

End Discovery.

(** ** The whole run *)

Section Run.

Variable urljoin : string → string → string.
Variable JSON : Type.
Variable json_loads : string → Raises JSON.
Variable json_dump : JSON → string.

(** What the web shows during a run: the start page and, for each
    (sub)category, its listing. *)
Variable home : Home.
Variable sites : Category → Listing.

(** A call [self.scrape_category_workflows(context, c, page)] of the
    controller.  The function catches what is raised inside it; the
    bound on the turns of its loop is never met (the loop leaves
    within 31 turns). *)
Definition traverse (s : Scraper) (c : Category) : Scraper * Raises unit :=
  match scrape_category_workflows urljoin JSON json_loads json_dump
          (sites c) (cat_name c) 31 s with
  | Some t => (self t, Ret ())
  | None => (s, Raise)
  end.

(** [scrape_all_categories_comprehensively] from discovery on. *)
Definition run_scraper (s : Scraper) : Scraper * list Event :=
  scrape_all_categories_comprehensively traverse s
    (discover_main_categories urljoin home).

End Run.

(** ** Concrete pages for the examples *)

Module Samples.

(** [urljoin] on the references used below, all absolute paths: the
    origin of the base followed by the path. *)
Definition urljoin_path (base href : string) : string :=
  "https://n8n.io" +:+ href.

(** A stand-in for the [json] module on the payloads used below:
    a text that opens with a brace parses, and is kept as it is. *)
Definition loads_object (text : string) : Raises string :=
  match Text.strip_prefix "{" text with
  | Some _ => Ret text
  | None => Raise
  end.

Definition dump_object (v : string) : string := v.

(** An element without attributes or descendants, showing [text]. *)
Definition leaf (text : string) : Element :=
  mkElement (λ _, Ret None) (Ret text) (λ _, Ret None) (λ _, Ret [])
            (Ret true) (Ret ()).

(** A node list with [visible] tooltip-bearing items and the given
    texts in its role-less spans. *)
Definition node_list (visible : nat) (spans : list string) : Element :=
  mkElement (λ _, Ret None) (Ret EmptyString) (λ _, Ret None)
    (λ selector,
       if String.eqb selector visible_node_selector
       then Ret (replicate visible (leaf EmptyString))
       else if String.eqb selector plus_selector
       then Ret (map leaf spans)
       else Ret [])
    (Ret true) (Ret ()).

(** A listing card: a link whose heading is [heading], with an
    optional node list, a [Free] label when [free], no price. *)
Definition card (href heading text : string) (ul : option Element)
    (free : bool) : Element :=
  mkElement
    (λ attribute,
       if String.eqb attribute "href" then Ret (Some href) else Ret None)
    (Ret text)
    (λ selector,
       if String.eqb selector title_selector then Ret (Some (leaf heading))
       else if String.eqb selector "ul" then Ret ul
       else if String.eqb selector ("span:has-text(" +:+ quoted "Free" +:+ ")")
       then Ret (if free then Some (leaf "Free") else None)
       else Ret None)
    (λ _, Ret [])
    (Ret true) (Ret ()).

(** A listing whose anchors are [cards]; [more] tells whether the
    load-more control is shown. *)
Definition listing_page (cards : list Element) (more : bool) : Page :=
  mkPage (Ret ())
    (λ selector,
       if String.eqb selector "text=Load more templates"
       then Ret (if more then Some (leaf "Load more templates") else None)
       else Ret None)
    (λ selector,
       if String.eqb selector "a[href*='/workflows/']" then Ret cards
       else Ret []).

(** Scenario B of the specification: five visible nodes and [+3]. *)
Definition scenario_b : Element :=
  card "/workflows/1954-ai-agent-chat/" "AI agent chat"
       "AI agent chat +3 Free" (Some (node_list 5 ["+3"])) true.

(** Scenario A: three visible nodes and [+2]. *)
Definition scenario_a : Element :=
  card "/workflows/2465-small/" "Small" "Small +2 Free"
       (Some (node_list 3 ["+2"])) true.

(** Neither a price nor a [Free] label. *)
Definition unlabelled : Element :=
  card "/workflows/777-plain/" "Plain" "Plain +3"
       (Some (node_list 5 ["+3"])) false.

(** A heading that itself holds a [+N]: one visible node and [+3]. *)
Definition plus_in_heading : Element :=
  card "/workflows/31-save-time/" "Save +10 hours" "Save +10 hours +3 Free"
       (Some (node_list 1 ["+3"])) true.

(** An empty node list while the text holds [+5]. *)
Definition empty_node_list : Element :=
  card "/workflows/32-cpp/" "Top +5 tricks" "Top +5 tricks Free"
       (Some (node_list 0 [])) true.

(** Two anchors to one workflow with different headings. *)
Definition twin_a : Element :=
  card "/workflows/1954-ai-agent-chat/" "AI agent chat"
       "AI agent chat +3 Free" (Some (node_list 5 ["+3"])) true.
Definition twin_b : Element :=
  card "/workflows/1954-ai-agent-chat/" "AI agent chat (new)"
       "AI agent chat (new) +3 Free" (Some (node_list 5 ["+3"])) true.

(** The [n]-th of a family of accepted cards with distinct slugs. *)
Definition numbered (n : nat) : Element :=
  card ("/workflows/" +:+ pretty n +:+ "-flow/") "Flow" "Flow +9 Free"
       (Some (node_list 2 ["+9"])) true.

Definition numbered_cards (n : nat) : list Element :=
  map numbered (seq 1 n).

(** The record the extractor builds for [unlabelled] in category
    Sales. *)
Definition plain : Workflow :=
  mkWorkflow "Plain" "777-plain" "https://n8n.io/workflows/777-plain/" 8
    "Sales" false false.

(** The record the extractor builds for [scenario_b] in category
    Sales. *)
Definition agent_chat : Workflow :=
  mkWorkflow "AI agent chat" "1954-ai-agent-chat"
    "https://n8n.io/workflows/1954-ai-agent-chat/" 8 "Sales" false true.

Definition zero_global_stats : GlobalStats := mkGlobalStats 0 0 0 0 0.

(** A scraper that has just been constructed, on an empty download
    directory. *)
Definition fresh_scraper : Scraper :=
  mkScraper ∅ zero_global_stats ∅ [].

(** A tab on which every step of the protocol works and the
    clipboard ends up holding [text]. *)
Definition working_tab (text : string) : ItemPage :=
  mkItemPage (Ret ()) (Ret ())
    (Ret "https://n8n.io/workflows/1954-ai-agent-chat/")
    (Ret (Some (leaf "Use for free")))
    (λ _, Ret (Some (leaf "Copy template to clipboard (JSON)")))
    (Ret (Some text)) Written.

(** A tab whose navigation times out. *)
Definition unreachable_tab : ItemPage :=
  mkItemPage (Ret ()) (Ret ()) Raise (Ret None) (λ _, Ret None) (Ret None)
    Written.

(** Tabs of a batch in which only item [3] cannot be reached. *)
Definition tabs_failing_third (tab i : nat) : ItemPage :=
  if i =? 3 then unreachable_tab else working_tab "{}".

(** A tab for an item whose file name is too long for the file
    system: [file_path.exists()] raises. *)
Definition name_too_long_tab : ItemPage :=
  mkItemPage (Ret ()) Raise
    (Ret "https://n8n.io/workflows/1954-ai-agent-chat/")
    (Ret (Some (leaf "Use for free")))
    (λ _, Ret (Some (leaf "Copy template to clipboard (JSON)")))
    (Ret (Some "{}")) Written.

(** A tab for an item whose category directory cannot be made (the
    category name holds a [/]): [category_dir.mkdir] raises. *)
Definition no_directory_tab : ItemPage :=
  mkItemPage Raise (Ret ())
    (Ret "https://n8n.io/workflows/1954-ai-agent-chat/")
    (Ret (Some (leaf "Use for free")))
    (λ _, Ret (Some (leaf "Copy template to clipboard (JSON)")))
    (Ret (Some "{}")) Written.

(** Tabs of a batch in which the name of item [3] is too long. *)
Definition tabs_raising_third (tab i : nat) : ItemPage :=
  if i =? 3 then name_too_long_tab else working_tab "{}".

(** Seven accepted records with distinct slugs. *)
Definition seven_workflows : list Workflow :=
  map (λ n, mkWorkflow "Flow" (pretty n +:+ "-flow")
              ("https://n8n.io/workflows/" +:+ pretty n +:+ "-flow/")
              11 "Sales" false true)
      (seq 1 7).


(** A listing that shows sixteen accepted cards on its only page. *)
Definition sixteen_on_one_page : Listing :=
  mkListing (Ret ()) (λ _, listing_page (numbered_cards 16) false)
            (λ _ _ _, working_tab "{}").

(** A listing that never runs out: no card is accepted and the
    load-more control is shown after every click. *)
Definition endless : Listing :=
  mkListing (Ret ()) (λ _, listing_page [] true) (λ _ _ _, unreachable_tab).


(** A run in which every traversal returns. *)
Definition uneventful (s : Scraper) (c : Category) : Scraper * Raises unit :=
  (s, Ret ()).

(** A run in which an exception escapes while the subcategory [hr]
    is processed. *)
Definition interrupted_at_hr (s : Scraper) (c : Category)
    : Scraper * Raises unit :=
  if String.eqb (cat_slug c) "hr" then (s, Raise) else (s, Ret ()).

(** The fallback list of main categories. *)
Definition known_categories : list Category :=
  [ known "Sales" "sales"; known "IT Ops" "it-ops";
    known "Marketing" "marketing"; known "Document Ops" "document-ops";
    known "Other" "other"; known "Support" "support" ].


(** A scraper whose disk already holds the file of [agent_chat]. *)
Definition stocked_scraper : Scraper :=
  mkScraper {[ "Sales" := {[ "1954-ai-agent-chat.json" := "{}" ]} ]}
            zero_global_stats ∅ [].

Definition event_label (e : Event) : string :=
  match e with
  | EvScrape c => cat_slug c
  | EvNoCategories => "no categories"
  | EvFinalStatistics _ => "final statistics"
  | EvCriticalError => "critical error"
  | EvBrowserClose => "browser closed"
  end.

End Samples.

(** ** A start page, a small site and a run on them *)

Module Site.

Import Samples.

(** A link of the start page. *)
Definition category_link (href text : string) : Element :=
  mkElement
    (λ attribute,
       if String.eqb attribute "href" then Ret (Some href) else Ret None)
    (Ret text) (λ _, Ret None) (λ _, Ret []) (Ret true) (Ret ()).

(** A start page with links to three categories, AI among them, and
    no cookie banner. *)
Definition start_page : Page :=
  mkPage (Ret ()) (λ _, Ret None)
    (λ selector,
       if String.eqb selector "a[href*='/workflows/categories/']"
       then Ret [ category_link "/workflows/categories/ai/" "AI";
                  category_link "/workflows/categories/sales/" " Sales ";
                  category_link "/workflows/categories/devops/" "DevOps";
                  category_link "/workflows/categories/sales/" "Sales" ]
       else Ret []).

(** The start page is reached at the second attempt. *)
Definition slow_home : Home :=
  mkHome (λ attempt, if attempt =? 0 then Raise else Ret ()) start_page.

Definition sales : Category :=
  mkCategory "Sales" "sales" "https://n8n.io/workflows/categories/sales/"
    None.

Definition devops : Category :=
  mkCategory "DevOps" "devops" "https://n8n.io/workflows/categories/devops/"
    None.

(** A listing of two pages: two accepted cards, then the same two
    and two more; the load-more control is shown on the first page
    only.  The fourth item of a batch cannot be reached. *)
Definition two_pages : Listing :=
  mkListing (Ret ())
    (λ k, listing_page (numbered_cards (2 * (k + 1))) (k <? 1))
    (λ _, tabs_failing_third).

(** The listings of the site: that of DevOps cannot be reached, the
    items of CRM cannot be downloaded. *)
Definition small_site (c : Category) : Listing :=
  if String.eqb (cat_slug c) "devops"
  then mkListing Raise (λ _, listing_page [] false) (λ _ _ _, unreachable_tab)
  else if String.eqb (cat_slug c) "crm"
  then mkListing (Ret ()) (λ _, listing_page (numbered_cards 2) false)
         (λ _ _ _, unreachable_tab)
  else two_pages.

(** A listing of a category whose directory cannot be made: every
    [mkdir] of a download raises. *)
Definition no_directory : Listing :=
  mkListing (Ret ()) (λ _, listing_page (numbered_cards 2) false)
    (λ _ _ _, no_directory_tab).

(** The record of the first numbered card in category Sales. *)
Definition first_flow : Workflow :=
  mkWorkflow "Flow" "1-flow" "https://n8n.io/workflows/1-flow/" 11 "Sales"
    false true.

(** The locals at the end of a traversal of [two_pages], from a
    fresh scraper and from one whose disk holds a file. *)
Definition two_pages_result : Traversal :=
  default (start "Sales" fresh_scraper)
    (scrape_category_workflows urljoin_path string loads_object dump_object
       two_pages "Sales" 31 fresh_scraper).

Definition stocked_result : Traversal :=
  default (start "Sales" stocked_scraper)
    (scrape_category_workflows urljoin_path string loads_object dump_object
       two_pages "Sales" 31 stocked_scraper).

Definition no_directory_result : Traversal :=
  default (start "CI/CD" fresh_scraper)
    (scrape_category_workflows urljoin_path string loads_object dump_object
       no_directory "CI/CD" 31 fresh_scraper).

(** The statistics the run on the small site reports. *)
Definition small_report : GlobalStats := mkGlobalStats 2 3 10 6 4.

End Site.

(** ** Vocabulary of the properties *)

(** The acceptance predicate of the data model. *)
Definition acceptable (w : Workflow) : Prop :=
  (MIN_NODES ≤ nodes w)%N ∧ has_price w = false ∧ is_free w = true.

(** The markers of an entry: under [selector] the entry shows a
    price, or a free label. *)
Definition price_marker (element : Element) (selector : string) : Prop :=
  ∃ price_element price_text,
    query_selector element selector = Ret (Some price_element)
    ∧ inner_text price_element = Ret price_text
    ∧ has_currency (Text.strip price_text) = true.

Definition free_label (element : Element) (selector : string) : Prop :=
  ∃ free_element free_text,
    query_selector element selector = Ret (Some free_element)
    ∧ inner_text free_element = Ret free_text
    ∧ Text.str_in "free" (Text.lower (Text.strip free_text)) = true.

(** The two calls in front of the [try] of a download return. *)
Definition paths_ok (page : ItemPage) : Prop :=
  path_mkdir page = Ret () ∧ path_exists page = Ret ().

(** The target file of an item is on the disk of [self]. *)
Definition on_disk (self : Scraper) (w : Workflow) : bool :=
  file_exists (category w) (file_name w) (download_dir self).

(** The event of a traversal call. *)
Definition is_scrape (e : Event) : Prop := ∃ c, e = EvScrape c.

(** The text of the file [dir/name], if there is one. *)
Definition read_file (dir name : string)
    (d : gmap string (gmap string string)) : option string :=
  d !! dir ≫= (.!! name).

(** Processing the entry raises (the list accepted so far plays no
    part in that). *)
Definition record_raises (urljoin : string → string → string)
    (category_name : string) (element : Element) : bool :=
  match workflow_record urljoin category_name [] element with
  | Raise => true
  | Ret _ => false
  end.

(** Every character of [s] satisfies [p]. *)
Fixpoint all_chars (p : ascii → bool) (s : string) : bool :=
  match s with
  | String c s' => p c && all_chars p s'
  | EmptyString => true
  end.

(** Items found are items attempted: the counters of downloads and of
    errors add up to the counter of items found. *)
Definition balanced (s : Scraper) : Prop :=
  total_workflows_downloaded (global_stats s) + total_errors (global_stats s)
  = total_workflows_found (global_stats s).

(** The statistics of a category, zero when it has none yet. *)
Definition stats_of (category_name : string) (s : Scraper) : CategoryStats :=
  default zero_category_stats (category_stats s !! category_name).

(** The units the controller traverses for a main category. *)
Definition units_of (category : Category) : list Category :=
  match discover_subcategories category with
  | [] => [category]
  | subcategories => subcategories
  end.

(** The (sub)categories traversed, as the events tell. *)
Definition scraped (events : list Event) : list Category :=
  omap (λ e, match e with EvScrape c => Some c | _ => None end) events.

(** The numbers of successful and of failed attempts. *)
Definition successes (done : list Attempt) : nat :=
  length (filter (λ a, outcome a = Ret true) done).
Definition failures (done : list Attempt) : nat :=
  length (filter (λ a, outcome a = Ret false) done).

(** Downloads and errors do not exceed the items found. *)
Definition settled (s : Scraper) : Prop :=
  total_workflows_downloaded (global_stats s) + total_errors (global_stats s)
  ≤ total_workflows_found (global_stats s).

(** The counters of [self t] against those of the scraper [s0] the
    traversal started from: every accepted item is counted as found,
    and no more downloads and errors are counted than items were
    handed over. *)
Definition accounted (category_name : string) (s0 : Scraper) (t : Traversal)
    : Prop :=
  let g0 := global_stats s0 in
  let g := global_stats (self t) in
  let c0 := stats_of category_name s0 in
  let c := stats_of category_name (self t) in
  is_Some (category_stats (self t) !! category_name)
  ∧ total_workflows_found g
    = total_workflows_found g0 + length (all_workflows t)
  ∧ total_workflows_downloaded g0 + total_errors g0
    ≤ total_workflows_downloaded g + total_errors g
    ≤ total_workflows_downloaded g0 + total_errors g0
      + length (concat (batches t))
  ∧ found c = found c0 + length (all_workflows t)
  ∧ downloaded c0 + errors c0
    ≤ downloaded c + errors c
    ≤ downloaded c0 + errors c0 + length (concat (batches t))
  ∧ categories_explored g = categories_explored g0
  ∧ subcategories_explored g = subcategories_explored g0
  ∧ ∀ c', category_name ≠ c' →
      category_stats (self t) !! c' = category_stats s0 !! c'.

(** Every item handed over has been counted, as a download or as an
    error. *)
Definition attempted (category_name : string) (s0 : Scraper) (t : Traversal)
    : Prop :=
  total_workflows_downloaded (global_stats (self t))
  + total_errors (global_stats (self t))
  = total_workflows_downloaded (global_stats s0)
    + total_errors (global_stats s0) + length (concat (batches t))
  ∧ downloaded (stats_of category_name (self t))
    + errors (stats_of category_name (self t))
    = downloaded (stats_of category_name s0)
      + errors (stats_of category_name s0) + length (concat (batches t)).

(** The disk of [self t] against that of [s0]: what was there is
    kept, and only the targets of accepted items can be new. *)
Definition files_kept (s0 : Scraper) (t : Traversal) : Prop :=
  ∀ dir name,
    (∀ text, read_file dir name (download_dir s0) = Some text →
             read_file dir name (download_dir (self t)) = Some text)
    ∧ ((∀ w, w ∈ all_workflows t → (dir, name) ≠ (category w, file_name w)) →
       read_file dir name (download_dir (self t))
       = read_file dir name (download_dir s0)).

(** * Properties *)

(** ** The Page Extractor *)

Section ExtractorFacts.

Variable urljoin : string → string → string.
Variable category_name : string.

Local Abbreviation step := (process_element urljoin category_name).
Local Abbreviation record := (workflow_record urljoin category_name).

Lemma accepts_spec ws w :
  accepts ws w = true ↔ acceptable w ∧ w ∉ ws.
Proof.
  unfold accepts, acceptable, MIN_NODES.
  rewrite !andb_true_iff, negb_true_iff, bool_decide_eq_true.
  rewrite N.ltb_lt, N.leb_le. intuition lia.
Qed.

Lemma extract_selectors_foldl page sels ws :
  extract_selectors urljoin page category_name sels ws
  = foldl step ws (encountered page sels).
Proof.
  revert ws. induction sels as [|sel sels IH]; intros ws; simpl; [done|].
  destruct (page_query_selector_all page sel) as [els|]; [|done].
  by rewrite IH, foldl_app.
Qed.

Lemma extract_foldl page :
  extract_workflow_links urljoin page category_name
  = foldl step [] (entries page).
Proof.
  unfold extract_workflow_links, entries.
  destruct (wait_for_timeout page); [|done].
  apply extract_selectors_foldl.
Qed.

(** A turn of the loop leaves the list or appends one record. *)
Lemma step_cases ws e :
  step ws e = ws
  ∨ ∃ w, record ws e = Ret (Some w) ∧ accepts ws w = true
         ∧ step ws e = ws ++ [w].
Proof.
  unfold process_element.
  destruct (record ws e) as [[w|]|]; auto.
  destruct (accepts ws w) eqn:Ha; eauto.
Qed.

Lemma step_prefix ws e : ws `prefix_of` step ws e.
Proof.
  destruct (step_cases ws e) as [->|(w & _ & _ & ->)]; [done|].
  by apply prefix_app_r.
Qed.

Lemma foldl_step_prefix es ws : ws `prefix_of` foldl step ws es.
Proof.
  revert ws. induction es as [|e es IH]; intros ws; simpl; [done|].
  etrans; [apply step_prefix | apply IH].
Qed.

Lemma foldl_step_acceptable es ws :
  Forall acceptable ws → Forall acceptable (foldl step ws es).
Proof.
  revert ws. induction es as [|e es IH]; intros ws Hws; simpl; [done|].
  apply IH.
  destruct (step_cases ws e) as [->|(w & _ & Ha & ->)]; [done|].
  apply Forall_app; split; [done|].
  apply Forall_singleton. by apply accepts_spec in Ha as [? _].
Qed.

Lemma foldl_step_NoDup es ws : NoDup ws → NoDup (foldl step ws es).
Proof.
  revert ws. induction es as [|e es IH]; intros ws Hws; simpl; [done|].
  apply IH.
  destruct (step_cases ws e) as [->|(w & _ & Ha & ->)]; [done|].
  apply accepts_spec in Ha as [_ Hnin].
  apply NoDup_app; split_and!; [done| |apply NoDup_singleton].
  intros x Hx ->%list_elem_of_singleton. done.
Qed.

(** A processed entry whose record passes the predicate is in the
    list after its turn. *)
Lemma step_emits ws e w :
  record ws e = Ret (Some w) → acceptable w → w ∈ step ws e.
Proof.
  intros Hrec Hacc. unfold process_element. rewrite Hrec.
  destruct (accepts ws w) eqn:Ha.
  - apply elem_of_app; right. by apply list_elem_of_singleton.
  - destruct (decide (w ∈ ws)) as [|Hnin]; [done|].
    assert (accepts ws w = true) by (by apply accepts_spec).
    congruence.
Qed.

(** The flags are what the markers of the entry say. *)
Lemma detect_price_spec element selectors b :
  detect_price element selectors = Ret b →
  b = true ↔ ∃ selector, selector ∈ selectors ∧ price_marker element selector.
Proof.
  revert b. induction selectors as [|sel selectors IH]; intros b; simpl.
  { intros [= <-]. split; [done|]. by intros (? & ?%elem_of_nil & _). }
  destruct (query_selector element sel) as [[pe|]|] eqn:Hq;
    cbn [mbind Raises_bind]; [| |done].
  - destruct (inner_text pe) as [text|] eqn:Ht; cbn [mbind Raises_bind];
      [|done].
    destruct (has_currency (Text.strip text)) eqn:Hc.
    + intros [= <-]. split; [|done]. intros _. exists sel.
      split; [by left|]. by exists pe, text.
    + intros Hd. rewrite (IH _ Hd). split.
      * intros (s0 & Hin & Hm). exists s0. split; [by right|done].
      * intros (s0 & [->|Hin]%elem_of_cons & Hm); [|by exists s0].
        destruct Hm as (pe' & text' & Hq' & Ht' & Hc'). congruence.
  - intros Hd. rewrite (IH _ Hd). split.
    + intros (s0 & Hin & Hm). exists s0. split; [by right|done].
    + intros (s0 & [->|Hin]%elem_of_cons & Hm); [|by exists s0].
      destruct Hm as (pe' & text' & Hq' & _). congruence.
Qed.

Lemma detect_free_spec element selectors b :
  detect_free element selectors = Ret b →
  b = true ↔ ∃ selector, selector ∈ selectors ∧ free_label element selector.
Proof.
  revert b. induction selectors as [|sel selectors IH]; intros b; simpl.
  { intros [= <-]. split; [done|]. by intros (? & ?%elem_of_nil & _). }
  destruct (query_selector element sel) as [[fe|]|] eqn:Hq;
    cbn [mbind Raises_bind]; [| |done].
  - destruct (inner_text fe) as [text|] eqn:Ht; cbn [mbind Raises_bind];
      [|done].
    destruct (Text.str_in "free" (Text.lower (Text.strip text))) eqn:Hc.
    + intros [= <-]. split; [|done]. intros _. exists sel.
      split; [by left|]. by exists fe, text.
    + intros Hd. rewrite (IH _ Hd). split.
      * intros (s0 & Hin & Hm). exists s0. split; [by right|done].
      * intros (s0 & [->|Hin]%elem_of_cons & Hm); [|by exists s0].
        destruct Hm as (fe' & text' & Hq' & Ht' & Hc'). congruence.
  - intros Hd. rewrite (IH _ Hd). split.
    + intros (s0 & Hin & Hm). exists s0. split; [by right|done].
    + intros (s0 & [->|Hin]%elem_of_cons & Hm); [|by exists s0].
      destruct Hm as (fe' & text' & Hq' & _). congruence.
Qed.

(** The fields of a record are the computed count and the two
    detected flags. *)
Lemma workflow_record_fields ws e w :
  record ws e = Ret (Some w) →
  count_nodes e = Ret (nodes w)
  ∧ detect_price e price_selectors = Ret (has_price w)
  ∧ detect_free e free_selectors = Ret (is_free w).
Proof.
  unfold workflow_record.
  destruct (get_attribute e "href") as [href|]; cbn [mbind Raises_bind];
    [|done].
  destruct (is_workflow_href href); [|done].
  destruct (query_selector e title_selector) as [[te|]|];
    cbn [mbind Raises_bind]; [| |done].
  - destruct (inner_text te); cbn [mbind Raises_bind]; [|done].
    destruct (count_nodes e); cbn [mbind Raises_bind]; [|done].
    destruct (detect_price e price_selectors); cbn [mbind Raises_bind];
      [|done].
    destruct (detect_free e free_selectors); cbn [mbind Raises_bind]; [|done].
    by intros [= <-].
  - destruct (count_nodes e); cbn [mbind Raises_bind]; [|done].
    destruct (detect_price e price_selectors); cbn [mbind Raises_bind];
      [|done].
    destruct (detect_free e free_selectors); cbn [mbind Raises_bind]; [|done].
    by intros [= <-].
Qed.

(** C1: for every entry the extractor processes, the record built
    for it is among the returned items if and only if its node count
    is at least [MIN_NODES], it has no price and it is free; so
    every returned item has a non-zero node count, no price and the
    free flag.  The count of the record is the computed count of the
    entry, and its flags are what the markup shows: it has a price
    exactly when one of the price selectors finds a text with a
    currency sign, and it is free exactly when one of the free
    selectors finds a text that holds the word; so an entry with
    neither marker keeps both flags at [false] and is not among the
    returned items. *)
Theorem C1_accepted_iff_predicate (page : Page) :
  (∀ before element after workflow_data,
      entries page = before ++ element :: after →
      workflow_record urljoin category_name
        (foldl (process_element urljoin category_name) [] before) element
      = Ret (Some workflow_data) →
      workflow_data ∈ extract_workflow_links urljoin page category_name
      ↔ (MIN_NODES ≤ nodes workflow_data)%N
        ∧ has_price workflow_data = false
        ∧ is_free workflow_data = true)
  ∧ (∀ w, w ∈ extract_workflow_links urljoin page category_name →
          nodes w ≠ 0%N ∧ has_price w = false ∧ is_free w = true)
  ∧ (∀ workflows element workflow_data,
        workflow_record urljoin category_name workflows element
        = Ret (Some workflow_data) →
        process_element urljoin category_name workflows element
        = (if bool_decide (workflow_data ∈ workflows) then workflows
           else if bool_decide ((MIN_NODES ≤ nodes workflow_data)%N
                                ∧ has_price workflow_data = false
                                ∧ is_free workflow_data = true)
                then workflows ++ [workflow_data]
                else workflows))
  ∧ (∀ workflows element workflow_data,
        workflow_record urljoin category_name workflows element
        = Ret (Some workflow_data) →
        count_nodes element = Ret (nodes workflow_data)
        ∧ detect_price element price_selectors
          = Ret (has_price workflow_data)
        ∧ detect_free element free_selectors = Ret (is_free workflow_data)
        ∧ (has_price workflow_data = true
           ↔ ∃ selector, selector ∈ price_selectors
                         ∧ price_marker element selector)
        ∧ (is_free workflow_data = true
           ↔ ∃ selector, selector ∈ free_selectors
                         ∧ free_label element selector))
  ∧ (∀ workflows element workflow_data,
        workflow_record urljoin category_name workflows element
        = Ret (Some workflow_data) →
        (∀ selector, selector ∈ price_selectors →
                     ¬ price_marker element selector) →
        (∀ selector, selector ∈ free_selectors →
                     ¬ free_label element selector) →
        has_price workflow_data = false
        ∧ is_free workflow_data = false
        ∧ workflow_data
          ∉ extract_workflow_links urljoin page category_name).
Proof.
  assert (Hall : Forall acceptable
                   (extract_workflow_links urljoin page category_name)).
  { rewrite extract_foldl. by apply foldl_step_acceptable. }
  rewrite Forall_forall in Hall.
  assert (Hflags : ∀ ws e w,
            record ws e = Ret (Some w) →
            (has_price w = true
             ↔ ∃ selector, selector ∈ price_selectors
                           ∧ price_marker e selector)
            ∧ (is_free w = true
               ↔ ∃ selector, selector ∈ free_selectors
                             ∧ free_label e selector)).
  { intros ws e w Hrec.
    destruct (workflow_record_fields _ _ _ Hrec) as (_ & Hp & Hf).
    split; [by apply detect_price_spec|by apply detect_free_spec]. }
  split_and!.
  - intros before element after w Hent Hrec. split; [apply Hall|].
    intros Hacc. rewrite extract_foldl, Hent, foldl_app. simpl.
    eapply elem_of_prefix; [|apply foldl_step_prefix].
    by apply step_emits.
  - intros w Hw. destruct (Hall w Hw) as (Hn & Hp & Hf).
    unfold MIN_NODES in Hn. split_and!; [lia|done|done].
  - intros ws e w Hrec. unfold process_element. rewrite Hrec.
    pose proof (accepts_spec ws w) as Hspec. unfold acceptable in Hspec.
    destruct (accepts ws w).
    + destruct (proj1 Hspec eq_refl) as [Hacc Hnin].
      by rewrite bool_decide_eq_false_2, bool_decide_eq_true_2.
    + case_bool_decide as Hin; [done|].
      case_bool_decide as Hacc; [|done].
      by pose proof (proj2 Hspec (conj Hacc Hin)).
  - intros ws e w Hrec.
    destruct (workflow_record_fields _ _ _ Hrec) as (Hn & Hp & Hf).
    destruct (Hflags _ _ _ Hrec) as [Hpm Hfl]. by split_and!.
  - intros ws e w Hrec Hnp Hnf.
    destruct (Hflags _ _ _ Hrec) as [Hpm Hfl].
    assert (Hp : has_price w = false).
    { destruct (has_price w); [|done].
      destruct (proj1 Hpm eq_refl) as (sel & Hin & Hm).
      by destruct (Hnp sel Hin). }
    assert (Hf : is_free w = false).
    { destruct (is_free w); [|done].
      destruct (proj1 Hfl eq_refl) as (sel & Hin & Hm).
      by destruct (Hnf sel Hin). }
    split_and!; [done|done|].
    intros Hw. destruct (Hall w Hw) as (_ & _ & Hfree). congruence.
Qed.

(** C7 (as amended): the returned items are pairwise different
    records, and they stand in encounter order: what the extractor
    has collected after any initial part of the entries is an initial
    part of what it returns. *)
Theorem C7_distinct_records_in_order (page : Page) :
  NoDup (extract_workflow_links urljoin page category_name)
  ∧ (∀ before after,
        entries page = before ++ after →
        foldl (process_element urljoin category_name) [] before
          `prefix_of` extract_workflow_links urljoin page category_name).
Proof.
  split.
  - rewrite extract_foldl. apply foldl_step_NoDup, NoDup_nil_2.
  - intros before after Hent.
    rewrite extract_foldl, Hent, foldl_app. apply foldl_step_prefix.
Qed.

End ExtractorFacts.


(** ** The node count *)

Lemma structural_count_eq
    nl visible_node_elements plus_elements plus_indicator :
  query_selector_all nl visible_node_selector = Ret visible_node_elements →
  query_selector_all nl plus_selector = Ret plus_elements →
  find_plus_indicator plus_elements = Ret plus_indicator →
  structural_count nl
  = Ret (N.of_nat (length visible_node_elements) + plus_indicator)%N.
Proof.
  intros Hv Hp Hi. unfold structural_count. rewrite Hv. simpl.
  rewrite Hp. simpl. rewrite Hi. done.
Qed.

(** The fallback tiers run only on a zero count. *)
Lemma count_nodes_of_tier1 element nl tier1 :
  query_selector element "ul" = Ret (Some nl) →
  structural_count nl = Ret tier1 →
  count_nodes element
  = if (tier1 =? 0)%N
    then element_text ← inner_text element;
         let tier2 := overflow_only_count element_text in
         if (tier2 =? 0)%N
         then Ret (text_pattern_count node_text_patterns
                     (Text.lower element_text))
         else Ret tier2
    else Ret tier1.
Proof.
  intros Hul Hs. unfold count_nodes. rewrite Hul. simpl. rewrite Hs. simpl.
  destruct (tier1 =? 0)%N eqn:Hz; simpl.
  - destruct (inner_text element) as [text|]; simpl; [|done].
    destruct (overflow_only_count text =? 0)%N eqn:Hz2; simpl; [|done].
    done.
  - by rewrite Hz.
Qed.

(** C3 (as amended): with a node list, tier 1 yields the visible
    count plus the overflow indicator of the list; the computed node
    count is that value whenever it is not zero and is never below it;
    and the value is at least what tier 2 alone yields whenever the
    first [+N] of the entry's text is the indicator tier 1 read, or
    the text has none. *)
Theorem C3_structural_count_dominates
    element nl visible_node_elements plus_elements plus_indicator :
  query_selector element "ul" = Ret (Some nl) →
  query_selector_all nl visible_node_selector = Ret visible_node_elements →
  query_selector_all nl plus_selector = Ret plus_elements →
  find_plus_indicator plus_elements = Ret plus_indicator →
  let tier1 := (N.of_nat (length visible_node_elements) + plus_indicator)%N in
  structural_count nl = Ret tier1
  ∧ (tier1 ≠ 0%N → count_nodes element = Ret tier1)
  ∧ (∀ n, count_nodes element = Ret n → (tier1 ≤ n)%N)
  ∧ (∀ text, inner_text element = Ret text →
       overflow_only_count text = plus_indicator
       ∨ overflow_only_count text = 0%N →
       (overflow_only_count text ≤ tier1)%N).
Proof.
  intros Hul Hv Hp Hi tier1.
  pose proof (structural_count_eq _ _ _ _ Hv Hp Hi) as Hs. fold tier1 in Hs.
  pose proof (count_nodes_of_tier1 _ _ _ Hul Hs) as Hc.
  split_and!.
  - done.
  - intros Hnz. rewrite Hc. by apply N.eqb_neq in Hnz as ->.
  - intros n. rewrite Hc. destruct (tier1 =? 0)%N eqn:Hz.
    + apply N.eqb_eq in Hz. lia.
    + intros [= <-]. lia.
  - intros text _ [Heq|Heq]; rewrite Heq; unfold tier1; lia.
Qed.

(** ** The disk *)

Lemma file_exists_true dir name d :
  file_exists dir name d = true
  ↔ ∃ files text, d !! dir = Some files ∧ files !! name = Some text.
Proof.
  unfold file_exists. rewrite bool_decide_eq_true. split.
  - intros [text Ht]. destruct (d !! dir) as [files|] eqn:Hd; [|done].
    by exists files, text.
  - intros (files & text & -> & Ht). by exists text.
Qed.

Lemma file_exists_mkdir dir name dir' d :
  file_exists dir name (mkdir_exist_ok dir' d) = file_exists dir name d.
Proof.
  unfold mkdir_exist_ok. destruct (d !! dir') eqn:Hd; [done|].
  unfold file_exists. destruct (decide (dir' = dir)) as [->|Hne].
  - by rewrite lookup_insert_eq, Hd.
  - by rewrite lookup_insert_ne.
Qed.

Lemma mkdir_exist_ok_id dir name d :
  file_exists dir name d = true → mkdir_exist_ok dir d = d.
Proof.
  intros (files & text & Hd & _)%file_exists_true.
  unfold mkdir_exist_ok. by rewrite Hd.
Qed.

Lemma file_exists_write_same dir name text d :
  file_exists dir name (write_file dir name text d) = true.
Proof.
  apply file_exists_true. unfold write_file.
  eexists _, text. by rewrite !lookup_insert_eq.
Qed.

Lemma file_exists_write_mono dir name dir' name' text d :
  file_exists dir name d = true →
  file_exists dir name (write_file dir' name' text d) = true.
Proof.
  intros (files & t & Hd & Hf)%file_exists_true.
  apply file_exists_true. unfold write_file.
  destruct (decide (dir' = dir)) as [->|Hne].
  - rewrite lookup_insert_eq, Hd. simpl.
    destruct (decide (name' = name)) as [->|Hn].
    + eexists _, text. by rewrite lookup_insert_eq.
    + eexists _, t. by rewrite lookup_insert_ne.
  - exists files, t. by rewrite lookup_insert_ne.
Qed.

Lemma set_download_dir_id self :
  set_download_dir (download_dir self) self = self.
Proof. by destruct self. Qed.

(** ** The Download Orchestrator *)

Section DownloaderFacts.

Variable JSON : Type.
Variable json_loads : string → Raises JSON.
Variable json_dump : JSON → string.

Local Abbreviation download :=
  (download_workflow_via_clipboard JSON json_loads json_dump).
Local Abbreviation download_all :=
  (download_items JSON json_loads json_dump).
Local Abbreviation download_batch :=
  (download_batch_immediately JSON json_loads json_dump).
Local Abbreviation download_one := (download_one JSON json_loads json_dump).

(** With the target file in place the two calls in front of the
    [try] return. *)
Lemma download_existing self page w :
  on_disk self w = true → download self page w = (Ret true, self).
Proof.
  intros He. unfold on_disk in He.
  unfold download_workflow_via_clipboard, mkdir_call, exists_call.
  rewrite (mkdir_exist_ok_id _ _ _ He), set_download_dir_id.
  destruct (proj1 (file_exists_true _ _ _) He) as (files & t & -> & _).
  by rewrite He.
Qed.

(** The ways a call for a missing file can go: it raises in front of
    the [try], with or without the directory made, or it goes through
    the protocol and returns. *)
Lemma download_missing self page w :
  on_disk self w = false →
  let made := mkdir_exist_ok (category w) (download_dir self) in
  ((download self page w).1 = Raise
   ∧ ((download self page w).2 = self
      ∨ (download self page w).2 = set_download_dir made self))
  ∨ ∃ ok d',
      download self page w
      = (Ret ok,
         mkScraper d' (global_stats self) (category_stats self)
           (goto_log self ++ [url w]))
      ∧ (d' = write_file (category w) (file_name w)
                (match fetch_workflow_data JSON json_loads page with
                 | Ret (Some v) =>
                     match disk page with
                     | DumpRaises n => String.substring 0 n (json_dump v)
                     | _ => json_dump v
                     end
                 | _ => EmptyString
                 end) made
         ∨ (ok = false ∧ d' = made)).
Proof.
  intros He. unfold on_disk in He. cbv zeta.
  unfold download_workflow_via_clipboard, exists_call.
  destruct (mkdir_call page _ _); [|left; by eauto].
  cbn [download_dir set_download_dir]. rewrite file_exists_mkdir, He.
  destruct (path_exists page); cbn [mbind Raises_bind]; [|left; by eauto].
  right. cbn [log_goto download_dir global_stats category_stats goto_log
              set_download_dir].
  destruct (fetch_workflow_data _ _ page) as [[v|]|];
    [|by eexists _, _; eauto..].
  destruct (disk page); eexists _, _; by eauto.
Qed.

Lemma download_goto_log self page w :
  goto_log (download self page w).2 = goto_log self
  ∨ (on_disk self w = false
     ∧ goto_log (download self page w).2 = goto_log self ++ [url w]).
Proof.
  destruct (on_disk self w) eqn:He.
  { left. by rewrite download_existing. }
  destruct (download_missing self page w He)
    as [[_ [->| ->]]|(ok & d' & -> & _)]; auto.
Qed.

Lemma download_keeps_files self page w dir name :
  file_exists dir name (download_dir self) = true →
  file_exists dir name (download_dir (download self page w).2) = true.
Proof.
  intros Hf. destruct (on_disk self w) eqn:He.
  { by rewrite download_existing. }
  destruct (download_missing self page w He)
    as [[_ [->| ->]]|(ok & d' & -> & [->|[_ ->]])]; cbn; try done.
  - by rewrite file_exists_mkdir.
  - by apply file_exists_write_mono; rewrite file_exists_mkdir.
  - by rewrite file_exists_mkdir.
Qed.

Lemma download_success_on_disk self page w :
  (download self page w).1 = Ret true →
  on_disk (download self page w).2 w = true.
Proof.
  destruct (on_disk self w) eqn:He.
  { by rewrite download_existing. }
  destruct (download_missing self page w He)
    as [[-> _]|(ok & d' & -> & [->|[-> _]])]; cbn; try done.
  intros _. apply file_exists_write_same.
Qed.

Lemma count_success_dir c self :
  download_dir (count_success c self) = download_dir self
  ∧ goto_log (count_success c self) = goto_log self.
Proof. done. Qed.

Lemma count_error_dir c self :
  download_dir (count_error c self) = download_dir self
  ∧ goto_log (count_error c self) = goto_log self.
Proof. done. Qed.

Lemma tabs_lookup (context : nat → Tab) bs i :
  0 < bs → (context <$> seq 0 bs) !! (i mod bs) = Some (context (i mod bs)).
Proof.
  intros Hbs. rewrite list_lookup_fmap, lookup_seq_lt; [done|].
  by apply Nat.mod_upper_bound, Nat.neq_0_lt_0.
Qed.

(** One turn of the item loop: a call that raises ends the loop. *)
Lemma download_all_cons self (context : nat → Tab) bs c i w ws :
  0 < bs →
  download_all self (context <$> seq 0 bs) bs c i (w :: ws)
  = let self1 := download_one self (context (i mod bs) i) c w in
    match (download self (context (i mod bs) i) w).1 with
    | Ret ok =>
        let rest :=
          download_all self1 (context <$> seq 0 bs) bs c (S i) ws in
        (rest.1.1, mkAttempt (i mod bs) w (Ret ok) :: rest.1.2, rest.2)
    | Raise => (self1, [mkAttempt (i mod bs) w Raise], Raise)
    end.
Proof.
  intros Hbs. cbn [download_items]. rewrite (tabs_lookup _ _ _ Hbs).
  unfold download_one.
  destruct (download self (context (i mod bs) i) w) as [[ok|] s1];
    cbn [fst snd]; [|done].
  destruct ok;
    by destruct (download_all _ (context <$> seq 0 bs) bs c (S i) ws)
      as [[? ?] ?].
Qed.

Lemma download_one_dir self page c w :
  download_dir (download_one self page c w)
  = download_dir (download self page w).2
  ∧ goto_log (download_one self page c w) = goto_log (download self page w).2.
Proof. unfold download_one. by destruct (download self page w).1 as [[]|]. Qed.

(** What every turn of the item loop keeps, the loop keeps. *)
Lemma download_all_invariant (P : Scraper → Prop) ws self
    (context : nat → Tab) bs c i :
  0 < bs →
  (∀ self page w, w ∈ ws → P self → P (download_one self page c w)) →
  P self →
  P (download_all self (context <$> seq 0 bs) bs c i ws).1.1.
Proof.
  intros Hbs. revert self i.
  induction ws as [|w ws IH]; intros self i Hstep HP; [done|].
  rewrite (download_all_cons _ _ _ _ _ _ _ Hbs). cbv zeta.
  assert (H1 : P (download_one self (context (i mod bs) i) c w))
    by (apply Hstep; [by left|done]).
  destruct (download self (context (i mod bs) i) w).1; cbn [fst]; [|done].
  apply IH; [|done]. intros ? ? ? ?. apply Hstep. by right.
Qed.

(** The calls of the loop: made in input order, item [i] on tab
    [i mod batch_size], up to the first call that raises; the loop
    returns exactly when no call raised, and then every item was
    attempted. *)
Lemma download_all_attempts ws self (context : nat → Tab) bs c i :
  0 < bs →
  let run := download_all self (context <$> seq 0 bs) bs c i ws in
  item <$> run.1.2 = take (length run.1.2) ws
  ∧ tab_index <$> run.1.2 = (λ k, k mod bs) <$> seq i (length run.1.2)
  ∧ (run.2 = Ret () ↔ Forall (λ a, outcome a ≠ Raise) run.1.2)
  ∧ (run.2 = Ret () → item <$> run.1.2 = ws).
Proof.
  intros Hbs. cbv zeta. revert self i.
  induction ws as [|w ws IH]; intros self i.
  { by cbn. }
  rewrite (download_all_cons _ _ _ _ _ _ _ Hbs). cbv zeta.
  destruct (download self (context (i mod bs) i) w).1 as [ok|].
  - destruct (IH (download_one self (context (i mod bs) i) c w) (S i))
      as (Hi & Ht & Hr & Hall).
    cbn [fst snd length seq take]. rewrite !fmap_cons. cbn [item tab_index].
    rewrite <- Hi, <- Ht. split_and!; [done|done| |].
    + rewrite Hr, Forall_cons. cbn [outcome]. split; [by intros ?|by intros [_ ?]].
    + intros Hret. by rewrite (Hall Hret).
  - cbn. split_and!; [done|done| |done].
    split; [done|]. intros [Hne _]%Forall_cons. by destruct Hne.
Qed.

Lemma download_all_keeps_files ws self (context : nat → Tab) bs c i dir name :
  0 < bs →
  file_exists dir name (download_dir self) = true →
  file_exists dir name
    (download_dir (download_all self (context <$> seq 0 bs) bs c i ws).1.1)
  = true.
Proof.
  intros Hbs.
  apply (download_all_invariant
           (λ s, file_exists dir name (download_dir s) = true)); [done|].
  intros s page w _ Hs.
  destruct (download_one_dir s page c w) as [-> _].
  by apply download_keeps_files.
Qed.

(** The navigations of a batch go to items whose file was missing
    when the batch began. *)
Lemma download_all_goto_log ws self (context : nat → Tab) bs c i :
  0 < bs →
  ∃ fetched,
    goto_log (download_all self (context <$> seq 0 bs) bs c i ws).1.1
    = goto_log self ++ (url <$> fetched)
    ∧ ∀ w, w ∈ fetched → w ∈ ws ∧ on_disk self w = false.
Proof.
  intros Hbs. revert self i. induction ws as [|w ws IH]; intros self i.
  { exists []. simpl. rewrite app_nil_r. split; [done|].
    by intros w ?%elem_of_nil. }
  rewrite (download_all_cons _ _ _ _ _ _ _ Hbs). cbv zeta.
  set (self1 := download_one self (context (i mod bs) i) c w).
  destruct (download_one_dir self (context (i mod bs) i) c w) as [Hd Hg].
  fold self1 in Hd, Hg.
  assert (Hone : ∃ fetched1,
            goto_log self1 = goto_log self ++ (url <$> fetched1)
            ∧ ∀ x, x ∈ fetched1 → x = w ∧ on_disk self x = false).
  { rewrite Hg.
    destruct (download_goto_log self (context (i mod bs) i) w)
      as [->|[Hno ->]].
    - exists []. rewrite app_nil_r. split; [done|]. by intros x ?%elem_of_nil.
    - exists [w]. split; [done|]. by intros x ->%list_elem_of_singleton. }
  destruct Hone as (fetched1 & Hlog1 & Hf1).
  destruct (download self (context (i mod bs) i) w).1 as [ok|]; cbn [fst].
  - destruct (IH self1 (S i)) as (fetched & Hlog & Hf).
    exists (fetched1 ++ fetched).
    rewrite Hlog, Hlog1, fmap_app, app_assoc. split; [done|].
    intros x [Hx|Hx]%elem_of_app.
    + destruct (Hf1 x Hx) as [-> ?]. split; [by left|done].
    + destruct (Hf x Hx) as [Hin Hno]. split; [by right|].
      destruct (on_disk self x) eqn:Hon; [|done].
      unfold on_disk in Hno, Hon. rewrite Hd in Hno.
      by rewrite (download_keeps_files _ _ _ _ _ Hon) in Hno.
  - exists fetched1. split; [done|].
    intros x Hx. destruct (Hf1 x Hx) as [-> ?]. split; [by left|done].
Qed.

(** A successful attempt leaves the file of its item on the disk. *)
Lemma download_all_success_on_disk ws self (context : nat → Tab) bs c i a :
  0 < bs →
  a ∈ (download_all self (context <$> seq 0 bs) bs c i ws).1.2 →
  outcome a = Ret true →
  on_disk (download_all self (context <$> seq 0 bs) bs c i ws).1.1 (item a)
  = true.
Proof.
  intros Hbs. revert self i. induction ws as [|w ws IH]; intros self i.
  { by intros ?%elem_of_nil. }
  rewrite (download_all_cons _ _ _ _ _ _ _ Hbs). cbv zeta.
  destruct (download self (context (i mod bs) i) w).1 as [ok|] eqn:Hdl;
    cbn [fst snd].
  - intros [->|Hin]%elem_of_cons Hok; [|by apply IH].
    cbn [item outcome] in *. injection Hok as ->. unfold on_disk.
    apply download_all_keeps_files; [done|].
    destruct (download_one_dir self (context (i mod bs) i) c w) as [-> _].
    by apply download_success_on_disk.
  - by intros ->%list_elem_of_singleton.
Qed.

(** With every file present, a batch changes neither disk nor log,
    and every call returns success. *)
Lemma download_all_present ws self (context : nat → Tab) bs c i :
  0 < bs →
  Forall (λ w, on_disk self w = true) ws →
  download_dir (download_all self (context <$> seq 0 bs) bs c i ws).1.1
  = download_dir self
  ∧ goto_log (download_all self (context <$> seq 0 bs) bs c i ws).1.1
    = goto_log self
  ∧ Forall (λ a, outcome a = Ret true)
      (download_all self (context <$> seq 0 bs) bs c i ws).1.2.
Proof.
  intros Hbs. revert self i.
  induction ws as [|w ws IH]; intros self i Hall; [done|].
  apply Forall_cons in Hall as [Hw Hall].
  rewrite (download_all_cons _ _ _ _ _ _ _ Hbs). cbv zeta.
  assert (Hone : download_one self (context (i mod bs) i) c w
                 = count_success c self).
  { unfold download_one. by rewrite (download_existing _ _ _ Hw). }
  rewrite Hone, (download_existing _ _ _ Hw). cbn [fst snd].
  destruct (IH (count_success c self) (S i)) as (Hd & Hg & Hs); [done|].
  rewrite Hd, Hg. split_and!; [done|done|]. by apply Forall_cons.
Qed.

Lemma batch_size_pos (ws : list Workflow) : ws ≠ [] → 0 < min 3 (length ws).
Proof. destruct ws; [done|]. simpl. lia. Qed.

Lemma download_batch_unfold self (context : nat → Tab) ws c :
  ws ≠ [] →
  let bs := min 3 (length ws) in
  let run := download_all self (context <$> seq 0 bs) bs c 0 ws in
  download_batch self context ws c
  = (run.1.1, mkBatchReport bs run.1.2 bs run.2).
Proof.
  intros Hne. cbv zeta. unfold download_batch_immediately.
  destruct ws as [|w ws]; [done|].
  rewrite length_fmap, length_seq.
  by destruct (download_all self _ _ c 0 (w :: ws)) as [[? ?] ?].
Qed.

(** The calls of a batch: [min 3 n] tabs are opened and closed; the
    calls are made in input order, item [i] on tab [i mod min 3 n], up
    to the first that raises; the batch returns exactly when no call
    raised, having then attempted every item. *)
Lemma download_batch_attempts self (context : nat → Tab) ws c :
  ws ≠ [] →
  let report := (download_batch self context ws c).2 in
  tabs_opened report = min 3 (length ws)
  ∧ tabs_closed report = tabs_opened report
  ∧ item <$> attempts report = take (length (attempts report)) ws
  ∧ tab_index <$> attempts report
    = (λ k, k mod min 3 (length ws)) <$> seq 0 (length (attempts report))
  ∧ (returned report = Ret ()
     ↔ Forall (λ a, outcome a ≠ Raise) (attempts report))
  ∧ (returned report = Ret () → item <$> attempts report = ws).
Proof.
  intros Hne. cbv zeta. rewrite (download_batch_unfold _ _ _ _ Hne).
  cbn [snd tabs_opened tabs_closed attempts returned].
  destruct (download_all_attempts ws self context (min 3 (length ws)) c 0
              (batch_size_pos ws Hne)) as (? & ? & ? & ?).
  by split_and!.
Qed.

(** A call whose [mkdir] and [exists] return, returns; so does a
    batch of such calls. *)
Lemma download_returns self page w :
  paths_ok page → (download self page w).1 ≠ Raise.
Proof.
  intros [Hm He].
  unfold download_workflow_via_clipboard, mkdir_call, exists_call.
  rewrite Hm, He.
  destruct (download_dir self !! category w); cbn [mbind Raises_bind];
    repeat case_match; done.
Qed.

Lemma download_all_returns ws self (context : nat → Tab) bs c i :
  0 < bs →
  (∀ k i, paths_ok (context k i)) →
  (download_all self (context <$> seq 0 bs) bs c i ws).2 = Ret ().
Proof.
  intros Hbs Hok. revert self i.
  induction ws as [|w ws IH]; intros self i; [done|].
  rewrite (download_all_cons _ _ _ _ _ _ _ Hbs). cbv zeta.
  pose proof (download_returns self (context (i mod bs) i) w
                (Hok (i mod bs) i)) as Hne.
  destruct (download self (context (i mod bs) i) w).1; [|done].
  cbn [snd]. apply IH.
Qed.

Lemma download_batch_returns self (context : nat → Tab) ws c :
  (∀ k i, paths_ok (context k i)) →
  returned (download_batch self context ws c).2 = Ret ().
Proof.
  intros Hok. destruct (decide (ws = [])) as [->|Hne]; [done|].
  rewrite (download_batch_unfold _ _ _ _ Hne). cbn [snd returned].
  by apply download_all_returns; [apply batch_size_pos|].
Qed.

Lemma fetch_workflow_data_parsed page v :
  fetch_workflow_data JSON json_loads page = Ret (Some v) →
  ∃ text, clipboard page = Ret (Some text) ∧ json_loads text = Ret v.
Proof.
  unfold fetch_workflow_data.
  destruct (goto page) as [location|]; cbn [mbind Raises_bind]; [|done].
  destruct (negb (Text.str_in "n8n.io" location)); [done|].
  destruct (use_button page) as [use|]; cbn [mbind Raises_bind]; [|done].
  destruct (found_and_visible use) as [[]|]; cbn [mbind Raises_bind];
    try done.
  destruct (click_found use); cbn [mbind Raises_bind]; [|done].
  destruct (click_copy page copy_selectors) as [[]|];
    cbn [mbind Raises_bind]; try done.
  destruct (clipboard page) as [[text|]|]; cbn [mbind Raises_bind]; try done.
  destruct (String.eqb text EmptyString); [done|].
  destruct (json_loads text) as [v'|] eqn:Hv; cbn [mbind Raises_bind];
    [|done].
  intros [= ->]. by exists text.
Qed.

(** C2: a call for an item whose target file exists returns success
    and leaves the scraper as it was, the navigation log included;
    the navigations of any batch go only to items whose file was
    missing when the batch began; so after a first batch in which
    every item succeeded, a second batch over the same items
    navigates nowhere and leaves the disk as it is. *)
Theorem C2_existing_file_short_circuit :
  (∀ self page workflow,
      file_exists (category workflow) (file_name workflow)
                  (download_dir self) = true →
      download_workflow_via_clipboard JSON json_loads json_dump self page
        workflow
      = (Ret true, self))
  ∧ (∀ self tabs workflows c,
        ∃ fetched,
          goto_log (download_batch_immediately JSON json_loads json_dump self
                      tabs workflows c).1
          = goto_log self ++ (url <$> fetched)
          ∧ ∀ w, w ∈ fetched →
                 w ∈ workflows
                 ∧ file_exists (category w) (file_name w)
                               (download_dir self) = false)
  ∧ (∀ self tabs1 tabs2 workflows c,
        let first :=
          download_batch_immediately JSON json_loads json_dump self tabs1
            workflows c in
        Forall (λ a, outcome a = Ret true) (attempts first.2) →
        let second :=
          download_batch_immediately JSON json_loads json_dump first.1 tabs2
            workflows c in
        goto_log second.1 = goto_log first.1
        ∧ download_dir second.1 = download_dir first.1
        ∧ Forall (λ a, outcome a = Ret true) (attempts second.2)).
Proof.
  split_and!.
  - intros self page w He. by apply download_existing.
  - intros self tabs ws c. destruct (decide (ws = [])) as [->|Hne].
    { exists []. simpl. rewrite app_nil_r. split; [done|].
      by intros w ?%elem_of_nil. }
    rewrite (download_batch_unfold _ _ _ _ Hne). cbn [fst].
    by apply download_all_goto_log, batch_size_pos.
  - intros self tabs1 tabs2 ws c. destruct (decide (ws = [])) as [->|Hne].
    { done. }
    pose proof (batch_size_pos ws Hne) as Hbs.
    cbv zeta. rewrite (download_batch_unfold _ _ _ _ Hne).
    cbn [fst snd attempts]. set (bs := min 3 (length ws)) in *. intros Hok.
    rewrite (download_batch_unfold _ _ _ _ Hne).
    cbn [fst snd attempts]. fold bs.
    set (first := download_all self (tabs1 <$> seq 0 bs) bs c 0 ws) in *.
    cut (Forall (λ w, on_disk first.1.1 w = true) ws).
    { intros Hall.
      by destruct (download_all_present _ _ tabs2 bs c 0 Hbs Hall)
        as (? & ? & ?). }
    apply Forall_forall. intros w Hw.
    destruct (download_all_attempts ws self tabs1 bs c 0 Hbs)
      as (_ & _ & Hret & Hitems).
    fold first in Hret, Hitems.
    assert (Hr : first.2 = Ret ()).
    { apply Hret. eapply Forall_impl; [exact Hok|].
      intros a Ha. by rewrite Ha. }
    rewrite <- (Hitems Hr) in Hw.
    apply list_elem_of_fmap in Hw as (a & -> & Ha).
    apply download_all_success_on_disk; [done|done|].
    rewrite Forall_forall in Hok. by apply Hok.
Qed.

(** C10 (as amended): for an item whose target file is missing, a
    call that fails without a write raising part-way leaves every file
    as it was, the only effect on the disk being that the category
    directory exists afterwards; the disk of a call that returns
    differs from that only if the clipboard text parsed as JSON; on
    success the file holds exactly the serialization of the parsed
    value; and a call that raises, in front of the [try], has at most
    made the directory. *)
Theorem C10_failure_writes_no_file self page workflow :
  file_exists (category workflow) (file_name workflow) (download_dir self)
  = false →
  let result :=
    download_workflow_via_clipboard JSON json_loads json_dump self page
      workflow in
  let made := mkdir_exist_ok (category workflow) (download_dir self) in
  (result.1 = Ret false → (∀ n, disk page ≠ DumpRaises n) →
   download_dir result.2 = made)
  ∧ (result.1 ≠ Raise → download_dir result.2 ≠ made →
     ∃ text workflow_data,
       clipboard page = Ret (Some text) ∧ json_loads text = Ret workflow_data)
  ∧ (result.1 = Ret true →
     ∃ text workflow_data,
       clipboard page = Ret (Some text)
       ∧ json_loads text = Ret workflow_data
       ∧ download_dir result.2
         = write_file (category workflow) (file_name workflow)
                      (json_dump workflow_data) made)
  ∧ (result.1 = Raise →
     download_dir result.2 = download_dir self
     ∨ download_dir result.2 = made).
Proof.
  intros Hno. cbv zeta.
  unfold download_workflow_via_clipboard, exists_call.
  destruct (mkdir_call page _ _); [|split_and!; by auto].
  cbn [download_dir set_download_dir]. rewrite file_exists_mkdir, Hno.
  destruct (path_exists page); cbn [mbind Raises_bind];
    [|split_and!; by auto].
  cbn [log_goto download_dir set_download_dir].
  destruct (fetch_workflow_data JSON json_loads page) as [[v|]|] eqn:Hf;
    cbn [fst snd download_dir]; try (split_and!; done).
  apply fetch_workflow_data_parsed in Hf as (text & Hc & Hl).
  destruct (disk page) as [| |n] eqn:Hd; cbn [fst snd download_dir].
  - split_and!; [done| | |done]; intros; by exists text, v.
  - split_and!; done.
  - split_and!; [|intros; by exists text, v|done|done].
    intros _ Hn. by destruct (Hn n).
Qed.

End DownloaderFacts.

(** ** The Pagination Driver *)

Section DriverFacts.

Variable urljoin : string → string → string.
Variable JSON : Type.
Variable json_loads : string → Raises JSON.
Variable json_dump : JSON → string.
Variable site : Listing.
Variable category_name : string.

Local Abbreviation flush' :=
  (flush JSON json_loads json_dump site category_name).
Local Abbreviation flush_rest' :=
  (flush_rest JSON json_loads json_dump site category_name).
Local Abbreviation collect_new' := (collect_new category_name).
Local Abbreviation accept_new' := (accept_new category_name).
Local Abbreviation loop_iteration' :=
  (loop_iteration urljoin JSON json_loads json_dump site category_name).
Local Abbreviation run_loop' :=
  (run_loop urljoin JSON json_loads json_dump site category_name).
Local Abbreviation scrape' :=
  (scrape_category_workflows urljoin JSON json_loads json_dump site
     category_name).
Local Abbreviation step' :=
  (traversal_step JSON json_loads json_dump site category_name).
Local Abbreviation start' := (start category_name).

(** A flush hands the buffer over; the buffer is cleared when the
    batch returns and kept when it raises. *)
Lemma flush_fields t :
  all_workflows (flush' t).1 = all_workflows t
  ∧ processed_slugs (flush' t).1 = processed_slugs t
  ∧ pages_loaded (flush' t).1 = pages_loaded t
  ∧ batches (flush' t).1 = batches t ++ [pending_downloads t]
  ∧ pending_downloads (flush' t).1
    = match (flush' t).2 with
      | Ret _ => []
      | Raise => pending_downloads t
      end.
Proof.
  unfold flush.
  destruct (download_batch_immediately _ _ _ _ _ _ _) as [s report].
  by destruct (returned report).
Qed.

Lemma flush_returned t :
  (flush' t).2
  = returned
      (download_batch_immediately JSON json_loads json_dump (self t)
         (batch_tabs site (length (batches t))) (pending_downloads t)
         category_name).2.
Proof.
  unfold flush.
  destruct (download_batch_immediately _ _ _ _ _ _ _) as [s report].
  cbn [snd]. by destruct (returned report) as [[]|].
Qed.

Lemma flush_rest_fields t :
  all_workflows (flush_rest' t) = all_workflows t
  ∧ processed_slugs (flush_rest' t) = processed_slugs t
  ∧ pages_loaded (flush_rest' t) = pages_loaded t
  ∧ pending_downloads (flush_rest' t) = pending_downloads t
  ∧ batches (flush_rest' t)
    = batches t ++ (if decide (pending_downloads t = []) then []
                    else [pending_downloads t]).
Proof.
  unfold flush_rest.
  destruct (pending_downloads t) as [|w ws] eqn:Hp.
  { rewrite Hp, app_nil_r. done. }
  destruct (download_batch_immediately _ _ _ _ _ _ _).
  cbn [all_workflows processed_slugs pages_loaded pending_downloads batches].
  done.
Qed.

(** A turn of the loop, with the state after the flush named. *)
Lemma loop_iteration_eq t :
  loop_iteration' t
  = let t1 := mkTraversal (self t) (all_workflows t) (processed_slugs t)
                (S (pages_loaded t)) (pending_downloads t) (batches t) in
    let page := view site (pages_loaded t1 - 1) in
    let t2 := collect_new'
                (extract_workflow_links urljoin page category_name) t1 in
    if MAX_WORKFLOWS_PER_SUBCATEGORY <=? length (all_workflows t2)
    then (t2, Break)
    else
      let full := DOWNLOAD_BATCH_SIZE <=? length (pending_downloads t2) in
      let t3 := if full then (flush' t2).1 else t2 in
      if full && bool_decide ((flush' t2).2 = Raise) then (t3, Abort)
      else if negb (load_more_pages page) then (t3, Break)
      else if 30 <? pages_loaded t3 then (t3, Break)
      else (t3, Continue).
Proof.
  unfold loop_iteration. cbv zeta.
  case_match; [done|].
  destruct (DOWNLOAD_BATCH_SIZE <=? _); cbn [andb]; [|done].
  destruct (flush' _) as [t3 [[]|]]; cbn [fst snd].
  - by rewrite bool_decide_eq_false_2.
  - by rewrite bool_decide_eq_true_2.
Qed.

(** The inner loop only takes guarded accept steps. *)
Lemma collect_new_steps ws t : rtc step' t (collect_new' ws t).
Proof.
  revert t. induction ws as [|w ws IH]; intros t; simpl; [done|].
  destruct (bool_decide (slug w ∉ processed_slugs t)) eqn:Hs; simpl;
    [|apply IH].
  destruct (length (all_workflows t) <? MAX_WORKFLOWS_PER_SUBCATEGORY)
    eqn:Hl; [|apply IH].
  apply bool_decide_eq_true in Hs. apply Nat.ltb_lt in Hl.
  assert (Hstep : step' t (accept_new' w t)) by (by constructor).
  case_match.
  - by apply rtc_once.
  - eapply rtc_l; [exact Hstep | apply IH].
Qed.

Lemma collect_new_pages_loaded ws t :
  pages_loaded (collect_new' ws t) = pages_loaded t.
Proof.
  revert t. induction ws as [|w ws IH]; intros t; simpl; [done|].
  case_match; [|apply IH].
  case_match; [done|]. by rewrite IH.
Qed.

Lemma loop_iteration_steps t : rtc step' t (loop_iteration' t).1.
Proof.
  rewrite loop_iteration_eq. cbv zeta.
  set (t1 := mkTraversal _ _ _ (S (pages_loaded t)) _ _).
  assert (H1 : step' t t1) by constructor.
  set (t2 := collect_new' _ t1).
  assert (H2 : rtc step' t t2).
  { eapply rtc_l; [exact H1 | apply collect_new_steps]. }
  destruct (_ <=? length (all_workflows t2)); [done|].
  destruct (DOWNLOAD_BATCH_SIZE <=? length (pending_downloads t2)) eqn:Hb;
    cbn [andb].
  - apply Nat.leb_le in Hb.
    assert (H3 : rtc step' t (flush' t2).1).
    { eapply rtc_r; [exact H2 | by constructor]. }
    destruct (bool_decide _); [done|].
    destruct (negb _); [done|]. by destruct (_ <? _).
  - destruct (negb _); [done|]. by destruct (_ <? _).
Qed.

Lemma loop_iteration_pages_loaded t :
  pages_loaded (loop_iteration' t).1 = S (pages_loaded t)
  ∧ ((loop_iteration' t).2 = Continue → S (pages_loaded t) ≤ 30).
Proof.
  rewrite loop_iteration_eq. cbv zeta.
  set (t1 := mkTraversal _ _ _ (S (pages_loaded t)) _ _).
  set (t2 := collect_new' _ t1).
  assert (Hp : pages_loaded t2 = S (pages_loaded t))
    by apply collect_new_pages_loaded.
  destruct (_ <=? length (all_workflows t2)); [done|].
  set (t3 := if _ <=? length (pending_downloads t2) then (flush' t2).1
             else t2).
  assert (Hp3 : pages_loaded t3 = S (pages_loaded t)).
  { unfold t3. destruct (_ <=? _); [|done].
    destruct (flush_fields t2) as (_ & _ & -> & _). done. }
  destruct (_ && _); [done|].
  destruct (negb _); [done|].
  destruct (30 <? pages_loaded t3) eqn:Hl; [done|].
  apply Nat.ltb_ge in Hl. simpl. split; [done|]. intros _. lia.
Qed.

(** The loop is left through a [break] or an exception. *)
Lemma run_loop_exit fuel t t' exit :
  run_loop' fuel t = Some (t', exit) → exit ≠ Continue.
Proof.
  revert t. induction fuel as [|fuel IH]; intros t; simpl; [done|].
  destruct (loop_iteration' t) as [t1 []]; [apply IH| |];
    by intros [= <- <-].
Qed.

Lemma run_loop_steps fuel t t' exit :
  run_loop' fuel t = Some (t', exit) → rtc step' t t'.
Proof.
  revert t. induction fuel as [|fuel IH]; intros t; simpl; [done|].
  pose proof (loop_iteration_steps t) as Hs.
  destruct (loop_iteration' t) as [t1 []]; simpl in Hs.
  - intros Hr. etrans; [exact Hs|]. by apply IH.
  - by intros [= <- <-].
  - by intros [= <- <-].
Qed.

(** The loop always leaves, within 31 turns. *)
Lemma run_loop_terminates fuel t :
  31 ≤ pages_loaded t + fuel → 0 < fuel →
  ∃ t' exit, run_loop' fuel t = Some (t', exit)
             ∧ pages_loaded t' ≤ max 31 (pages_loaded t + 1).
Proof.
  revert t. induction fuel as [|fuel IH]; intros t Hf Hpos; [lia|].
  simpl. destruct (loop_iteration_pages_loaded t) as (Hp & Hc).
  destruct (loop_iteration' t) as [t1 []]; simpl in *.
  - specialize (Hc eq_refl).
    destruct (IH t1) as (t' & exit & -> & Hb); [lia|lia|].
    exists t', exit. split; [done|]. lia.
  - exists t1, Break. split; [done|]. lia.
  - exists t1, Abort. split; [done|]. lia.
Qed.

(** How a traversal ends: at the first navigation, after the loop
    with the rest of the buffer handed over, or in the loop at a flush
    that raised. *)
Lemma scrape_cases fuel s t :
  scrape' fuel s = Some t →
  (goto_category site = Raise ∧ t = start' s)
  ∨ (∃ t0, run_loop' fuel (start' s) = Some (t0, Break)
           ∧ t = flush_rest' t0)
  ∨ run_loop' fuel (start' s) = Some (t, Abort).
Proof.
  unfold scrape_category_workflows.
  destruct (goto_category site); [|intros [= <-]; by left].
  destruct (run_loop' fuel (start' s)) as [[t0 exit]|] eqn:Hr; [|done].
  pose proof (run_loop_exit _ _ _ _ Hr) as Hne.
  destruct exit; [done| |]; intros [= <-]; right; [left|right]; eauto.
Qed.

Lemma pagination_terminates s fuel :
  31 ≤ fuel → ∃ t, scrape' fuel s = Some t ∧ pages_loaded t ≤ 31.
Proof.
  intros Hf. unfold scrape_category_workflows.
  destruct (goto_category site).
  - destruct (run_loop_terminates fuel (start' s)) as (t & exit & Hr & Hp);
      [simpl; lia|lia|].
    rewrite Hr. simpl in Hp.
    pose proof (run_loop_exit _ _ _ _ Hr) as Hne.
    destruct exit; [done| |].
    + exists (flush_rest' t). split; [done|].
      destruct (flush_rest_fields t) as (_ & _ & -> & _). lia.
    + exists t. split; [done|lia].
  - exists (start' s). simpl. split; [done|lia].
Qed.

(** *** What the steps keep *)

Lemma start_inv s :
  traversal_inv (start' s).
Proof.
  unfold traversal_inv, MAX_WORKFLOWS_PER_SUBCATEGORY. simpl.
  split_and!; [by intros w ?%elem_of_nil|apply NoDup_nil_2| |lia].
  by intros w ?%elem_of_nil.
Qed.

Lemma step_inv t t' :
  step' t t' → traversal_inv t → traversal_inv t'.
Proof.
  intros Hstep (H1 & H2 & H3 & H4). destruct Hstep as [t|t w Hs Hl|t Hb].
  - done.
  - unfold traversal_inv. simpl. split_and!.
    + intros w' [Hw'| ->%list_elem_of_singleton]%elem_of_app;
        apply elem_of_app; [left; by apply H1|right; by left].
    + rewrite fmap_app. apply NoDup_app.
      split_and!; [done| |apply NoDup_singleton].
      intros x (w' & -> & Hw')%list_elem_of_fmap Hx.
      apply list_elem_of_singleton in Hx. apply H3 in Hw'. congruence.
    + intros w' [Hw'| ->%list_elem_of_singleton]%elem_of_app;
        [apply H3 in Hw'|]; set_solver.
    + rewrite length_app. simpl. lia.
  - destruct (flush_fields t) as (Ha & Hp & _ & _ & Hpd).
    unfold traversal_inv. rewrite Ha, Hp, Hpd. split_and!; try done.
    destruct (flush' t).2; [by intros w ?%elem_of_nil|done].
Qed.

Lemma rtc_step_inv t t' :
  rtc step' t t' → traversal_inv t → traversal_inv t'.
Proof. induction 1; eauto using step_inv. Qed.

(** *** The batches *)

Lemma length_concat_sum {A} (l : list (list A)) :
  sum_list (length <$> l) = length (concat l).
Proof.
  induction l as [|x l IH]; simpl; [done|]. rewrite length_app. by f_equal.
Qed.

Lemma collect_new_handed_over ws t :
  handed_over t → handed_over (collect_new' ws t).
Proof.
  revert t. induction ws as [|w ws IH]; intros t Ht; simpl; [done|].
  case_match; [|by apply IH].
  assert (handed_over (accept_new' w t)).
  { destruct Ht as [H1 H2]. split; [|done]. simpl.
    by rewrite app_assoc, H1. }
  case_match; [done|]. by apply IH.
Qed.

(** A turn of the loop keeps the buffer and the batches in step with
    the accepted items, unless it ends at a flush that raised: then
    everything accepted has been handed over, the last batch being
    the buffer. *)
Lemma loop_iteration_handed_over t :
  handed_over t →
  match (loop_iteration' t).2 with
  | Abort =>
      concat (batches (loop_iteration' t).1)
      = all_workflows (loop_iteration' t).1
      ∧ pending_downloads (loop_iteration' t).1 ≠ []
      ∧ ∃ in_loop,
          Forall (λ b, DOWNLOAD_BATCH_SIZE ≤ length b) in_loop
          ∧ batches (loop_iteration' t).1
            = in_loop ++ [pending_downloads (loop_iteration' t).1]
  | _ => handed_over (loop_iteration' t).1
  end.
Proof.
  intros Ht. rewrite loop_iteration_eq. cbv zeta.
  set (t1 := mkTraversal _ _ _ (S (pages_loaded t)) _ _).
  set (t2 := collect_new' _ t1).
  assert (H2 : handed_over t2) by (by apply collect_new_handed_over).
  destruct (_ <=? length (all_workflows t2)); [done|].
  destruct (DOWNLOAD_BATCH_SIZE <=? length (pending_downloads t2)) eqn:Hb;
    cbn [andb].
  - apply Nat.leb_le in Hb. destruct H2 as [H21 H22].
    destruct (flush_fields t2) as (Ha & _ & _ & Hbs & Hpd).
    case_bool_decide as Hr; cbn [fst snd].
    + rewrite Hr in Hpd. rewrite Ha, Hbs, Hpd, concat_app. cbn [concat].
      rewrite app_nil_r. split_and!; [done| |by exists (batches t2)].
      intros Hnil. rewrite Hnil in Hb. unfold DOWNLOAD_BATCH_SIZE in Hb.
      simpl in Hb. lia.
    + assert (H3 : handed_over (flush' t2).1).
      { destruct (flush' t2).2 as [[]|] eqn:Hf; [|done].
        unfold handed_over. rewrite Ha, Hbs, Hpd, concat_app. cbn [concat].
        rewrite !app_nil_r. split; [done|].
        apply Forall_app. split; [done|]. by apply Forall_singleton. }
      destruct (negb _); [done|]. by destruct (_ <? _).
  - destruct (negb _); [done|]. by destruct (_ <? _).
Qed.

Lemma run_loop_handed_over fuel t t' exit :
  run_loop' fuel t = Some (t', exit) →
  handed_over t →
  match exit with
  | Abort =>
      concat (batches t') = all_workflows t'
      ∧ pending_downloads t' ≠ []
      ∧ ∃ in_loop,
          Forall (λ b, DOWNLOAD_BATCH_SIZE ≤ length b) in_loop
          ∧ batches t' = in_loop ++ [pending_downloads t']
  | _ => handed_over t'
  end.
Proof.
  revert t. induction fuel as [|fuel IH]; intros t; simpl; [done|].
  intros Hr Ht. pose proof (loop_iteration_handed_over t Ht) as H1.
  destruct (loop_iteration' t) as [t1 []]; cbn [fst snd] in H1.
  - by apply (IH t1).
  - by injection Hr as <- <-.
  - by injection Hr as <- <-.
Qed.

(** When a traversal ends, everything accepted has been handed over. *)
Lemma scrape_partition fuel s t :
  scrape' fuel s = Some t →
  concat (batches t) = all_workflows t
  ∧ ∃ in_loop,
      Forall (λ b, DOWNLOAD_BATCH_SIZE ≤ length b) in_loop
      ∧ batches t
        = in_loop ++ (if decide (pending_downloads t = []) then []
                      else [pending_downloads t]).
Proof.
  intros [[_ ->]|[(t0 & Hr & ->)|Hr]]%scrape_cases.
  - split; [done|]. by exists [].
  - pose proof (run_loop_handed_over _ _ _ _ Hr) as [H1 H2]; [done|].
    destruct (flush_rest_fields t0) as (Ha & _ & _ & Hp & Hb).
    rewrite Ha, Hb, Hp. split; [|by exists (batches t0)].
    rewrite concat_app, <- H1. f_equal.
    case_decide as Hd; [by rewrite Hd|]. simpl. by rewrite app_nil_r.
  - pose proof (run_loop_handed_over _ _ _ _ Hr) as (H1 & Hne & l & Hl & Hb);
      [done|].
    split; [done|]. exists l. by rewrite decide_False.
Qed.

(** C4 (as amended): the traversal returns, and the batches it has
    handed to the Download Orchestrator, in order, make up exactly the
    accepted items, so their sizes add up to the accepted count; the
    batches flushed inside the loop hold at least
    [DOWNLOAD_BATCH_SIZE] items each and are followed by the non-empty
    remainder, if any; a flush hands over the whole buffer, returns
    when no call in front of the [try] of a download raises, and
    clears the buffer when it returns; and whenever the loop goes on
    to another page the buffer holds fewer than [DOWNLOAD_BATCH_SIZE]
    items. *)
Theorem C4_batches_partition_accepted s fuel :
  31 ≤ fuel →
  (∃ t, scrape_category_workflows urljoin JSON json_loads json_dump site
          category_name fuel s = Some t
        ∧ concat (batches t) = all_workflows t
        ∧ sum_list (length <$> batches t) = length (all_workflows t)
        ∧ ∃ in_loop,
            Forall (λ b, DOWNLOAD_BATCH_SIZE ≤ length b) in_loop
            ∧ batches t
              = in_loop ++ (if decide (pending_downloads t = []) then []
                            else [pending_downloads t]))
  ∧ (∀ t, let flushed :=
               flush JSON json_loads json_dump site category_name t in
          batches flushed.1 = batches t ++ [pending_downloads t]
          ∧ ((∀ k i, paths_ok (batch_tabs site (length (batches t)) k i)) →
             flushed.2 = Ret ())
          ∧ (flushed.2 = Ret () → pending_downloads flushed.1 = []))
  ∧ (∀ t, let turn :=
               loop_iteration urljoin JSON json_loads json_dump site
                 category_name t in
          turn.2 = Continue →
          length (pending_downloads turn.1) < DOWNLOAD_BATCH_SIZE).
Proof.
  intros Hf. split_and!.
  - destruct (pagination_terminates s fuel Hf) as (t & Hs & _).
    exists t. split; [done|].
    destruct (scrape_partition _ _ _ Hs) as [Hc Hin].
    split_and!; [done|by rewrite length_concat_sum, Hc|done].
  - intros t. cbv zeta.
    destruct (flush_fields t) as (_ & _ & _ & Hbs & Hpd).
    split_and!; [done| |].
    + intros Hok. rewrite flush_returned.
      by apply (download_batch_returns JSON json_loads json_dump).
    + intros Hr. by rewrite Hr in Hpd.
  - intros t. cbv zeta. rewrite loop_iteration_eq. cbv zeta.
    set (t1 := mkTraversal _ _ _ (S (pages_loaded t)) _ _).
    set (t2 := collect_new' _ t1).
    case_match; [done|].
    destruct (DOWNLOAD_BATCH_SIZE <=? length (pending_downloads t2)) eqn:Hb;
      cbn [andb].
    + destruct (flush_fields t2) as (_ & _ & _ & _ & Hp).
      case_bool_decide as Hr; [done|].
      destruct (negb _); [done|]. destruct (_ <? _); [done|].
      intros _. cbn [fst]. rewrite Hp.
      destruct (flush' t2).2 as [[]|]; [|done].
      unfold DOWNLOAD_BATCH_SIZE. simpl. lia.
    + apply Nat.leb_gt in Hb.
      destruct (negb _); [done|]. by destruct (_ <? _).
Qed.

(** C8: at every point of a traversal the accepted items have
    pairwise distinct slugs and number at most
    [MAX_WORKFLOWS_PER_SUBCATEGORY]: this holds in every state
    reachable by the steps of the loop, the loop only takes such
    steps, and it holds of the list with which the traversal
    returns. *)
Theorem C8_distinct_slugs_within_limit s :
  (∀ t, rtc (traversal_step JSON json_loads json_dump site category_name)
            (start category_name s) t →
        NoDup (slug <$> all_workflows t)
        ∧ length (all_workflows t) ≤ MAX_WORKFLOWS_PER_SUBCATEGORY
        ∧ ∀ w, w ∈ all_workflows t → slug w ∈ processed_slugs t)
  ∧ (∀ fuel t exit,
        run_loop urljoin JSON json_loads json_dump site category_name fuel
          (start category_name s) = Some (t, exit) →
        rtc (traversal_step JSON json_loads json_dump site category_name)
            (start category_name s) t)
  ∧ (∀ fuel, 31 ≤ fuel →
       ∃ t, scrape_category_workflows urljoin JSON json_loads json_dump site
              category_name fuel s = Some t
            ∧ NoDup (slug <$> all_workflows t)
            ∧ length (all_workflows t) ≤ MAX_WORKFLOWS_PER_SUBCATEGORY).
Proof.
  assert (Hreach : ∀ t, rtc step' (start' s) t →
            NoDup (slug <$> all_workflows t)
            ∧ length (all_workflows t) ≤ MAX_WORKFLOWS_PER_SUBCATEGORY
            ∧ ∀ w, w ∈ all_workflows t → slug w ∈ processed_slugs t).
  { intros t Hr.
    by destruct (rtc_step_inv _ _ Hr (start_inv s)) as (_ & ? & ? & ?). }
  split_and!; [done| |].
  { intros fuel t exit Hr. by apply (run_loop_steps _ _ _ _ Hr). }
  intros fuel Hf.
  destruct (pagination_terminates s fuel Hf) as (t & Hs & _).
  exists t. split; [done|].
  destruct (scrape_cases _ _ _ Hs) as [[_ ->]|[(t0 & Hr & ->)|Hr]].
  - by destruct (Hreach (start' s)) as (? & ? & _).
  - destruct (flush_rest_fields t0) as (-> & _).
    by destruct (Hreach t0) as (? & ? & _); [by eapply run_loop_steps|].
  - by destruct (Hreach t) as (? & ? & _); [by eapply run_loop_steps|].
Qed.

End DriverFacts.

(** ** The Traversal Controller *)

Section ControllerFacts.

Variable scrape : Scraper → Category → Scraper * Raises unit.

Lemma scrape_each_events units s :
  Forall is_scrape (scrape_each scrape s units).2.
Proof.
  revert s. induction units as [|c units IH]; intros s; simpl; [done|].
  destruct (scrape s c) as [s1 [[]|]]; simpl.
  - specialize (IH s1). destruct (scrape_each scrape s1 units) as [[s2 r] evs].
    simpl in *. apply Forall_cons. split; [by exists c|done].
  - apply Forall_singleton. by exists c.
Qed.

Lemma process_category_events s c :
  Forall is_scrape (process_category scrape s c).2.
Proof.
  unfold process_category.
  destruct (discover_subcategories c); apply scrape_each_events.
Qed.

Lemma process_categories_events cs s :
  Forall is_scrape (process_categories scrape s cs).2.
Proof.
  revert s. induction cs as [|c cs IH]; intros s; simpl; [done|].
  pose proof (process_category_events s c) as Hc.
  destruct (process_category scrape s c) as [[s1 [[]|]] evs]; simpl in *;
    [|done].
  specialize (IH s1).
  destruct (process_categories scrape s1 cs) as [[s2 r] more].
  simpl in *. by apply Forall_app.
Qed.

(** C9 (as amended): the final statistics are reported exactly when
    category discovery returned at least one category and no exception
    escaped the traversal of the categories; a run that found no
    category, or that was cut short by an exception, ends without a
    report.  The browser is closed at the end of every run. *)
Theorem C9_report_only_after_complete_run s main_categories :
  let run := scrape_all_categories_comprehensively scrape s main_categories in
  let traversal :=
    process_categories scrape
      (set_categories_explored (length main_categories) s) main_categories in
  ((∃ g, EvFinalStatistics g ∈ run.2)
   ↔ main_categories ≠ [] ∧ traversal.1.2 = Ret ())
  ∧ last run.2 = Some EvBrowserClose.
Proof.
  cbv zeta. unfold scrape_all_categories_comprehensively.
  destruct main_categories as [|c cs].
  { simpl. split; [|done]. split; [|by intros [? _]].
    intros [g Hg].
    repeat (apply elem_of_cons in Hg as [Hg|Hg]; [done|]).
    by apply elem_of_nil in Hg. }
  set (all := c :: cs).
  pose proof (process_categories_events all
                (set_categories_explored (length all) s)) as Hevs.
  destruct (process_categories scrape _ all) as [[s1 r] evs]. simpl in *.
  assert (Hno : ∀ g, EvFinalStatistics g ∉ evs).
  { intros g Hg. rewrite Forall_forall in Hevs.
    by destruct (Hevs _ Hg) as [c' ?]. }
  destruct r as [[]|]; simpl.
  - split.
    + split; [done|]. intros _. exists (global_stats s1).
      apply elem_of_app; right. by apply elem_of_cons; left.
    + by rewrite last_app.
  - split.
    + split; [|by intros [_ ?]].
      intros [g [Hg|Hg]%elem_of_app]; [by destruct (Hno g)|].
      repeat (apply elem_of_cons in Hg as [Hg|Hg]; [done|]).
      by apply elem_of_nil in Hg.
    + by rewrite last_app.
Qed.

End ControllerFacts.

(** ** Worked examples *)

Module Worked.

Import Samples.

Local Abbreviation extract := (extract_workflow_links urljoin_path).
Local Abbreviation download :=
  (download_workflow_via_clipboard string loads_object dump_object).
Local Abbreviation download_batch :=
  (download_batch_immediately string loads_object dump_object).
Local Abbreviation scrape :=
  (scrape_category_workflows urljoin_path string loads_object dump_object).

(** Scenario A: three visible nodes and [+2] give 5, below the
    minimum; scenario B: five visible nodes and [+3] give 8. *)
Example scenario_a_rejected :
  count_nodes scenario_a = Ret 5%N
  ∧ extract (listing_page [scenario_a] false) "Sales" = [].
Proof. by vm_compute. Qed.

Example scenario_b_accepted :
  count_nodes scenario_b = Ret 8%N
  ∧ extract (listing_page [scenario_b] false) "Sales" = [agent_chat].
Proof. by vm_compute. Qed.

(** An entry with neither a price nor a free label is rejected. *)
Example unlabelled_rejected :
  extract (listing_page [unlabelled] false) "Sales" = [].
Proof. by vm_compute. Qed.

(** The record of the card with neither marker. *)
Example unlabelled_record :
  workflow_record urljoin_path "Sales" [] unlabelled = Ret (Some plain).
Proof. vm_compute. reflexivity. Qed.

Lemma unlabelled_no_price selector :
  selector ∈ price_selectors → ¬ price_marker unlabelled selector.
Proof.
  intros Hin (pe & text & Hq & _).
  repeat (apply elem_of_cons in Hin as [->|Hin];
          [vm_compute in Hq; discriminate Hq|]).
  by apply elem_of_nil in Hin.
Qed.

Lemma unlabelled_no_free selector :
  selector ∈ free_selectors → ¬ free_label unlabelled selector.
Proof.
  intros Hin (fe & text & Hq & _).
  repeat (apply elem_of_cons in Hin as [->|Hin];
          [vm_compute in Hq; discriminate Hq|]).
  by apply elem_of_nil in Hin.
Qed.

Lemma C1_witness :
  (agent_chat ∈ extract (listing_page [scenario_b; unlabelled] false) "Sales"
   ↔ (MIN_NODES ≤ nodes agent_chat)%N
     ∧ has_price agent_chat = false
     ∧ is_free agent_chat = true)
  ∧ (has_price plain = false
     ∧ is_free plain = false
     ∧ plain ∉ extract (listing_page [scenario_b; unlabelled] false) "Sales").
Proof.
  split.
  - apply (proj1 (C1_accepted_iff_predicate urljoin_path "Sales"
                    (listing_page [scenario_b; unlabelled] false))
                 [] scenario_b [unlabelled] agent_chat);
      vm_compute; reflexivity.
  - apply (proj2 (proj2 (proj2 (proj2
             (C1_accepted_iff_predicate urljoin_path "Sales"
                (listing_page [scenario_b; unlabelled] false)))))
           [] unlabelled plain).
    + vm_compute. reflexivity.
    + apply unlabelled_no_price.
    + apply unlabelled_no_free.
Defined.

(** The claim C3 fails where the heading of a card holds a [+N] of
    its own: tier 1 counts 1 + 3 = 4 while the first [+N] of the text
    is 10. *)
Lemma C3_plus_in_heading_exceeds :
  query_selector plus_in_heading "ul" = Ret (Some (node_list 1 ["+3"]))
  ∧ count_nodes plus_in_heading = Ret 4%N
  ∧ inner_text plus_in_heading = Ret "Save +10 hours +3 Free"
  ∧ overflow_only_count "Save +10 hours +3 Free" = 10%N
  ∧ ¬ (10 ≤ 4)%N.
Proof. split_and!; try (vm_compute; reflexivity). lia. Qed.

(** With an empty node list the fallback decides: the computed count
    is 5 although visible count and overflow are both 0. *)
Example empty_node_list_falls_back :
  structural_count (node_list 0 []) = Ret 0%N
  ∧ count_nodes empty_node_list = Ret 5%N.
Proof. by vm_compute. Qed.

Lemma C3_witness :
  structural_count (node_list 5 ["+3"]) = Ret 8%N
  ∧ (8%N ≠ 0%N → count_nodes scenario_b = Ret 8%N)
  ∧ (∀ n, count_nodes scenario_b = Ret n → (8 ≤ n)%N)
  ∧ (∀ text, inner_text scenario_b = Ret text →
       overflow_only_count text = 3%N ∨ overflow_only_count text = 0%N →
       (overflow_only_count text ≤ 8)%N).
Proof.
  apply (C3_structural_count_dominates scenario_b (node_list 5 ["+3"])
           (replicate 5 (leaf EmptyString)) [leaf "+3"] 3%N);
    vm_compute; reflexivity.
Defined.

(** The claim C7 fails for two anchors to one workflow that differ in
    their heading: both records are returned, with one slug. *)
Lemma C7_twins_share_a_slug :
  slug <$> extract (listing_page [twin_a; twin_b] false) "Sales"
  = ["1954-ai-agent-chat"; "1954-ai-agent-chat"]
  ∧ ¬ NoDup (slug <$> extract (listing_page [twin_a; twin_b] false) "Sales").
Proof.
  assert (H : slug <$> extract (listing_page [twin_a; twin_b] false) "Sales"
              = ["1954-ai-agent-chat"; "1954-ai-agent-chat"])
    by (vm_compute; reflexivity).
  split; [done|]. rewrite H. intros Hnd.
  apply NoDup_cons in Hnd as [Hnin _]. apply Hnin. by left.
Qed.

Lemma C7_witness :
  foldl (process_element urljoin_path "Sales") [] [twin_a]
    `prefix_of` extract (listing_page [twin_a; twin_b] false) "Sales".
Proof.
  apply (proj2 (C7_distinct_records_in_order urljoin_path "Sales"
                  (listing_page [twin_a; twin_b] false))
               [twin_a] [twin_b]).
  vm_compute; reflexivity.
Defined.

Lemma C2_witness :
  download stocked_scraper unreachable_tab agent_chat
  = (Ret true, stocked_scraper)
  ∧ (let first := download_batch fresh_scraper (λ _ _, working_tab "{}")
                    seven_workflows "Sales" in
     let second := download_batch first.1 (λ _ _, unreachable_tab)
                     seven_workflows "Sales" in
     goto_log second.1 = goto_log first.1
     ∧ download_dir second.1 = download_dir first.1
     ∧ Forall (λ a, outcome a = Ret true) (attempts second.2)).
Proof.
  split.
  - apply (proj1 (C2_existing_file_short_circuit string loads_object
                    dump_object)).
    vm_compute; reflexivity.
  - apply (proj2 (proj2 (C2_existing_file_short_circuit string loads_object
                           dump_object))).
    vm_compute. repeat constructor.
Defined.

(** Scenario D: seven items on three tabs; item 3 cannot be reached,
    the other six are attempted and succeed. *)
Example scenario_d :
  let report := (download_batch fresh_scraper tabs_failing_third
                   seven_workflows "Sales").2 in
  tab_index <$> attempts report = [0; 1; 2; 0; 1; 2; 0]
  ∧ outcome <$> attempts report
    = [Ret true; Ret true; Ret true; Ret false; Ret true; Ret true; Ret true]
  ∧ returned report = Ret ().
Proof. by vm_compute. Qed.

(** C6: a failure in front of the [try] of a download is not
    isolated.  Seven items go to three tabs in the order
    0,1,2,0,1,2,0, and an item that fails at the navigation step
    leaves the others attempted; but when the existence test of item
    3 raises, the batch lets the exception escape after closing its
    tabs: items 4, 5 and 6 are never attempted, have no file, and no
    counter tells of item 3.  When [mkdir] raises, as it does for the
    first item of a category whose directory cannot be made, nothing
    is attempted after it. *)
Theorem C6_batch_cut_short :
  let whole :=
    download_batch_immediately string loads_object dump_object fresh_scraper
      tabs_failing_third seven_workflows "Sales" in
  let cut :=
    download_batch_immediately string loads_object dump_object fresh_scraper
      tabs_raising_third seven_workflows "Sales" in
  let none :=
    download_batch_immediately string loads_object dump_object fresh_scraper
      (λ _ _, no_directory_tab) seven_workflows "Sales" in
  (tabs_opened whole.2 = 3 ∧ tabs_closed whole.2 = 3
   ∧ tab_index <$> attempts whole.2 = [0; 1; 2; 0; 1; 2; 0]
   ∧ outcome <$> attempts whole.2
     = [Ret true; Ret true; Ret true; Ret false; Ret true; Ret true;
        Ret true]
   ∧ returned whole.2 = Ret ()
   ∧ on_disk whole.1 <$> seven_workflows
     = [true; true; true; false; true; true; true])
  ∧ (tabs_opened cut.2 = 3 ∧ tabs_closed cut.2 = 3
     ∧ tab_index <$> attempts cut.2 = [0; 1; 2; 0]
     ∧ outcome <$> attempts cut.2 = [Ret true; Ret true; Ret true; Raise]
     ∧ returned cut.2 = Raise
     ∧ on_disk cut.1 <$> seven_workflows
       = [true; true; true; false; false; false; false]
     ∧ total_workflows_downloaded (global_stats cut.1) = 3
     ∧ total_errors (global_stats cut.1) = 0)
  ∧ (outcome <$> attempts none.2 = [Raise]
     ∧ returned none.2 = Raise
     ∧ tabs_closed none.2 = 3
     ∧ on_disk none.1 <$> seven_workflows
       = [false; false; false; false; false; false; false]).
Proof. cbv zeta. split_and!; vm_compute; reflexivity. Qed.

(** The claim C10 fails on the directory: a call that fails on a
    fresh disk leaves the category directory behind. *)
Lemma C10_failed_call_makes_directory :
  let result := download fresh_scraper unreachable_tab agent_chat in
  result.1 = Ret false
  ∧ download_dir result.2 !! "Sales" = Some ∅
  ∧ download_dir fresh_scraper !! "Sales" = None
  ∧ download_dir result.2 ≠ download_dir fresh_scraper.
Proof.
  assert (H1 : download_dir (download fresh_scraper unreachable_tab
                               agent_chat).2 !! "Sales" = Some ∅)
    by (vm_compute; reflexivity).
  split_and!; [by vm_compute|done|done|].
  intros Heq. rewrite Heq in H1. done.
Qed.

Lemma C10_witness :
  let result := download fresh_scraper unreachable_tab agent_chat in
  let made := mkdir_exist_ok "Sales" (download_dir fresh_scraper) in
  (result.1 = Ret false → (∀ n, disk unreachable_tab ≠ DumpRaises n) →
   download_dir result.2 = made)
  ∧ (result.1 ≠ Raise → download_dir result.2 ≠ made →
     ∃ text workflow_data,
       clipboard unreachable_tab = Ret (Some text)
       ∧ loads_object text = Ret workflow_data)
  ∧ (result.1 = Ret true →
     ∃ text workflow_data,
       clipboard unreachable_tab = Ret (Some text)
       ∧ loads_object text = Ret workflow_data
       ∧ download_dir result.2
         = write_file "Sales" (file_name agent_chat)
                      (dump_object workflow_data) made)
  ∧ (result.1 = Raise →
     download_dir result.2 = download_dir fresh_scraper
     ∨ download_dir result.2 = made).
Proof.
  apply (C10_failure_writes_no_file string loads_object dump_object
           fresh_scraper unreachable_tab agent_chat).
  vm_compute; reflexivity.
Defined.

(** The claim C4 fails on a page with sixteen accepted items: the
    buffer passes 15 without a flush and is handed over once, with 16
    items, at the end of the page. *)
Lemma C4_sixteen_in_one_batch :
  (λ t, length <$> batches t) <$> scrape sixteen_on_one_page "Sales" 31
                                    fresh_scraper
  = Some [16]
  ∧ 16 ≠ DOWNLOAD_BATCH_SIZE.
Proof. split; [vm_compute; reflexivity|unfold DOWNLOAD_BATCH_SIZE; lia]. Qed.

Lemma C4_witness :
  (∃ t, scrape sixteen_on_one_page "Sales" 31 fresh_scraper = Some t
        ∧ concat (batches t) = all_workflows t
        ∧ sum_list (length <$> batches t) = length (all_workflows t)
        ∧ ∃ in_loop,
            Forall (λ b, DOWNLOAD_BATCH_SIZE ≤ length b) in_loop
            ∧ batches t
              = in_loop ++ (if decide (pending_downloads t = []) then []
                            else [pending_downloads t])).
Proof.
  apply (proj1 (C4_batches_partition_accepted urljoin_path string
                  loads_object dump_object sixteen_on_one_page "Sales"
                  fresh_scraper 31 (le_n 31))).
Defined.

(** C5: the loop does not stop at 30.  On a listing that always shows
    the load-more control the traversal ends with [pages_loaded] at 31:
    31 pages are extracted and the control is clicked 31 times; 30
    turns of the loop do not reach a [break]. *)
Theorem C5_thirty_one_page_loads :
  pages_loaded
    <$> scrape_category_workflows urljoin_path string loads_object
          dump_object endless "Sales" 31 fresh_scraper
  = Some 31
  ∧ run_loop urljoin_path string loads_object dump_object endless "Sales" 30
      (start "Sales" fresh_scraper)
    = None.
Proof. split; vm_compute; reflexivity. Qed.

Lemma C8_witness :
  ∃ t, scrape sixteen_on_one_page "Sales" 31 fresh_scraper = Some t
       ∧ NoDup (slug <$> all_workflows t)
       ∧ length (all_workflows t) ≤ MAX_WORKFLOWS_PER_SUBCATEGORY.
Proof.
  apply (proj2 (proj2 (C8_distinct_slugs_within_limit urljoin_path string
                         loads_object dump_object sixteen_on_one_page "Sales"
                         fresh_scraper)) 31 (le_n 31)).
Defined.

(** The claim C9 fails in both cases it names: a run without
    categories and a run cut short by an exception end without the
    final statistics. *)
Lemma C9_no_report_without_categories :
  (scrape_all_categories_comprehensively uneventful fresh_scraper []).2
  = [EvNoCategories; EvBrowserClose]
  ∧ event_label
      <$> (scrape_all_categories_comprehensively interrupted_at_hr
             fresh_scraper known_categories).2
    = [ "crm"; "lead-generation"; "lead-nurturing";
        "secops"; "engineering"; "devops";
        "content-creation"; "market-research"; "social-media";
        "document-extraction"; "file-management"; "invoice-processing";
        "crypto-trading"; "hr";
        "critical error"; "browser closed" ].
Proof. split; vm_compute; reflexivity. Qed.

Lemma C9_witness :
  ∃ g, EvFinalStatistics g
       ∈ (scrape_all_categories_comprehensively uneventful fresh_scraper
            known_categories).2.
Proof.
  apply (proj1 (C9_report_only_after_complete_run uneventful fresh_scraper
                  known_categories)).
  split; [discriminate|vm_compute; reflexivity].
Defined.

End Worked.

(** * Further properties of the code *)

(** ** Cookie acceptance and category discovery *)

Lemma accept_with_spec page strategies sel :
  accept_with page strategies = Some sel
  ↔ ∃ before after,
      strategies = before ++ sel :: after
      ∧ try_strategy page sel = Ret true
      ∧ ∀ s', s' ∈ before → try_strategy page s' ≠ Ret true.
Proof.
  induction strategies as [|s0 rest IH]; simpl.
  { split; [done|]. intros (before & after & H & _). by destruct before. }
  split.
  - destruct (try_strategy page s0) as [[]|] eqn:H0.
    + intros [= <-]. exists [], rest. split_and!; [done|done|].
      by intros s' ?%elem_of_nil.
    + intros (before & after & -> & Hw & Hb)%IH.
      exists (s0 :: before), after. split_and!; [done|done|].
      intros s' [->|Hin]%elem_of_cons; [by rewrite H0|by apply Hb].
    + intros (before & after & -> & Hw & Hb)%IH.
      exists (s0 :: before), after. split_and!; [done|done|].
      intros s' [->|Hin]%elem_of_cons; [by rewrite H0|by apply Hb].
  - intros (before & after & Heq & Hw & Hb).
    destruct before as [|b before]; simpl in Heq.
    + injection Heq as -> ->. by rewrite Hw.
    + injection Heq as -> ->.
      assert (Hb0 : try_strategy page b ≠ Ret true)
        by (apply Hb; by left).
      assert (accept_with page (before ++ sel :: after) = Some sel) as Hrest.
      { apply IH. exists before, after. split_and!; [done|done|].
        intros s' Hs'. apply Hb. by right. }
      by destruct (try_strategy page b) as [[]|].
Qed.

(** X1: [accept_all_cookies] accepts with the first strategy, in the
    order of the list, whose control is found, visible and clicked
    without an exception; strategies that raise or find nothing are
    passed over, and nothing is accepted when the first wait raises. *)
Theorem accept_all_cookies_first_working page sel :
  accept_all_cookies page = Some sel
  ↔ wait_for_timeout page ≠ Raise
    ∧ ∃ before after,
        accept_strategies = before ++ sel :: after
        ∧ try_strategy page sel = Ret true
        ∧ ∀ s', s' ∈ before → try_strategy page s' ≠ Ret true.
Proof.
  unfold accept_all_cookies. destruct (wait_for_timeout page).
  - rewrite accept_with_spec. split; [by intros ?|by intros [_ ?]].
  - split; [done|]. by intros [? _].
Qed.

Lemma navigate_count goto_attempt attempt left :
  (navigate goto_attempt attempt left).2 ≤ left.
Proof.
  revert attempt. induction left as [|left IH]; intros attempt;
    cbn [navigate]; [done|].
  destruct (goto_attempt attempt); cbn [snd]; [lia|].
  destruct (attempt =? max_retries - 1); cbn [snd]; [lia|].
  specialize (IH (S attempt)).
  destruct (navigate goto_attempt (S attempt) left). cbn [snd] in *. lia.
Qed.

(** X2: discovery navigates at most three times, stops navigating at
    the first attempt that returns, and after three failed attempts
    answers with the hand-written list of six categories without
    reading the page. *)
Theorem discover_navigation_retries urljoin home :
  (navigate (home_goto home) 0 max_retries).2 ≤ 3
  ∧ (∀ k, k < 3 →
       (∀ j, j < k → home_goto home j = Raise) →
       home_goto home k ≠ Raise →
       navigate (home_goto home) 0 max_retries = (true, S k))
  ∧ ((∀ j, j < 3 → home_goto home j = Raise) →
     navigate (home_goto home) 0 max_retries = (false, 3)
     ∧ discover_main_categories urljoin home = known_main_categories).
Proof.
  split_and!.
  - apply navigate_count.
  - intros k Hk Hfail Hok. unfold max_retries. simpl.
    destruct k as [|[|[|k]]]; [| | |lia].
    + by destruct (home_goto home 0).
    + rewrite (Hfail 0) by lia. simpl. by destruct (home_goto home 1).
    + rewrite (Hfail 0), (Hfail 1) by lia. simpl.
      by destruct (home_goto home 2).
  - intros Hfail.
    assert (Hn : navigate (home_goto home) 0 max_retries = (false, 3)).
    { unfold max_retries. simpl.
      by rewrite (Hfail 0), (Hfail 1), (Hfail 2) by lia. }
    split; [done|]. unfold discover_main_categories. by rewrite Hn.
Qed.

Lemma known_main_categories_not_ai :
  Forall (λ c, is_ai c = false) known_main_categories.
Proof. repeat constructor. Qed.

(** X3: whatever the start page shows, no category whose slug is
    [ai], in any letter case, is among the discovered categories. *)
Theorem discover_excludes_ai urljoin home c :
  c ∈ discover_main_categories urljoin home →
  Text.lower (cat_slug c) ≠ "ai".
Proof.
  intros Hc.
  cut (is_ai c = false).
  { unfold is_ai. by intros ?%String.eqb_neq. }
  unfold discover_main_categories in Hc.
  pose proof known_main_categories_not_ai as Hk. rewrite Forall_forall in Hk.
  destruct (navigate _ _ _) as [[] ?]; [|by apply Hk].
  destruct (collect_categories _ _ _ _) as [cats|]; [|by apply elem_of_nil in Hc].
  cbv zeta in Hc.
  destruct (filter _ cats) as [|c0 l] eqn:Hf; [by apply Hk|].
  rewrite <- Hf in Hc. by apply list_elem_of_filter in Hc as [? _].
Qed.

Lemma collect_categories_raise urljoin page selectors cats :
  collect_categories urljoin page selectors cats = Raise
  ↔ ∃ sel, sel ∈ selectors ∧ page_query_selector_all page sel = Raise.
Proof.
  revert cats. induction selectors as [|s0 rest IH]; intros cats; simpl.
  { split; [done|]. by intros (? & ?%elem_of_nil & _). }
  destruct (page_query_selector_all page s0) as [els|] eqn:H0; simpl.
  - rewrite IH. split.
    + intros (sel & Hin & Hr). exists sel. split; [by right|done].
    + intros (sel & [->|Hin]%elem_of_cons & Hr); [congruence|by exists sel].
  - split; [|done]. intros _. exists s0. split; [by left|done].
Qed.

(** X4: discovery answers with an empty list exactly when the start
    page was reached and one of the queries for category links raised;
    in every other case it answers with at least one category. *)
Theorem discover_empty_iff_query_raised urljoin home :
  discover_main_categories urljoin home = []
  ↔ (navigate (home_goto home) 0 max_retries).1 = true
    ∧ ∃ sel, sel ∈ category_selectors
             ∧ page_query_selector_all (home_page home) sel = Raise.
Proof.
  unfold discover_main_categories.
  destruct (navigate _ _ _) as [[] n]; cbn [fst].
  - rewrite <- (collect_categories_raise urljoin _ _ []).
    destruct (collect_categories _ _ _ _) as [cats|]; [|by split].
    cbv zeta. split; [|by intros [_ ?]].
    by destruct (filter _ cats).
  - split; [done|]. by intros [? _].
Qed.

Section DiscoveryFacts.

Variable urljoin : string → string → string.

Lemma add_category_cases cats e :
  add_category urljoin cats e = cats
  ∨ ∃ c, category_info urljoin e = Ret (Some c) ∧ (c ∉ cats)
         ∧ add_category urljoin cats e = cats ++ [c].
Proof.
  unfold add_category.
  destruct (category_info urljoin e) as [[c|]|]; auto.
  case_bool_decide; eauto.
Qed.

Lemma category_info_some e c :
  category_info urljoin e = Ret (Some c) →
  ∃ h text,
    get_attribute e "href" = Ret (Some h)
    ∧ inner_text e = Ret text
    ∧ Text.str_in "/workflows/categories/" h = true
    ∧ cat_name c = Text.strip text
    ∧ cat_name c ≠ EmptyString
    ∧ cat_url c = urljoin BASE_URL h
    ∧ cat_parent c = None.
Proof.
  unfold category_info.
  destruct (get_attribute e "href") as [[h|]|]; cbn [mbind Raises_bind];
    try done.
  - destruct (inner_text e) as [text|]; cbn [mbind Raises_bind]; [|done].
    destruct (negb (String.eqb h EmptyString)) eqn:Hh; [|done].
    destruct (Text.str_in "/workflows/categories/" h) eqn:Hs; [|done].
    destruct (String.eqb (Text.strip text) EmptyString) eqn:Ht; [done|].
    cbn [negb andb]. intros [= <-]. exists h, text. cbn.
    split_and!; try done. by apply String.eqb_neq.
  - by destruct (inner_text e).
Qed.

Lemma foldl_add_category_inv (P : Category → Prop) els cats :
  NoDup cats → Forall P cats →
  (∀ e c, e ∈ els → category_info urljoin e = Ret (Some c) → P c) →
  NoDup (foldl (add_category urljoin) cats els)
  ∧ Forall P (foldl (add_category urljoin) cats els).
Proof.
  revert cats. induction els as [|e els IH]; intros cats Hnd Hall HP; [done|].
  simpl. apply IH.
  - destruct (add_category_cases cats e) as [->|(c & _ & Hnin & ->)]; [done|].
    apply NoDup_app. split_and!; [done| |apply NoDup_singleton].
    by intros x Hx ->%list_elem_of_singleton.
  - destruct (add_category_cases cats e) as [->|(c & Hc & _ & ->)]; [done|].
    apply Forall_app. split; [done|]. apply Forall_singleton.
    eapply HP; [|done]. by left.
  - intros e' c He'. apply HP. by right.
Qed.

Lemma collect_categories_inv page selectors cats result :
  (∀ sel, sel ∈ selectors → sel ∈ category_selectors) →
  NoDup cats → Forall (from_link urljoin page) cats →
  collect_categories urljoin page selectors cats = Ret result →
  NoDup result ∧ Forall (from_link urljoin page) result.
Proof.
  revert cats. induction selectors as [|s0 rest IH]; intros cats Hsub Hnd Hall;
    simpl.
  { by intros [= <-]. }
  destruct (page_query_selector_all page s0) as [els|] eqn:H0; [|done].
  simpl.
  destruct (foldl_add_category_inv (from_link urljoin page) els cats Hnd Hall)
    as [Hnd' Hall'].
  { intros e c He Hc.
    destruct (category_info_some e c Hc)
      as (h & text & ? & ? & ? & ? & ? & ? & ?).
    exists s0, e, h, text. split_and!; try done.
    - apply Hsub. by left.
    - by exists els. }
  apply IH; [|done|done]. intros sel Hsel. apply Hsub. by right.
Qed.

(** X5: the discovered categories are pairwise different records, and
    each of them is one of the six hand-written categories or was read
    from a link of the start page: its name is the stripped, non-empty
    text of the link, its URL the link's href joined to the base URL,
    the href holds the categories path, and it has no parent. *)
Theorem discover_distinct_from_links home :
  NoDup (discover_main_categories urljoin home)
  ∧ ∀ c, c ∈ discover_main_categories urljoin home →
         c ∈ known_main_categories ∨ from_link urljoin (home_page home) c.
Proof.
  assert (Hk : NoDup known_main_categories).
  { apply (bool_decide_unpack _). by vm_compute. }
  unfold discover_main_categories.
  destruct (navigate _ _ _) as [[] n]; [|by eauto].
  destruct (collect_categories _ _ _ _) as [cats|] eqn:Hc.
  - destruct (collect_categories_inv _ _ _ _ (λ _ H, H) (NoDup_nil_2)
                (Forall_nil_2 _) Hc) as [Hnd Hall].
    cbv zeta. destruct (filter _ cats) as [|c0 l] eqn:Hf; [by eauto|].
    rewrite <- Hf. split; [by apply NoDup_filter|].
    intros c [_ Hin]%list_elem_of_filter. right.
    rewrite Forall_forall in Hall. by apply Hall.
  - split; [apply NoDup_nil_2|]. by intros c ?%elem_of_nil.
Qed.

End DiscoveryFacts.

(** ** More on the Page Extractor *)

Section ExtractorMore.

Variable urljoin : string → string → string.
Variable category_name : string.

Local Abbreviation step1 := (process_element urljoin category_name).

(** Whether an entry raises, and whether it is passed over, does not
    depend on the list accepted so far. *)
Lemma workflow_record_raise ws ws' e :
  workflow_record urljoin category_name ws e = Raise ↔
  workflow_record urljoin category_name ws' e = Raise.
Proof.
  unfold workflow_record.
  destruct (get_attribute e "href") as [href|]; cbn [mbind Raises_bind];
    [|done].
  destruct (is_workflow_href href); [|done].
  destruct (query_selector e title_selector) as [[te|]|];
    cbn [mbind Raises_bind]; [| |done].
  - destruct (inner_text te); cbn [mbind Raises_bind]; [|done].
    destruct (count_nodes e); cbn [mbind Raises_bind]; [|done].
    destruct (detect_price e price_selectors); cbn [mbind Raises_bind];
      [|done].
    by destruct (detect_free e free_selectors).
  - destruct (count_nodes e); cbn [mbind Raises_bind]; [|done].
    destruct (detect_price e price_selectors); cbn [mbind Raises_bind];
      [|done].
    by destruct (detect_free e free_selectors).
Qed.

Lemma step_raising ws e :
  record_raises urljoin category_name e = true → step1 ws e = ws.
Proof.
  unfold record_raises, process_element. intros Hr.
  destruct (workflow_record urljoin category_name [] e) eqn:H0; [done|].
  apply (workflow_record_raise [] ws) in H0. by rewrite H0.
Qed.

Lemma foldl_step_filter es ws :
  foldl step1 ws es
  = foldl step1 ws
      (filter (λ e, record_raises urljoin category_name e = false) es).
Proof.
  revert ws. induction es as [|e es IH]; intros ws; [done|].
  rewrite filter_cons. simpl.
  destruct (record_raises urljoin category_name e) eqn:Hr.
  - rewrite decide_False by done. by rewrite step_raising, IH.
  - rewrite decide_True by done. simpl. apply IH.
Qed.

(** X6: entry-level fault isolation.  The entries whose processing
    raises have no influence on what the extractor returns: the result
    is that of the page without them. *)
Theorem extract_ignores_raising_entries page :
  extract_workflow_links urljoin page category_name
  = foldl (process_element urljoin category_name) []
      (filter (λ e, record_raises urljoin category_name e = false)
              (entries page)).
Proof. rewrite extract_foldl. apply foldl_step_filter. Qed.

Lemma all_chars_app p a b :
  all_chars p (a +:+ b) = all_chars p a && all_chars p b.
Proof.
  induction a as [|c a IH]; simpl; [done|]. by rewrite IH, andb_assoc.
Qed.

Lemma all_chars_impl (p q : ascii → bool) s :
  (∀ c, p c = true → q c = true) →
  all_chars p s = true → all_chars q s = true.
Proof.
  intros Hpq. induction s as [|c s IH]; simpl; [done|].
  intros [Hc Hs]%andb_true_iff. by rewrite (Hpq c Hc), IH.
Qed.

Lemma span_all_chars p s : all_chars p (Text.span p s).1 = true.
Proof.
  induction s as [|c s IH]; simpl; [done|].
  destruct (p c) eqn:Hc; [|done].
  destruct (Text.span p s) as [a b]. simpl in *. by rewrite Hc, IH.
Qed.

Lemma digit_not_slash c : Text.is_digit c = true → Text.not_slash c = true.
Proof.
  unfold Text.is_digit, Text.not_slash.
  destruct (Ascii.eqb_spec c "/") as [->|]; [done|done].
Qed.

Lemma re_search_at {A} (m : string → option A) s r :
  Text.re_search m s = Some r → ∃ s', m s' = Some r.
Proof.
  induction s as [|c s IH]; simpl.
  - destruct (m EmptyString) eqn:H0; [|done]. intros [= <-]. eauto.
  - destruct (m (String c s)) eqn:H0; [intros [= <-]; eauto|apply IH].
Qed.

Lemma slug_at_no_slash s g :
  Text.slug_at s = Some g → all_chars Text.not_slash g = true.
Proof.
  unfold Text.slug_at.
  destruct (Text.strip_prefix "/workflows/" s) as [rest|]; [|done].
  cbn [mbind option_bind].
  pose proof (span_all_chars Text.is_digit rest) as Hd.
  destruct (Text.span Text.is_digit rest) as [digits rest1]. cbn [fst] in Hd.
  destruct (Text.nonempty digits); [|done]. cbn [mbind option_bind].
  destruct (Text.strip_prefix "-" rest1) as [rest2|]; [|done].
  cbn [mbind option_bind].
  pose proof (span_all_chars Text.not_slash rest2) as Ht.
  destruct (Text.span Text.not_slash rest2) as [tail rest3]. cbn [fst] in *.
  destruct (Text.nonempty tail) as [t|] eqn:Hne; [|done].
  cbn [mbind option_bind]. intros [= <-].
  assert (t = tail) as -> by (destruct tail; simpl in Hne; congruence).
  rewrite !all_chars_app, Ht, andb_true_r.
  by rewrite (all_chars_impl _ _ _ digit_not_slash Hd).
Qed.

Lemma pretty_N_char_digit x : Text.is_digit (pretty_N_char x) = true.
Proof.
  destruct x as [|p]; [done|].
  destruct p as [[[[p|p|]|[p|p|]|]|[[p|p|]|[p|p|]|]|]
                |[[[p|p|]|[p|p|]|]|[[p|p|]|[p|p|]|]|]|]; done.
Qed.

Lemma pretty_N_go_digits x s :
  all_chars Text.is_digit s = true →
  all_chars Text.is_digit (pretty_N_go x s) = true.
Proof.
  revert s. induction (N.lt_wf_0 x) as [x _ IH]; intros s Hs.
  destruct (decide (x = 0)%N) as [->|Hx]; [done|].
  rewrite pretty_N_go_step by lia. apply IH.
  - apply N.div_lt; lia.
  - simpl. by rewrite pretty_N_char_digit.
Qed.

Lemma pretty_nat_digits (n : nat) : all_chars Text.is_digit (pretty n) = true.
Proof.
  unfold pretty, pretty_nat, pretty, pretty_N.
  case_decide; [done|]. by apply pretty_N_go_digits.
Qed.

(** What every record built by the extractor satisfies. *)
Lemma workflow_record_shape ws e w :
  workflow_record urljoin category_name ws e = Ret (Some w) →
  category w = category_name
  ∧ all_chars Text.not_slash (slug w) = true
  ∧ ∃ href, get_attribute e "href" = Ret (Some href)
            ∧ url w = urljoin BASE_URL href.
Proof.
  unfold workflow_record.
  destruct (get_attribute e "href") as [href|]; cbn [mbind Raises_bind];
    [|done].
  destruct (is_workflow_href href) eqn:Hh; [|done].
  destruct href as [h|]; [|done]. cbn [default].
  assert (Hslug : all_chars Text.not_slash
            match Text.re_search Text.slug_at h with
            | Some g => g
            | None => "workflow-" +:+ pretty (length ws)
            end = true).
  { destruct (Text.re_search Text.slug_at h) as [g|] eqn:Hg.
    - apply re_search_at in Hg as [s' Hs']. by eapply slug_at_no_slash.
    - rewrite all_chars_app.
      by rewrite (all_chars_impl _ _ _ digit_not_slash
                    (pretty_nat_digits (length ws))). }
  destruct (query_selector e title_selector) as [[te|]|];
    cbn [mbind Raises_bind]; [| |done].
  - destruct (inner_text te); cbn [mbind Raises_bind]; [|done].
    destruct (count_nodes e); cbn [mbind Raises_bind]; [|done].
    destruct (detect_price e price_selectors); cbn [mbind Raises_bind];
      [|done].
    destruct (detect_free e free_selectors); cbn [mbind Raises_bind]; [|done].
    intros [= <-]. cbn. split_and!; [done|done|by exists h].
  - destruct (count_nodes e); cbn [mbind Raises_bind]; [|done].
    destruct (detect_price e price_selectors); cbn [mbind Raises_bind];
      [|done].
    destruct (detect_free e free_selectors); cbn [mbind Raises_bind]; [|done].
    intros [= <-]. cbn. split_and!; [done|done|by exists h].
Qed.

Lemma foldl_step_Forall (P : Workflow → Prop) es ws :
  (∀ ws' e w, e ∈ es →
     workflow_record urljoin category_name ws' e = Ret (Some w) → P w) →
  Forall P ws → Forall P (foldl step1 ws es).
Proof.
  revert ws. induction es as [|e es IH]; intros ws HP Hws; [done|].
  simpl. apply IH.
  - intros ws' e' w He'. apply HP. by right.
  - destruct (step_cases urljoin category_name ws e)
      as [->|(w & Hrec & _ & ->)]; [done|].
    apply Forall_app. split; [done|]. apply Forall_singleton.
    eapply HP; [|done]. by left.
Qed.

(** X7: every item the extractor returns carries the category name
    it was called with, a slug without a slash (so that the name of its
    file is a single path component), and the URL obtained by joining
    the href of one of the entries of the page to the base URL. *)
Theorem extract_item_shape page w :
  w ∈ extract_workflow_links urljoin page category_name →
  category w = category_name
  ∧ all_chars Text.not_slash (slug w) = true
  ∧ ∃ element href,
      element ∈ entries page
      ∧ get_attribute element "href" = Ret (Some href)
      ∧ url w = urljoin BASE_URL href.
Proof.
  rewrite extract_foldl. intros Hw.
  assert (Hall : Forall
    (λ w, category w = category_name
          ∧ all_chars Text.not_slash (slug w) = true
          ∧ ∃ element href,
              element ∈ entries page
              ∧ get_attribute element "href" = Ret (Some href)
              ∧ url w = urljoin BASE_URL href)
    (foldl step1 [] (entries page))).
  { apply foldl_step_Forall; [|done].
    intros ws' e w' He Hrec.
    destruct (workflow_record_shape _ _ _ Hrec) as (? & ? & href & ? & ?).
    split_and!; [done|done|]. by exists e, href. }
  rewrite Forall_forall in Hall. by apply Hall.
Qed.

End ExtractorMore.

(** ** More on the Download Orchestrator *)

Lemma file_exists_read dir name d :
  file_exists dir name d = bool_decide (is_Some (read_file dir name d)).
Proof. done. Qed.

Lemma read_file_mkdir dir name dir' d :
  read_file dir name (mkdir_exist_ok dir' d) = read_file dir name d.
Proof.
  unfold mkdir_exist_ok, read_file. destruct (d !! dir') eqn:Hd; [done|].
  destruct (decide (dir' = dir)) as [->|Hne].
  - by rewrite lookup_insert_eq, Hd.
  - by rewrite lookup_insert_ne.
Qed.

Lemma read_file_write_same dir name text d :
  read_file dir name (write_file dir name text d) = Some text.
Proof.
  unfold read_file, write_file. rewrite lookup_insert_eq. simpl.
  by rewrite lookup_insert_eq.
Qed.

Lemma read_file_write_other dir name dir' name' text d :
  (dir, name) ≠ (dir', name') →
  read_file dir name (write_file dir' name' text d) = read_file dir name d.
Proof.
  intros Hne. unfold read_file, write_file.
  destruct (decide (dir' = dir)) as [->|Hd].
  - rewrite lookup_insert_eq. simpl.
    rewrite lookup_insert_ne by congruence.
    by destruct (d !! dir).
  - by rewrite lookup_insert_ne.
Qed.

Section DownloaderMore.

Variable JSON : Type.
Variable json_loads : string → Raises JSON.
Variable json_dump : JSON → string.

Local Abbreviation download1 :=
  (download_workflow_via_clipboard JSON json_loads json_dump).
Local Abbreviation download_all1 :=
  (download_items JSON json_loads json_dump).
Local Abbreviation download_batch1 :=
  (download_batch_immediately JSON json_loads json_dump).
Local Abbreviation download_one1 := (download_one JSON json_loads json_dump).

Lemma download_read_other self page w dir name :
  (dir, name) ≠ (category w, file_name w) →
  read_file dir name (download_dir (download1 self page w).2)
  = read_file dir name (download_dir self).
Proof.
  intros Hne. destruct (on_disk self w) eqn:He.
  { by rewrite download_existing. }
  destruct (download_missing JSON json_loads json_dump self page w He)
    as [[_ [->| ->]]|(ok & d' & -> & [->|[_ ->]])]; cbn; try done.
  - by rewrite read_file_mkdir.
  - by rewrite read_file_write_other, read_file_mkdir.
  - by rewrite read_file_mkdir.
Qed.

Lemma download_read_kept self page w dir name text :
  read_file dir name (download_dir self) = Some text →
  read_file dir name (download_dir (download1 self page w).2) = Some text.
Proof.
  intros Hr.
  destruct (decide ((dir, name) = (category w, file_name w))) as [[= -> ->]|Hne].
  - rewrite download_existing; [done|].
    unfold on_disk. rewrite file_exists_read, Hr.
    by apply bool_decide_eq_true_2.
  - by rewrite download_read_other.
Qed.

(** X8: a download never changes a file that is already there, and
    leaves alone every path but that of its own target. *)
Theorem download_touches_only_missing_target self page workflow dir name :
  let after :=
    download_dir
      (download_workflow_via_clipboard JSON json_loads json_dump self page
         workflow).2 in
  (∀ text, read_file dir name (download_dir self) = Some text →
           read_file dir name after = Some text)
  ∧ ((dir, name) ≠ (category workflow, file_name workflow) →
     read_file dir name after = read_file dir name (download_dir self)).
Proof.
  cbv zeta. split.
  - intros text. apply download_read_kept.
  - apply download_read_other.
Qed.

Lemma download_stats self page w :
  global_stats (download1 self page w).2 = global_stats self
  ∧ category_stats (download1 self page w).2 = category_stats self.
Proof.
  destruct (on_disk self w) eqn:He.
  { by rewrite download_existing. }
  by destruct (download_missing JSON json_loads json_dump self page w He)
    as [[_ [->| ->]]|(ok & d' & -> & _)].
Qed.

Lemma download_one_read self page c w :
  download_dir (download_one1 self page c w)
  = download_dir (download1 self page w).2.
Proof. unfold download_one. by destruct (download1 self page w).1 as [[]|]. Qed.

Lemma download_all_read_kept ws self (context : nat → Tab) bs c i dir name text :
  0 < bs →
  read_file dir name (download_dir self) = Some text →
  read_file dir name
    (download_dir (download_all1 self (context <$> seq 0 bs) bs c i ws).1.1)
  = Some text.
Proof.
  intros Hbs.
  apply (download_all_invariant JSON json_loads json_dump
           (λ s, read_file dir name (download_dir s) = Some text)); [done|].
  intros s page w _ Hs. rewrite download_one_read.
  by apply download_read_kept.
Qed.

Lemma download_all_read_other ws self (context : nat → Tab) bs c i dir name :
  0 < bs →
  (∀ w, w ∈ ws → (dir, name) ≠ (category w, file_name w)) →
  read_file dir name
    (download_dir (download_all1 self (context <$> seq 0 bs) bs c i ws).1.1)
  = read_file dir name (download_dir self).
Proof.
  intros Hbs Hne.
  apply (download_all_invariant JSON json_loads json_dump
           (λ s, read_file dir name (download_dir s)
                 = read_file dir name (download_dir self))); [done| |done].
  intros s page w Hw Hs. rewrite download_one_read, <- Hs.
  by apply download_read_other, Hne.
Qed.

(** X9: a batch keeps every file that was there with its text, and
    the only paths at which it can create a file are the targets
    [category/slug.json] of its items. *)
Theorem batch_touches_only_targets self (context : nat → Tab) workflows c
    dir name :
  let after :=
    download_dir
      (download_batch_immediately JSON json_loads json_dump self context
         workflows c).1 in
  (∀ text, read_file dir name (download_dir self) = Some text →
           read_file dir name after = Some text)
  ∧ ((∀ w, w ∈ workflows → (dir, name) ≠ (category w, file_name w)) →
     read_file dir name after = read_file dir name (download_dir self)).
Proof.
  cbv zeta. destruct (decide (workflows = [])) as [->|Hne]; [done|].
  rewrite (download_batch_unfold _ _ _ _ _ _ _ Hne). cbn [fst].
  pose proof (batch_size_pos workflows Hne) as Hbs. split.
  - intros text. by apply download_all_read_kept.
  - by apply download_all_read_other.
Qed.

Lemma stats_of_count_success c self :
  stats_of c (count_success c self)
  = mkCategoryStats (S (downloaded (stats_of c self)))
      (errors (stats_of c self)) (found (stats_of c self)).
Proof.
  unfold stats_of, count_success, init_category_stats. cbn.
  rewrite lookup_alter_eq.
  destruct (category_stats self !! c) as [st|] eqn:Hc.
  - by rewrite Hc.
  - by rewrite lookup_insert_eq.
Qed.

Lemma stats_of_count_error c self :
  stats_of c (count_error c self)
  = mkCategoryStats (downloaded (stats_of c self))
      (S (errors (stats_of c self))) (found (stats_of c self)).
Proof.
  unfold stats_of, count_error, init_category_stats. cbn.
  rewrite lookup_alter_eq.
  destruct (category_stats self !! c) as [st|] eqn:Hc.
  - by rewrite Hc.
  - by rewrite lookup_insert_eq.
Qed.

Lemma other_stats_count c c' self :
  c ≠ c' →
  category_stats (count_success c self) !! c' = category_stats self !! c'
  ∧ category_stats (count_error c self) !! c' = category_stats self !! c'.
Proof.
  intros Hne. unfold count_success, count_error, init_category_stats. cbn.
  rewrite !lookup_alter_ne by done.
  destruct (category_stats self !! c); [done|].
  by rewrite lookup_insert_ne.
Qed.

(** The counters after one turn of the item loop, by the outcome of
    its call. *)
Lemma download_one_stats self page c w :
  let r := (download1 self page w).1 in
  let up (b : bool) := if b then 1 else 0 in
  let s := up (bool_decide (r = Ret true)) in
  let f := up (bool_decide (r = Ret false)) in
  let g := global_stats self in
  let g' := global_stats (download_one1 self page c w) in
  total_workflows_downloaded g' = total_workflows_downloaded g + s
  ∧ total_errors g' = total_errors g + f
  ∧ total_workflows_found g' = total_workflows_found g
  ∧ categories_explored g' = categories_explored g
  ∧ subcategories_explored g' = subcategories_explored g
  ∧ stats_of c (download_one1 self page c w)
    = mkCategoryStats (downloaded (stats_of c self) + s)
        (errors (stats_of c self) + f) (found (stats_of c self))
  ∧ (∀ c', c ≠ c' →
       category_stats (download_one1 self page c w) !! c'
       = category_stats self !! c').
Proof.
  cbv zeta. destruct (download_stats self page w) as [Hg Hc].
  unfold download_one.
  assert (Hs1 : stats_of c (download1 self page w).2 = stats_of c self)
    by (unfold stats_of; by rewrite Hc).
  destruct (download1 self page w).1 as [[]|]; cbn [bool_decide].
  - rewrite bool_decide_eq_true_2, bool_decide_eq_false_2 by done.
    rewrite stats_of_count_success, Hs1.
    assert (Hoth : ∀ c', c ≠ c' →
              category_stats (count_success c (download1 self page w).2)
                !! c' = category_stats self !! c').
    { intros c' Hne.
      destruct (other_stats_count c c' (download1 self page w).2 Hne)
        as [-> _]. by rewrite Hc. }
    split_and!; [cbn; rewrite Hg; lia..|f_equal; lia|done].
  - rewrite bool_decide_eq_false_2, bool_decide_eq_true_2 by done.
    rewrite stats_of_count_error, Hs1.
    assert (Hoth : ∀ c', c ≠ c' →
              category_stats (count_error c (download1 self page w).2)
                !! c' = category_stats self !! c').
    { intros c' Hne.
      destruct (other_stats_count c c' (download1 self page w).2 Hne)
        as [_ ->]. by rewrite Hc. }
    split_and!; [cbn; rewrite Hg; lia..|f_equal; lia|done].
  - rewrite !bool_decide_eq_false_2 by done. rewrite Hs1, Hg, Hc.
    rewrite !Nat.add_0_r. split_and!; try done.
    by destruct (stats_of c self).
Qed.

Lemma download_all_stats ws self (context : nat → Tab) bs c i :
  0 < bs →
  let run := download_all1 self (context <$> seq 0 bs) bs c i ws in
  let g := global_stats self in
  let g' := global_stats run.1.1 in
  total_workflows_downloaded g'
  = total_workflows_downloaded g + successes run.1.2
  ∧ total_errors g' = total_errors g + failures run.1.2
  ∧ total_workflows_found g' = total_workflows_found g
  ∧ categories_explored g' = categories_explored g
  ∧ subcategories_explored g' = subcategories_explored g
  ∧ stats_of c run.1.1
    = mkCategoryStats (downloaded (stats_of c self) + successes run.1.2)
        (errors (stats_of c self) + failures run.1.2)
        (found (stats_of c self))
  ∧ (∀ c', c ≠ c' →
       category_stats run.1.1 !! c' = category_stats self !! c')
  ∧ successes run.1.2 + failures run.1.2 ≤ length ws
  ∧ (run.2 = Ret () ↔ successes run.1.2 + failures run.1.2 = length ws).
Proof.
  intros Hbs. cbv zeta. revert self i.
  induction ws as [|w ws IH]; intros self i.
  { unfold successes, failures. cbn. rewrite !Nat.add_0_r.
    split_and!; try done. by destruct (stats_of c self). }
  rewrite (download_all_cons _ _ _ _ _ _ _ _ _ _ Hbs). cbv zeta.
  set (page := context (i mod bs) i).
  destruct (download_one_stats self page c w)
    as (G1 & G2 & G3 & G4 & G5 & Gst & Goth).
  set (self1 := download_one1 self page c w) in *.
  destruct (download1 self page w).1 as [ok|] eqn:Hdl; cbn [fst snd].
  - destruct (IH self1 (S i))
      as (Hd & He & Hf & Hce & Hse & Hst & Hoth & Hle & Hret).
    set (rest := download_all1 self1 (context <$> seq 0 bs) bs c (S i) ws)
      in *.
    unfold successes, failures in *. rewrite !filter_cons. cbn [outcome].
    rewrite Hst, Gst. cbn [downloaded errors found length].
    destruct ok.
    + rewrite decide_True by done. rewrite decide_False by done.
      rewrite bool_decide_eq_true_2 in * by done.
      rewrite bool_decide_eq_false_2 in * by done.
      cbn [length].
      split_and!; try lia; [f_equal; lia| |].
      * intros c' Hne. by rewrite (Hoth c' Hne), Goth.
      * rewrite Hret. split; lia.
    + rewrite decide_False by done. rewrite decide_True by done.
      rewrite bool_decide_eq_false_2 in * by done.
      rewrite bool_decide_eq_true_2 in * by done.
      cbn [length].
      split_and!; try lia; [f_equal; lia| |].
      * intros c' Hne. by rewrite (Hoth c' Hne), Goth.
      * rewrite Hret. split; lia.
  - unfold successes, failures. rewrite !filter_cons. cbn [outcome].
    rewrite !decide_False by done. rewrite !filter_nil. cbn [length].
    rewrite !bool_decide_eq_false_2 in * by done.
    rewrite !Nat.add_0_r in *. rewrite Gst.
    split_and!; try done; lia.
Qed.

(** X10: the counters follow the calls of a batch: the downloads
    counted, globally and for the category, go up by the number of
    calls that returned success, the errors by the number of calls
    that returned failure, and nothing else in the statistics
    changes.  The two numbers add up to at most the size of the
    batch, and to the size of the batch exactly when the batch
    returns; a batch that is cut short by a call that raises counts
    neither that call nor the items after it. *)
Theorem batch_counts_outcomes self (context : nat → Tab) workflows c :
  let run :=
    download_batch_immediately JSON json_loads json_dump self context
      workflows c in
  let g := global_stats self in
  let g' := global_stats run.1 in
  total_workflows_downloaded g'
  = total_workflows_downloaded g + successes (attempts run.2)
  ∧ total_errors g' = total_errors g + failures (attempts run.2)
  ∧ total_workflows_found g' = total_workflows_found g
  ∧ categories_explored g' = categories_explored g
  ∧ subcategories_explored g' = subcategories_explored g
  ∧ stats_of c run.1
    = mkCategoryStats
        (downloaded (stats_of c self) + successes (attempts run.2))
        (errors (stats_of c self) + failures (attempts run.2))
        (found (stats_of c self))
  ∧ (∀ c', c ≠ c' → category_stats run.1 !! c' = category_stats self !! c')
  ∧ successes (attempts run.2) + failures (attempts run.2)
    ≤ length workflows
  ∧ (returned run.2 = Ret ()
     ↔ successes (attempts run.2) + failures (attempts run.2)
       = length workflows)
  ∧ ((∀ k i, paths_ok (context k i)) → returned run.2 = Ret ()).
Proof.
  cbv zeta. destruct (decide (workflows = [])) as [->|Hne].
  { unfold successes, failures. cbn. rewrite !Nat.add_0_r.
    split_and!; try done. by destruct (stats_of c self). }
  pose proof (download_batch_returns JSON json_loads json_dump self context
                workflows c) as Hret.
  rewrite (download_batch_unfold _ _ _ _ _ _ _ Hne) in *.
  cbn [fst snd attempts returned] in *.
  destruct (download_all_stats workflows self context
              (min 3 (length workflows)) c 0 (batch_size_pos _ Hne))
    as (? & ? & ? & ? & ? & ? & ? & ? & ?).
  by split_and!.
Qed.

End DownloaderMore.

(** ** More on the Pagination Driver *)

Section DriverMore.

Variable urljoin : string → string → string.
Variable JSON : Type.
Variable json_loads : string → Raises JSON.
Variable json_dump : JSON → string.
Variable site : Listing.
Variable category_name : string.

Local Abbreviation flush2 :=
  (flush JSON json_loads json_dump site category_name).
Local Abbreviation flush_rest2 :=
  (flush_rest JSON json_loads json_dump site category_name).
Local Abbreviation collect_new2 := (collect_new category_name).
Local Abbreviation loop_iteration2 :=
  (loop_iteration urljoin JSON json_loads json_dump site category_name).
Local Abbreviation run_loop2 :=
  (run_loop urljoin JSON json_loads json_dump site category_name).
Local Abbreviation scrape2 :=
  (scrape_category_workflows urljoin JSON json_loads json_dump site
     category_name).
Local Abbreviation step2 :=
  (traversal_step JSON json_loads json_dump site category_name).
Local Abbreviation start2 := (start category_name).
Local Abbreviation extracted :=
  (extracted urljoin site category_name).
Local Abbreviation extract2 :=
  (λ k, extract_workflow_links urljoin (view site k) category_name).

(** How a traversal ends, with what the steps of its loop keep. *)
Lemma scrape_result fuel s t :
  scrape2 fuel s = Some t →
  (goto_category site = Raise ∧ t = start2 s)
  ∨ ∃ t0 exit,
      run_loop2 fuel (start2 s) = Some (t0, exit)
      ∧ rtc step2 (start2 s) t0
      ∧ traversal_inv t0
      ∧ ((exit = Break ∧ t = flush_rest2 t0) ∨ (exit = Abort ∧ t = t0)).
Proof.
  intros Hs.
  destruct (scrape_cases _ _ _ _ _ _ _ _ _ Hs)
    as [?|[(t0 & Hr & ->)|Hr]]; [by left| |]; right.
  - exists t0, Break.
    pose proof (run_loop_steps _ _ _ _ _ _ _ _ _ _ Hr) as Hrtc.
    split_and!; [done|done| |by left].
    eapply (rtc_step_inv urljoin); [exact Hrtc|apply start_inv].
  - exists t, Abort.
    pose proof (run_loop_steps _ _ _ _ _ _ _ _ _ _ Hr) as Hrtc.
    split_and!; [done|done| |by right].
    eapply (rtc_step_inv urljoin); [exact Hrtc|apply start_inv].
Qed.

Lemma loop_iteration_continue t :
  (loop_iteration2 t).2 = Continue →
  load_more_pages (view site (pages_loaded t)) = true.
Proof.
  rewrite loop_iteration_eq. cbv zeta. cbn [pages_loaded].
  replace (S (pages_loaded t) - 1) with (pages_loaded t) by lia.
  case_match; [done|].
  destruct (_ && _); [done|].
  destruct (load_more_pages (view site (pages_loaded t))); [done|].
  by cbn.
Qed.

Lemma run_loop_stops_at fuel t t' exit k :
  load_more_pages (view site k) = false →
  pages_loaded t ≤ k →
  run_loop2 fuel t = Some (t', exit) →
  pages_loaded t' ≤ S k.
Proof.
  intros Hk. revert t. induction fuel as [|fuel IH]; intros t Hle; [done|].
  simpl.
  destruct (loop_iteration_pages_loaded urljoin JSON json_loads json_dump
              site category_name t) as (Hp & _).
  pose proof (loop_iteration_continue t) as Hc.
  destruct (loop_iteration2 t) as [t1 []]; cbn [fst snd] in *.
  - specialize (Hc eq_refl). apply IH.
    assert (pages_loaded t ≠ k)
      by (intros Heq; rewrite Heq in Hc; congruence).
    lia.
  - intros [= <- <-]. lia.
  - intros [= <- <-]. lia.
Qed.

(** X11: a traversal never reads past a listing page that shows no
    load-more control: if the page reached after [k] clicks has none
    (or it cannot be clicked), at most the [k + 1] pages up to it are
    processed. *)
Theorem traversal_stops_without_load_more fuel s t k :
  load_more_pages (view site k) = false →
  scrape_category_workflows urljoin JSON json_loads json_dump site
    category_name fuel s = Some t →
  pages_loaded t ≤ S k.
Proof.
  intros Hk Hs.
  destruct (scrape_result _ _ _ Hs)
    as [[_ ->]|(t0 & exit & Hr & _ & _ & [[_ ->]|[_ ->]])].
  - simpl. lia.
  - destruct (flush_rest_fields JSON json_loads json_dump site category_name
                t0) as (_ & _ & -> & _).
    eapply run_loop_stops_at; [done| |done]. simpl. lia.
  - eapply run_loop_stops_at; [done| |done]. simpl. lia.
Qed.

Lemma extract_extracted k : Forall extracted (extract2 k).
Proof.
  apply Forall_forall. intros w Hw. split; [|split; [|by exists k]].
  - pose proof (foldl_step_acceptable urljoin category_name
                  (entries (view site k)) [] (Forall_nil_2 _)) as Ha.
    rewrite <- extract_foldl in Ha. rewrite Forall_forall in Ha.
    by apply Ha.
  - pose proof (foldl_step_Forall urljoin category_name
                  (λ w, category w = category_name)
                  (entries (view site k)) []) as Hc.
    rewrite <- extract_foldl in Hc.
    assert (Hall : Forall (λ w, category w = category_name) (extract2 k)).
    { apply Hc; [|done]. intros ws' e w' _ Hrec.
      by destruct (workflow_record_shape _ _ _ _ _ Hrec) as [? _]. }
    rewrite Forall_forall in Hall. by apply Hall.
Qed.

Lemma collect_new_extracted ws t :
  Forall extracted ws → Forall extracted (all_workflows t) →
  Forall extracted (all_workflows (collect_new2 ws t)).
Proof.
  revert t. induction ws as [|w ws IH]; intros t Hws Ht; [done|].
  apply Forall_cons in Hws as [Hw Hws]. simpl.
  case_match; [|by apply IH].
  assert (Forall extracted (all_workflows (accept_new category_name w t))).
  { simpl. apply Forall_app. split; [done|]. by apply Forall_singleton. }
  case_match; [done|]. by apply IH.
Qed.

Lemma loop_iteration_extracted t :
  Forall extracted (all_workflows t) →
  Forall extracted (all_workflows (loop_iteration2 t).1).
Proof.
  intros Ht. rewrite loop_iteration_eq. cbv zeta.
  set (t1 := mkTraversal _ _ _ (S (pages_loaded t)) _ _).
  set (t2 := collect_new2 _ t1).
  assert (H2 : Forall extracted (all_workflows t2)).
  { apply collect_new_extracted; [apply extract_extracted|done]. }
  destruct (_ <=? length (all_workflows t2)); [done|].
  set (t3 := if _ <=? length (pending_downloads t2) then (flush2 t2).1
             else t2).
  assert (H3 : Forall extracted (all_workflows t3)).
  { unfold t3. destruct (_ <=? _); [|done].
    by destruct (flush_fields JSON json_loads json_dump site category_name
                   t2) as (-> & _). }
  destruct (_ && _); [exact H3|].
  destruct (negb _); [exact H3|]. destruct (_ <? _); exact H3.
Qed.

Lemma run_loop_extracted fuel t t' exit :
  Forall extracted (all_workflows t) →
  run_loop2 fuel t = Some (t', exit) →
  Forall extracted (all_workflows t').
Proof.
  revert t. induction fuel as [|fuel IH]; intros t Ht; [done|]. simpl.
  pose proof (loop_iteration_extracted t Ht) as H1.
  destruct (loop_iteration2 t) as [t1 []]; cbn [fst] in H1.
  - by apply IH.
  - by intros [= <- <-].
  - by intros [= <- <-].
Qed.

Lemma scrape_extracted fuel s t :
  scrape2 fuel s = Some t → Forall extracted (all_workflows t).
Proof.
  intros Hs.
  destruct (scrape_result _ _ _ Hs)
    as [[_ ->]|(t0 & exit & Hr & _ & _ & [[_ ->]|[_ ->]])].
  - apply Forall_nil_2.
  - destruct (flush_rest_fields JSON json_loads json_dump site
                category_name t0) as (-> & _).
    eapply run_loop_extracted; [|exact Hr]. apply Forall_nil_2.
  - eapply run_loop_extracted; [|exact Hr]. apply Forall_nil_2.
Qed.

(** X12: whatever a traversal has accepted, and so whatever it hands
    to the Download Orchestrator, was returned by the extractor for one
    of the pages of the listing: it has at least [MIN_NODES] nodes, no
    price, the free flag, and the category name of the traversal. *)
Theorem traversal_accepts_only_extracted fuel s t w :
  scrape_category_workflows urljoin JSON json_loads json_dump site
    category_name fuel s = Some t →
  w ∈ all_workflows t →
  ((MIN_NODES ≤ nodes w)%N ∧ has_price w = false ∧ is_free w = true)
  ∧ category w = category_name
  ∧ ∃ k, w ∈ extract_workflow_links urljoin (view site k) category_name.
Proof.
  intros Hs Hw. pose proof (scrape_extracted _ _ _ Hs) as Hall.
  rewrite Forall_forall in Hall. by apply Hall.
Qed.

(** *** The counters along a traversal *)

Local Abbreviation batch2 :=
  (download_batch_immediately JSON json_loads json_dump).

Lemma flush_self t :
  self (flush2 t).1
  = (batch2 (self t) (batch_tabs site (length (batches t)))
       (pending_downloads t) category_name).1.
Proof.
  unfold flush. destruct (batch2 _ _ _ _) as [s report].
  by destruct (returned report).
Qed.

Lemma flush_rest_self t :
  self (flush_rest2 t)
  = (batch2 (self t) (batch_tabs site (length (batches t)))
       (pending_downloads t) category_name).1.
Proof.
  unfold flush_rest. destruct (pending_downloads t) as [|w ws]; [done|].
  by destruct (batch2 _ _ _ _) as [s report].
Qed.

Lemma count_keeps_key c self :
  is_Some (category_stats self !! c) →
  is_Some (category_stats (count_success c self) !! c)
  ∧ is_Some (category_stats (count_error c self) !! c).
Proof.
  intros [st Hst]. unfold count_success, count_error, init_category_stats.
  cbn. rewrite Hst, !lookup_alter_eq, Hst. split; by eexists.
Qed.

Lemma download_all_keeps_key ws self (context : nat → Tab) bs c i :
  0 < bs →
  is_Some (category_stats self !! c) →
  is_Some
    (category_stats
       (download_items JSON json_loads json_dump self (context <$> seq 0 bs)
          bs c i ws).1.1 !! c).
Proof.
  intros Hbs.
  apply (download_all_invariant JSON json_loads json_dump
           (λ s, is_Some (category_stats s !! c))); [done|].
  intros s page w _ Hk. unfold download_one.
  destruct (download_stats JSON json_loads json_dump s page w) as [_ Hc].
  rewrite <- Hc in Hk.
  destruct (count_keeps_key c _ Hk) as [H1 H2].
  by destruct (download_workflow_via_clipboard _ _ _ _ _ _).1 as [[]|].
Qed.

(** A batch, as the counters see it: it counts at most its items,
    and all of them when the calls in front of the [try] return. *)
Lemma batch_totals self (context : nat → Tab) ws c :
  let g := global_stats self in
  let g' := global_stats (batch2 self context ws c).1 in
  let st := stats_of c self in
  let st' := stats_of c (batch2 self context ws c).1 in
  total_workflows_found g' = total_workflows_found g
  ∧ total_workflows_downloaded g + total_errors g
    ≤ total_workflows_downloaded g' + total_errors g'
    ≤ total_workflows_downloaded g + total_errors g + length ws
  ∧ found st' = found st
  ∧ downloaded st + errors st
    ≤ downloaded st' + errors st'
    ≤ downloaded st + errors st + length ws
  ∧ categories_explored g' = categories_explored g
  ∧ subcategories_explored g' = subcategories_explored g
  ∧ (∀ c', c ≠ c' →
       category_stats (batch2 self context ws c).1 !! c'
       = category_stats self !! c')
  ∧ (is_Some (category_stats self !! c) →
     is_Some (category_stats (batch2 self context ws c).1 !! c))
  ∧ ((∀ k i, paths_ok (context k i)) →
     total_workflows_downloaded g' + total_errors g'
     = total_workflows_downloaded g + total_errors g + length ws
     ∧ downloaded st' + errors st'
       = downloaded st + errors st + length ws).
Proof.
  cbv zeta. destruct (decide (ws = [])) as [->|Hne].
  { cbn. split_and!; try done; lia. }
  rewrite (download_batch_unfold _ _ _ _ _ _ _ Hne). cbn [fst].
  pose proof (batch_size_pos ws Hne) as Hbs.
  destruct (download_all_stats JSON json_loads json_dump ws self context
              (min 3 (length ws)) c 0 Hbs)
    as (Hd & He & Hf & Hce & Hse & Hst & Hoth & Hle & Hret).
  rewrite Hst. cbn [downloaded errors found].
  split_and!; try done; try lia.
  - by apply download_all_keeps_key.
  - intros Hok.
    pose proof (download_all_returns JSON json_loads json_dump ws self
                  context (min 3 (length ws)) c 0 Hbs Hok) as Hr.
    apply Hret in Hr. lia.
Qed.

Lemma count_found_stats c s :
  is_Some (category_stats s !! c) →
  found (stats_of c (count_found c s)) = S (found (stats_of c s))
  ∧ downloaded (stats_of c (count_found c s)) = downloaded (stats_of c s)
  ∧ errors (stats_of c (count_found c s)) = errors (stats_of c s)
  ∧ is_Some (category_stats (count_found c s) !! c)
  ∧ (∀ c', c ≠ c' →
       category_stats (count_found c s) !! c' = category_stats s !! c').
Proof.
  intros [st Hst]. unfold stats_of, count_found. cbn.
  rewrite lookup_alter_eq, Hst. cbn. split_and!; try done.
  intros c' Hne. by rewrite lookup_alter_ne.
Qed.

Lemma start_accounted s :
  accounted category_name s (start2 s) ∧ attempted category_name s (start2 s).
Proof.
  unfold accounted, attempted, stats_of, start, init_category_stats. cbn.
  destruct (category_stats s !! category_name) as [st|] eqn:Hc.
  - rewrite Hc. cbn. split_and!; try done; lia.
  - rewrite lookup_insert_eq. cbn. split_and!; try done; try lia.
    intros c' Hne. by rewrite lookup_insert_ne.
Qed.

(** Handing the buffer over, inside the loop or after it. *)
Lemma handover_accounted s t (t' : Traversal) :
  accounted category_name s t →
  all_workflows t' = all_workflows t →
  concat (batches t') = concat (batches t) ++ pending_downloads t →
  self t'
  = (batch2 (self t) (batch_tabs site (length (batches t)))
       (pending_downloads t) category_name).1 →
  accounted category_name s t'
  ∧ ((∀ b k i, paths_ok (batch_tabs site b k i)) →
     attempted category_name s t → attempted category_name s t').
Proof.
  intros (Hk & Hf & Hd & Hcf & Hcd & Hce & Hse & Hoth) Ha Hbs Hself.
  destruct (batch_totals (self t) (batch_tabs site (length (batches t)))
              (pending_downloads t) category_name)
    as (Bf & Bd & Bcf & Bcd & Bce & Bse & Both & Bk & Bex).
  unfold accounted, attempted. rewrite Ha, Hbs, Hself, length_app.
  split.
  - split_and!; try lia; [by apply Bk|].
    intros c' Hne. by rewrite Both, Hoth.
  - intros Hok [Hg Hc]. destruct (Bex (Hok _)) as [Eg Ec]. lia.
Qed.

Lemma step_accounted s t t' :
  step2 t t' →
  accounted category_name s t →
  accounted category_name s t'
  ∧ ((∀ b k i, paths_ok (batch_tabs site b k i)) →
     attempted category_name s t → attempted category_name s t').
Proof.
  intros Hstep Hacc. destruct Hstep as [t|t w Hs Hl|t Hb].
  - done.
  - destruct Hacc as (Hk & Hf & Hd & Hcf & Hcd & Hce & Hse & Hoth).
    destruct (count_found_stats category_name (self t) Hk)
      as (Gf & Gd & Ge & Gk & Goth).
    unfold accounted, attempted.
    cbn [self all_workflows batches accept_new].
    rewrite Gf, Gd, Ge, length_app. cbn [length]. split.
    + split_and!; try done; try lia; try (cbn; lia).
      intros c' Hne. by rewrite Goth, Hoth.
    + intros _ [? ?]. split; [cbn; lia|lia].
  - destruct (flush_fields JSON json_loads json_dump site category_name t)
      as (Ha & _ & _ & Hbs & _).
    apply handover_accounted; [done|done| |apply flush_self].
    rewrite Hbs, concat_app. cbn. by rewrite app_nil_r.
Qed.

Lemma rtc_step_accounted s t t' :
  rtc step2 t t' →
  accounted category_name s t →
  accounted category_name s t'
  ∧ ((∀ b k i, paths_ok (batch_tabs site b k i)) →
     attempted category_name s t → attempted category_name s t').
Proof.
  induction 1 as [t|t t1 t2 Hstep _ IH]; [done|]. intros Hacc.
  destruct (step_accounted s _ _ Hstep Hacc) as [H1 E1].
  destruct (IH H1) as [H2 E2]. split; [done|]. auto.
Qed.

(** At the end of a traversal every accepted item has been handed
    over, and is accounted for. *)
Lemma scrape_accounted fuel s t :
  scrape2 fuel s = Some t →
  concat (batches t) = all_workflows t
  ∧ accounted category_name s t
  ∧ ((∀ b k i, paths_ok (batch_tabs site b k i)) →
     attempted category_name s t).
Proof.
  intros Hs.
  destruct (scrape_partition _ _ _ _ _ _ _ _ _ Hs) as [Hall _].
  split; [done|].
  destruct (start_accounted s) as [Hacc0 Hatt0].
  destruct (scrape_result _ _ _ Hs)
    as [[_ ->]|(t0 & exit & _ & Hrtc & _ & [[_ ->]|[_ ->]])].
  - split; [done|]. by intros _.
  - destruct (rtc_step_accounted s _ _ Hrtc Hacc0) as [Hacc Hatt].
    destruct (flush_rest_fields JSON json_loads json_dump site category_name
                t0) as (Ha & _ & _ & _ & Hbs).
    destruct (handover_accounted s t0 (flush_rest2 t0) Hacc Ha)
      as [Hacc' Hatt']; [|apply flush_rest_self|].
    { rewrite Hbs, concat_app. f_equal.
      destruct (decide (pending_downloads t0 = [])) as [->|_]; [done|].
      cbn. by rewrite app_nil_r. }
    split; [done|]. auto.
  - destruct (rtc_step_accounted s _ _ Hrtc Hacc0) as [Hacc Hatt].
    split; [done|]. auto.
Qed.

(** X13: a traversal counts every item it accepts as found, for the
    run and for the category, and counts as downloads and errors no
    more than it found: a batch that is cut short by a [mkdir] or an
    [exists] that raises leaves items without a count.  When those
    calls return, downloads and errors together grow by the number of
    accepted items, and counters that add up before the traversal add
    up after it.  The statistics of the other categories are left
    alone.  (The tabs of a batch are taken to open.) *)
Theorem traversal_counts_every_item fuel s t :
  scrape_category_workflows urljoin JSON json_loads json_dump site
    category_name fuel s = Some t →
  let n := length (all_workflows t) in
  let g := global_stats s in
  let g' := global_stats (self t) in
  let c := stats_of category_name s in
  let c' := stats_of category_name (self t) in
  total_workflows_found g' = total_workflows_found g + n
  ∧ found c' = found c + n
  ∧ total_workflows_downloaded g + total_errors g
    ≤ total_workflows_downloaded g' + total_errors g'
    ≤ total_workflows_downloaded g + total_errors g + n
  ∧ downloaded c + errors c
    ≤ downloaded c' + errors c'
    ≤ downloaded c + errors c + n
  ∧ (∀ other, category_name ≠ other →
       category_stats (self t) !! other = category_stats s !! other)
  ∧ (settled s → settled (self t))
  ∧ ((∀ b k i, paths_ok (batch_tabs site b k i)) →
     total_workflows_downloaded g' + total_errors g'
     = total_workflows_downloaded g + total_errors g + n
     ∧ downloaded c' + errors c' = downloaded c + errors c + n
     ∧ (balanced s → balanced (self t))).
Proof.
  intros Hs. cbv zeta.
  destruct (scrape_accounted _ _ _ Hs)
    as (Hall & (Hk & Hf & Hd & Hcf & Hcd & Hce & Hse & Hoth) & Hex).
  rewrite Hall in Hd, Hcd. destruct Hd as [Hd1 Hd2], Hcd as [Hc1 Hc2].
  split_and!; try done.
  - unfold settled. lia.
  - intros Hok. destruct (Hex Hok) as [Eg Ec]. rewrite Hall in Eg, Ec.
    split_and!; [done|done|]. unfold balanced. lia.
Qed.

(** *** The disk along a traversal *)

Lemma batch_read_kept self (context : nat → Tab) ws c dir name text :
  read_file dir name (download_dir self) = Some text →
  read_file dir name (download_dir (batch2 self context ws c).1) = Some text.
Proof.
  destruct (decide (ws = [])) as [->|Hne]; [done|].
  rewrite (download_batch_unfold _ _ _ _ _ _ _ Hne). cbn [fst].
  by apply download_all_read_kept, batch_size_pos.
Qed.

Lemma batch_read_other self (context : nat → Tab) ws c dir name :
  (∀ w, w ∈ ws → (dir, name) ≠ (category w, file_name w)) →
  read_file dir name (download_dir (batch2 self context ws c).1)
  = read_file dir name (download_dir self).
Proof.
  destruct (decide (ws = [])) as [->|Hne]; [done|].
  rewrite (download_batch_unfold _ _ _ _ _ _ _ Hne). cbn [fst].
  by apply download_all_read_other, batch_size_pos.
Qed.

Lemma handover_files_kept s t (t' : Traversal) :
  traversal_inv t → files_kept s t →
  all_workflows t' = all_workflows t →
  self t'
  = (batch2 (self t) (batch_tabs site (length (batches t)))
       (pending_downloads t) category_name).1 →
  files_kept s t'.
Proof.
  intros (Hsub & _) Hkept Ha Hself dir name.
  destruct (Hkept dir name) as [Hk Ho]. rewrite Hself, Ha. split.
  - intros text Hr. by apply batch_read_kept, Hk.
  - intros Hne. rewrite batch_read_other; [by apply Ho|].
    intros w Hw. apply Hne. by apply Hsub.
Qed.

Lemma rtc_step_files_kept s t :
  rtc step2 (start2 s) t → files_kept s t.
Proof.
  revert t. apply (rtc_ind_r (R := step2) (files_kept s));
    [by intros dir name|].
  intros t t' Hrtc Hstep IH.
  pose proof (rtc_step_inv urljoin _ _ _ _ _ _ _ Hrtc (start_inv _ s))
    as Hinv.
  destruct Hstep as [t|t w Hs Hl|t Hb].
  - exact IH.
  - intros dir name. destruct (IH dir name) as [Hk Ho]. split; [exact Hk|].
    intros Hne. apply Ho. intros w' Hw'. apply Hne.
    cbn. apply elem_of_app. by left.
  - destruct (flush_fields JSON json_loads json_dump site category_name t)
      as (Ha & _).
    eapply handover_files_kept; [exact Hinv|exact IH|exact Ha|].
    apply flush_self.
Qed.

(** X14: a traversal keeps every file that was on the disk with its
    text; a file it creates is the target [slug.json] of an item it
    accepted, inside the directory of its own category. *)
Theorem traversal_writes_only_its_targets fuel s t dir name :
  scrape_category_workflows urljoin JSON json_loads json_dump site
    category_name fuel s = Some t →
  (∀ text, read_file dir name (download_dir s) = Some text →
           read_file dir name (download_dir (self t)) = Some text)
  ∧ ((∀ w, w ∈ all_workflows t → name ≠ file_name w) →
     read_file dir name (download_dir (self t))
     = read_file dir name (download_dir s))
  ∧ (dir ≠ category_name →
     read_file dir name (download_dir (self t))
     = read_file dir name (download_dir s)).
Proof.
  intros Hs. pose proof (scrape_extracted _ _ _ Hs) as Hex.
  assert (Hkept : files_kept s t).
  { destruct (scrape_result _ _ _ Hs)
      as [[_ ->]|(t0 & exit & _ & Hrtc & Hinv & [[_ ->]|[_ ->]])].
    - by intros ? ?.
    - destruct (flush_rest_fields JSON json_loads json_dump site
                  category_name t0) as (Ha & _).
      eapply handover_files_kept;
        [exact Hinv|by apply rtc_step_files_kept|exact Ha|].
      apply flush_rest_self.
    - by apply rtc_step_files_kept. }
  destruct (Hkept dir name) as [Hk Ho].
  rewrite Forall_forall in Hex.
  split_and!; [exact Hk| |].
  - intros Hne. apply Ho. intros w Hw [= _ Hn]. by apply (Hne w).
  - intros Hne. apply Ho. intros w Hw [= Hd _].
    destruct (Hex w Hw) as (_ & Hc & _). congruence.
Qed.

End DriverMore.

(** ** More on the Traversal Controller *)

Lemma scraped_app evs more : scraped (evs ++ more) = scraped evs ++ scraped more.
Proof. apply omap_app. Qed.

Section ControllerMore.

Variable scrape : Scraper → Category → Scraper * Raises unit.

Lemma scrape_each_scraped units s :
  scraped (scrape_each scrape s units).2 `prefix_of` units
  ∧ ((scrape_each scrape s units).1.2 = Ret () →
     scraped (scrape_each scrape s units).2 = units).
Proof.
  revert s. induction units as [|c units IH]; intros s; simpl; [done|].
  destruct (scrape s c) as [s1 [[]|]]; simpl.
  - destruct (IH s1) as [Hp He].
    destruct (scrape_each scrape s1 units) as [[s2 r] evs]. simpl in *.
    split; [by apply prefix_cons|]. intros Hr. by rewrite He.
  - split; [|done]. apply prefix_cons, prefix_nil.
Qed.

Lemma process_category_scraped s c :
  scraped (process_category scrape s c).2 `prefix_of` units_of c
  ∧ ((process_category scrape s c).1.2 = Ret () →
     scraped (process_category scrape s c).2 = units_of c).
Proof.
  unfold process_category, units_of.
  destruct (discover_subcategories c); apply scrape_each_scraped.
Qed.

Lemma process_categories_scraped cs s :
  scraped (process_categories scrape s cs).2
    `prefix_of` concat (units_of <$> cs)
  ∧ ((process_categories scrape s cs).1.2 = Ret () →
     scraped (process_categories scrape s cs).2 = concat (units_of <$> cs)).
Proof.
  revert s. induction cs as [|c cs IH]; intros s; simpl; [done|].
  destruct (process_category_scraped s c) as [Hp He].
  destruct (process_category scrape s c) as [[s1 [[]|]] evs]; simpl in *.
  - destruct (IH s1) as [Hp' He'].
    destruct (process_categories scrape s1 cs) as [[s2 r] more]. simpl in *.
    rewrite scraped_app, He by done. split.
    + by apply prefix_app.
    + intros Hr. by rewrite He'.
  - split; [|done]. by apply prefix_app_r.
Qed.

(** X15: the controller traverses the units of the main categories in
    order, the subcategories of a category in place of the category
    itself when it has any, and stops at the first call that lets an
    exception escape; a run without a critical error has traversed
    every unit, once. *)
Theorem controller_traverses_units_in_order s main_categories :
  let run := scrape_all_categories_comprehensively scrape s main_categories in
  scraped run.2 `prefix_of` concat (units_of <$> main_categories)
  ∧ (EvCriticalError ∉ run.2 →
     scraped run.2 = concat (units_of <$> main_categories)).
Proof.
  cbv zeta. unfold scrape_all_categories_comprehensively.
  destruct main_categories as [|c cs]; [done|].
  set (all := c :: cs).
  destruct (process_categories_scraped all
              (set_categories_explored (length all) s)) as [Hp He].
  destruct (process_categories scrape _ all) as [[s1 [[]|]] evs];
    cbn [fst snd] in *; rewrite scraped_app; cbn; rewrite app_nil_r.
  - split; [done|]. intros _. by apply He.
  - split; [done|]. intros Hno. destruct Hno.
    apply elem_of_app; right. by left.
Qed.

(** What every traversal call and the controller's own updates keep,
    the controller keeps. *)
Lemma scrape_each_preserves (P : Scraper → Prop) units s :
  (∀ s c, P s → P (scrape s c).1) →
  P s → P (scrape_each scrape s units).1.1.
Proof.
  intros Hs. revert s. induction units as [|c units IH]; intros s HP; [done|].
  simpl. specialize (Hs s c HP).
  destruct (scrape s c) as [s1 [[]|]]; simpl in *; [|done].
  specialize (IH s1 Hs).
  by destruct (scrape_each scrape s1 units) as [[s2 r] evs].
Qed.

Lemma process_categories_preserves (P : Scraper → Prop) cs s :
  (∀ s c, P s → P (scrape s c).1) →
  (∀ n s, P s → P (add_subcategories_explored n s)) →
  P s → P (process_categories scrape s cs).1.1.
Proof.
  intros Hs Ha. revert s. induction cs as [|c cs IH]; intros s HP; [done|].
  simpl.
  assert (H1 : P (process_category scrape s c).1.1).
  { unfold process_category.
    destruct (discover_subcategories c);
      apply scrape_each_preserves; auto. }
  destruct (process_category scrape s c) as [[s1 [[]|]] evs]; simpl in *;
    [|done].
  specialize (IH s1 H1).
  by destruct (process_categories scrape s1 cs) as [[s2 r] more].
Qed.

Lemma scrape_each_subcategories units s :
  (∀ s c, subcategories_explored (global_stats (scrape s c).1)
          = subcategories_explored (global_stats s)) →
  subcategories_explored (global_stats (scrape_each scrape s units).1.1)
  = subcategories_explored (global_stats s).
Proof.
  intros Hs.
  apply (scrape_each_preserves
           (λ s', subcategories_explored (global_stats s')
                  = subcategories_explored (global_stats s))); [|done].
  intros s' c' <-. apply Hs.
Qed.

Lemma process_categories_subcategories cs s :
  (∀ s c, subcategories_explored (global_stats (scrape s c).1)
          = subcategories_explored (global_stats s)) →
  (process_categories scrape s cs).1.2 = Ret () →
  subcategories_explored (global_stats (process_categories scrape s cs).1.1)
  = subcategories_explored (global_stats s)
    + sum_list ((λ c, length (discover_subcategories c)) <$> cs).
Proof.
  intros Hs. revert s. induction cs as [|c cs IH]; intros s; simpl; [lia|].
  assert (H1 : subcategories_explored
                 (global_stats (process_category scrape s c).1.1)
               = subcategories_explored (global_stats s)
                 + length (discover_subcategories c)).
  { unfold process_category.
    destruct (discover_subcategories c) as [|d ds];
      rewrite scrape_each_subcategories by done; [simpl; lia|done]. }
  destruct (process_category scrape s c) as [[s1 [[]|]] evs]; simpl in *;
    [|done].
  specialize (IH s1).
  destruct (process_categories scrape s1 cs) as [[s2 r] more]. simpl in *.
  intros Hr. rewrite IH, H1 by done. symmetry. apply Nat.add_assoc.
Qed.

End ControllerMore.

(** ** The whole run *)

Section RunFacts.

Variable urljoin : string → string → string.
Variable JSON : Type.
Variable json_loads : string → Raises JSON.
Variable json_dump : JSON → string.
Variable home : Home.
Variable sites : Category → Listing.

Local Abbreviation traverse' :=
  (traverse urljoin JSON json_loads json_dump sites).
Local Abbreviation cats := (discover_main_categories urljoin home).

(** A traversal call of the controller returns. *)
Lemma traverse_returns s c : (traverse' s c).2 = Ret ().
Proof.
  unfold traverse.
  destruct (pagination_terminates urljoin JSON json_loads json_dump
              (sites c) (cat_name c) s 31) as (t & -> & _); [lia|done].
Qed.

Lemma traverse_stats s c :
  (settled s → settled (traverse' s c).1)
  ∧ categories_explored (global_stats (traverse' s c).1)
    = categories_explored (global_stats s)
  ∧ subcategories_explored (global_stats (traverse' s c).1)
    = subcategories_explored (global_stats s)
  ∧ ((∀ b k i, paths_ok (batch_tabs (sites c) b k i)) →
     balanced s → balanced (traverse' s c).1).
Proof.
  unfold traverse.
  destruct (scrape_category_workflows _ _ _ _ _ _ _ _) as [t|] eqn:Hs;
    [|done].
  destruct (scrape_accounted _ _ _ _ _ _ _ _ _ Hs)
    as (Hall & (Hk & Hf & Hd & Hcf & Hcd & Hce & Hse & Hoth) & Hex).
  rewrite Hall in Hd. cbn [fst]. split_and!; [|done|done|].
  - unfold settled. lia.
  - intros Hok. destruct (Hex Hok) as [Eg _]. rewrite Hall in Eg.
    unfold balanced. lia.
Qed.

Lemma scrape_each_returns units s :
  (scrape_each traverse' s units).1.2 = Ret ().
Proof.
  revert s. induction units as [|c units IH]; intros s; simpl; [done|].
  pose proof (traverse_returns s c) as Hr.
  destruct (traverse' s c) as [s1 r]. simpl in Hr. subst r.
  specialize (IH s1).
  by destruct (scrape_each traverse' s1 units) as [[s2 r] evs].
Qed.

Lemma process_categories_returns cs s :
  (process_categories traverse' s cs).1.2 = Ret ().
Proof.
  revert s. induction cs as [|c cs IH]; intros s; simpl; [done|].
  assert (H1 : (process_category traverse' s c).1.2 = Ret ()).
  { unfold process_category.
    destruct (discover_subcategories c); apply scrape_each_returns. }
  destruct (process_category traverse' s c) as [[s1 r] evs]. simpl in H1.
  subst r. specialize (IH s1).
  by destruct (process_categories traverse' s1 cs) as [[s2 r] more].
Qed.

(** X16: the counters of the final report: if downloads and errors
    did not exceed the items found when the run started, they do not
    in the statistics reported, and they make up the items found when
    they did at the start and no [mkdir] or [exists] in front of the
    [try] of a download raised during the run; the categories
    explored are the main categories discovered, the subcategories
    explored those of all of them.  (The tabs of a batch are taken to
    open.) *)
Theorem run_report_adds_up s g :
  settled s →
  EvFinalStatistics g
    ∈ (run_scraper urljoin JSON json_loads json_dump home sites s).2 →
  total_workflows_downloaded g + total_errors g ≤ total_workflows_found g
  ∧ categories_explored g = length (discover_main_categories urljoin home)
  ∧ subcategories_explored g
    = subcategories_explored (global_stats s)
      + sum_list
          ((λ c, length (discover_subcategories c))
             <$> discover_main_categories urljoin home)
  ∧ ((∀ c b k i, paths_ok (batch_tabs (sites c) b k i)) →
     balanced s →
     total_workflows_downloaded g + total_errors g
     = total_workflows_found g).
Proof.
  intros Hb. unfold run_scraper, scrape_all_categories_comprehensively.
  destruct cats as [|c cs] eqn:Hcats.
  { intros Hg. repeat (apply elem_of_cons in Hg as [Hg|Hg]; [done|]).
    by apply elem_of_nil in Hg. }
  set (all := c :: cs). set (s0 := set_categories_explored (length all) s).
  pose proof (process_categories_events traverse' all s0) as Hevs.
  pose proof (process_categories_preserves traverse' settled all s0
                (λ s c, proj1 (traverse_stats s c))
                (λ n s H, H) Hb) as Hset.
  assert (Hbal : (∀ c b k i, paths_ok (batch_tabs (sites c) b k i)) →
            balanced s →
            balanced (process_categories traverse' s0 all).1.1).
  { intros Hok Hs.
    apply (process_categories_preserves traverse' balanced); [| |done].
    - intros s' c' Hs'.
      by apply (proj2 (proj2 (proj2 (traverse_stats s' c')))).
    - by intros n s' Hs'. }
  pose proof (process_categories_preserves traverse'
                (λ s', categories_explored (global_stats s') = length all)
                all s0) as Hcat.
  pose proof (process_categories_subcategories traverse' all s0
                (λ s c, proj1 (proj2 (proj2 (traverse_stats s c)))))
    as Hsub.
  destruct (process_categories traverse' s0 all) as [[s1 r] evs].
  cbn [fst snd] in *.
  assert (Hno : EvFinalStatistics g ∉ evs).
  { intros Hg. rewrite Forall_forall in Hevs.
    by destruct (Hevs _ Hg) as [c' ?]. }
  destruct r as [[]|]; cbn [snd].
  - intros [Hg|Hg]%elem_of_app; [done|].
    apply elem_of_cons in Hg as [[= ->]|Hg].
    + split_and!; [exact Hset| |by apply Hsub|exact Hbal].
      apply Hcat; [|done|done].
      intros s' c' <-. by destruct (traverse_stats s' c') as (_ & -> & _).
    + apply elem_of_cons in Hg as [Hg|Hg]; [done|].
      by apply elem_of_nil in Hg.
  - intros [Hg|Hg]%elem_of_app; [done|].
    repeat (apply elem_of_cons in Hg as [Hg|Hg]; [done|]).
    by apply elem_of_nil in Hg.
Qed.

(** X17: a failure inside a traversal ends in the traversal's own
    [except] clause, so the calls of the controller all return: once
    discovery has found a category, the run traverses every unit in
    order and ends with the final report followed by the closing of
    the browser. *)
Theorem run_reports_when_categories_found s :
  discover_main_categories urljoin home ≠ [] →
  let run := run_scraper urljoin JSON json_loads json_dump home sites s in
  ∃ evs,
    run.2 = evs ++ [EvFinalStatistics (global_stats run.1); EvBrowserClose]
    ∧ evs = EvScrape
              <$> concat (units_of <$> discover_main_categories urljoin home).
Proof.
  intros Hne. cbv zeta.
  unfold run_scraper, scrape_all_categories_comprehensively.
  destruct cats as [|c cs] eqn:Hcats; [done|].
  set (all := c :: cs). set (s0 := set_categories_explored (length all) s).
  pose proof (process_categories_events traverse' all s0) as Hevs.
  destruct (process_categories_scraped traverse' all s0) as [_ He].
  pose proof (process_categories_returns all s0) as Hr.
  destruct (process_categories traverse' s0 all) as [[s1 r] evs].
  cbn [fst snd] in *. subst r. exists evs. split; [done|].
  rewrite <- He by done. clear He.
  induction Hevs as [|e evs [c' ->] _ IH]; [done|].
  cbn. f_equal. exact IH.
Qed.

End RunFacts.

(** ** The further properties on the small site *)

Module OnSite.

Import Samples Site.

Local Abbreviation scrape :=
  (scrape_category_workflows urljoin_path string loads_object dump_object).
Local Abbreviation run :=
  (run_scraper urljoin_path string loads_object dump_object slow_home
     small_site fresh_scraper).

(** Discovery reaches the start page at the second attempt, drops the
    AI link and keeps one record for each of the other two links. *)
Example discovery_on_start_page :
  navigate (home_goto slow_home) 0 max_retries = (true, 2)
  ∧ discover_main_categories urljoin_path slow_home = [sales; devops].
Proof. split; vm_compute; reflexivity. Qed.

(** The traversal of [two_pages] reads both pages, accepts four items
    and hands them over in one batch, whose fourth item fails. *)
Example traversal_of_two_pages :
  scrape two_pages "Sales" 31 fresh_scraper = Some two_pages_result
  ∧ pages_loaded two_pages_result = 2
  ∧ slug <$> all_workflows two_pages_result
    = ["1-flow"; "2-flow"; "3-flow"; "4-flow"]
  ∧ length <$> batches two_pages_result = [4]
  ∧ global_stats (self two_pages_result) = mkGlobalStats 0 0 4 3 1.
Proof. split_and!; vm_compute; reflexivity. Qed.

(** The run on the small site. *)
Example run_on_small_site :
  event_label <$> run.2
  = [ "crm"; "lead-generation"; "lead-nurturing"; "devops";
      "final statistics"; "browser closed" ]
  ∧ global_stats run.1 = small_report.
Proof. split; vm_compute; reflexivity. Qed.

Lemma discover_excludes_ai_witness :
  Text.lower (cat_slug sales) ≠ "ai".
Proof.
  apply (discover_excludes_ai urljoin_path slow_home sales).
  apply (list_elem_of_lookup_2 _ 0). vm_compute. reflexivity.
Defined.

Lemma extract_item_shape_witness :
  category agent_chat = "Sales"
  ∧ all_chars Text.not_slash (slug agent_chat) = true
  ∧ ∃ element href,
      element ∈ entries (listing_page [scenario_b; unlabelled] false)
      ∧ get_attribute element "href" = Ret (Some href)
      ∧ url agent_chat = urljoin_path BASE_URL href.
Proof.
  apply (extract_item_shape urljoin_path "Sales"
           (listing_page [scenario_b; unlabelled] false) agent_chat).
  apply (list_elem_of_lookup_2 _ 0). vm_compute. reflexivity.
Defined.

Lemma traversal_stops_witness :
  pages_loaded two_pages_result ≤ 2.
Proof.
  apply (traversal_stops_without_load_more urljoin_path string loads_object
           dump_object two_pages "Sales" 31 fresh_scraper two_pages_result 1);
    vm_compute; reflexivity.
Defined.

Lemma traversal_accepts_witness :
  ((MIN_NODES ≤ nodes first_flow)%N
   ∧ has_price first_flow = false ∧ is_free first_flow = true)
  ∧ category first_flow = "Sales"
  ∧ ∃ k, first_flow
         ∈ extract_workflow_links urljoin_path (view two_pages k) "Sales".
Proof.
  apply (traversal_accepts_only_extracted urljoin_path string loads_object
           dump_object two_pages "Sales" 31 fresh_scraper two_pages_result
           first_flow).
  - vm_compute. reflexivity.
  - apply (list_elem_of_lookup_2 _ 0). vm_compute. reflexivity.
Defined.

(** The tabs of the two-page listing never raise in front of the
    [try]. *)
Lemma two_pages_paths_ok b k i : paths_ok (batch_tabs two_pages b k i).
Proof.
  cbn. unfold tabs_failing_third. by destruct (i =? 3).
Qed.

Lemma small_site_paths_ok c b k i : paths_ok (batch_tabs (small_site c) b k i).
Proof.
  unfold small_site.
  destruct (String.eqb (cat_slug c) "devops"); [done|].
  destruct (String.eqb (cat_slug c) "crm"); [done|].
  apply two_pages_paths_ok.
Qed.

(** A traversal cut short: the directory of the category cannot be
    made, the first download of the only batch raises, and the two
    items found are counted neither as downloads nor as errors. *)
Example traversal_cut_short :
  scrape no_directory "CI/CD" 31 fresh_scraper = Some no_directory_result
  ∧ length (all_workflows no_directory_result) = 2
  ∧ global_stats (self no_directory_result) = mkGlobalStats 0 0 2 0 0
  ∧ download_dir (self no_directory_result) = ∅.
Proof. split_and!; vm_compute; reflexivity. Qed.

Lemma traversal_counts_witness :
  total_workflows_found (global_stats (self two_pages_result))
  = total_workflows_found (global_stats fresh_scraper)
    + length (all_workflows two_pages_result)
  ∧ settled (self two_pages_result)
  ∧ balanced (self two_pages_result).
Proof.
  destruct (traversal_counts_every_item urljoin_path string loads_object
              dump_object two_pages "Sales" 31 fresh_scraper
              two_pages_result)
    as (Hfound & _ & _ & _ & _ & Hsettled & Hexact);
    [vm_compute; reflexivity|].
  split_and!; [exact Hfound|apply Hsettled; unfold settled; cbn; lia|].
  apply (Hexact two_pages_paths_ok). reflexivity.
Defined.

Lemma traversal_writes_witness :
  read_file "Sales" "1954-ai-agent-chat.json"
    (download_dir (self stocked_result))
  = Some "{}".
Proof.
  apply (proj1 (traversal_writes_only_its_targets urljoin_path string
                  loads_object dump_object two_pages "Sales" 31
                  stocked_scraper stocked_result "Sales"
                  "1954-ai-agent-chat.json" ltac:(vm_compute; reflexivity))).
  vm_compute. reflexivity.
Defined.

Lemma run_report_witness :
  total_workflows_downloaded small_report + total_errors small_report
  ≤ total_workflows_found small_report
  ∧ categories_explored small_report
    = length (discover_main_categories urljoin_path slow_home)
  ∧ subcategories_explored small_report
    = subcategories_explored (global_stats fresh_scraper)
      + sum_list
          ((λ c, length (discover_subcategories c))
             <$> discover_main_categories urljoin_path slow_home)
  ∧ total_workflows_downloaded small_report + total_errors small_report
    = total_workflows_found small_report.
Proof.
  destruct (run_report_adds_up urljoin_path string loads_object dump_object
              slow_home small_site fresh_scraper small_report)
    as (Hle & Hcat & Hsub & Heq).
  - unfold settled. cbn. lia.
  - apply (list_elem_of_lookup_2 _ 4). vm_compute. reflexivity.
  - split_and!; [exact Hle|exact Hcat|exact Hsub|].
    apply (Heq small_site_paths_ok). reflexivity.
Defined.

Lemma run_reports_witness :
  ∃ evs,
    run.2 = evs ++ [EvFinalStatistics (global_stats run.1); EvBrowserClose]
    ∧ evs = EvScrape
              <$> concat
                    (units_of
                       <$> discover_main_categories urljoin_path slow_home).
Proof.
  apply (run_reports_when_categories_found urljoin_path string loads_object
           dump_object slow_home small_site fresh_scraper).
  intros Hnone. vm_compute in Hnone. discriminate Hnone.
Defined.

End OnSite.
